(** * epubcheck-mcp: the invocation pipeline and the version cache

  A shallow embedding of [src/epubcheck/runner.ts], [src/epubcheck/types.ts]
  and [src/epubcheck/version-checker.ts], and the properties the
  specification states about them.

  Conventions.
  - A JavaScript string is a [string]; an optional property or a
    [T | null] variable is an [option].
  - Module-level [let] variables, the disk, the clock and the record of what
    the program asked of its surroundings (processes spawned, fetches
    started) live in one [World]; code that reads or writes them is written
    in the monad [Eff], which also carries JavaScript exceptions.
  - What the surroundings answer (the events of a child process, the
    outcome of a fetch, the state of a file) is an argument. *)

From Stdlib Require Import String Ascii List ZArith Bool Lia PeanoNat.
From Stdlib Require Import Numbers.DecimalString.
Import ListNotations.

Local Open Scope string_scope.
Local Open Scope list_scope.

(* ===================================================================== *)
(** ** JavaScript values and built-ins used by the sources               *)
(* ===================================================================== *)

Module Js.

(** Errors that travel through [throw] and promise rejection. [Error] is
    [new Error(message)]; [SyntaxError] is what [JSON.parse] and
    [response.json()] throw; [SystemError] is a failed system call of the
    [fs], [child_process] or network layer, with its code and message. *)
Inductive JsError : Type :=
| Error (message : string)
| SyntaxError (message : string)
| SystemError (code message : string).

Definition message (e : JsError) : string :=
  match e with
  | Error m => m
  | SyntaxError m => m
  | SystemError _ m => m
  end.

(** Truthiness of a [string | null | undefined] value: the empty string,
    [null] and [undefined] are falsy. *)
Definition truthy (v : option string) : bool :=
  match v with
  | Some s => negb (s =? "")
  | None => false
  end.

(** The value of a truthy [v], for [if (v) { ... v ... }]. *)
Definition if_truthy (v : option string) : option string :=
  match v with
  | Some s => if s =? "" then None else Some s
  | None => None
  end.

(** [a || b] on strings. *)
Definition or_else (a : string) (b : string) : string :=
  if a =? "" then b else a.

(** A promise settles once: [resolve] and [reject] on a settled promise do
    nothing. *)
Inductive Promise (A : Type) : Type :=
| Pending
| Resolved (a : A)
| Rejected (e : JsError).
Arguments Pending {A}.
Arguments Resolved {A} a.
Arguments Rejected {A} e.

Definition resolve {A} (a : A) (p : Promise A) : Promise A :=
  match p with Pending => Resolved a | _ => p end.

Definition reject {A} (e : JsError) (p : Promise A) : Promise A :=
  match p with Pending => Rejected e | _ => p end.

(** Template-literal rendering of an integer, digit by digit: what a
    template literal writes for an integer below 1e21 in absolute value
    (exit codes, counts, line and column numbers). *)
Definition Z_to_string (z : Z) : string :=
  NilEmpty.string_of_int (Z.to_int z).

(** [Array.prototype.join]. *)
Definition array_join (sep : string) (l : list string) : string :=
  String.concat sep l.

(** [s.split(c)] for a one-character separator: never the empty list. *)
Fixpoint split (sep : ascii) (s : string) : list string :=
  match s with
  | EmptyString => [EmptyString]
  | String c s' =>
      if Ascii.eqb c sep then EmptyString :: split sep s'
      else match split sep s' with
           | [] => [String c EmptyString]
           | w :: ws => String c w :: ws
           end
  end.

Definition is_digit (c : ascii) : bool :=
  let n := nat_of_ascii c in (48 <=? n)%nat && (n <=? 57)%nat.

(** White space that [String.prototype.trim] removes, among the ASCII
    characters: tab, line feed, vertical tab, form feed, carriage return
    and space. [String.prototype.trim] also removes the blanks of Unicode
    outside ASCII (U+00A0, U+FEFF, U+2028, U+2029 and the space
    separators), which a string of bytes does not tell apart: [trim] below
    is the code's [trim] on texts of ASCII characters, and what is proved
    of a trimmed value is proved for such texts only. *)
Definition is_space (c : ascii) : bool :=
  let n := nat_of_ascii c in
  ((9 <=? n)%nat && (n <=? 13)%nat) || (n =? 32)%nat.

Fixpoint trim_start (s : string) : string :=
  match s with
  | String c s' => if is_space c then trim_start s' else s
  | EmptyString => EmptyString
  end.

Fixpoint trim_end (s : string) : string :=
  match s with
  | EmptyString => EmptyString
  | String c s' =>
      match trim_end s' with
      | EmptyString => if is_space c then EmptyString else String c EmptyString
      | t => String c t
      end
  end.

Definition trim (s : string) : string := trim_end (trim_start s).

Fixpoint take_while (p : ascii -> bool) (s : string) : string :=
  match s with
  | String c s' => if p c then String c (take_while p s') else EmptyString
  | EmptyString => EmptyString
  end.

Fixpoint strip_prefix (p s : string) : option string :=
  match p, s with
  | EmptyString, _ => Some s
  | String a p', String b s' => if Ascii.eqb a b then strip_prefix p' s' else None
  | String _ _, EmptyString => None
  end.

End Js.

(* ===================================================================== *)
(** ** types.ts                                                          *)
(* ===================================================================== *)

Module Types.

(** The interfaces of the structured output. Numbers are integers here; a
    field name that two interfaces share keeps its name in the first and
    takes the interface as a prefix in the others. *)

Inductive ValidateMode : Type := Mepub | Mopf | Mxhtml | Msvg | Mnav | Mmo.

Inductive ValidateProfile : Type := Pdefault | Pdict | Pedupub | Pidx | Ppreview.

Inductive EpubVersion : Type := V2_0 | V3_0.

(** The string each literal type stands for at run time. *)
Definition mode_string (m : ValidateMode) : string :=
  match m with
  | Mepub => "epub" | Mopf => "opf" | Mxhtml => "xhtml"
  | Msvg => "svg" | Mnav => "nav" | Mmo => "mo"
  end.

Definition profile_string (p : ValidateProfile) : string :=
  match p with
  | Pdefault => "default" | Pdict => "dict" | Pedupub => "edupub"
  | Pidx => "idx" | Ppreview => "preview"
  end.

Definition version_string (v : EpubVersion) : string :=
  match v with V2_0 => "2.0" | V3_0 => "3.0" end.

Record ValidateOptions : Type := {
  path : string;
  mode : option ValidateMode;
  profile : option ValidateProfile;
  version : option EpubVersion
}.

Inductive Severity : Type := FATAL | ERROR | WARNING | INFO | USAGE.

Record Location : Type := {
  loc_path : string;
  line : Z;
  column : Z;
  context : option string
}.

Record Message : Type := {
  ID : string;
  severity : Severity;
  message : string;
  additionalLocations : Z;
  locations : list Location;
  suggestion : option string
}.

Record CheckerInfo : Type := {
  checker_path : string;
  filename : string;
  checkerVersion : string;
  checkDate : string;
  elapsedTime : Z;
  nFatal : Z;
  nError : Z;
  nWarning : Z;
  nUsage : Z
}.

Record PublicationInfo : Type := {
  publisher : option string;
  title : option string;
  creator : option (list string);
  date : option string;
  subject : option (list string);
  description : option string;
  rights : option string;
  identifier : option string;
  language : option string;
  nSpines : Z;
  checkSum : option Z;
  renditionLayout : option string;
  renditionOrientation : option string;
  renditionSpread : option string;
  ePubVersion : option string;
  isBackwardCompatible : option bool;
  hasAudio : option bool;
  hasVideo : option bool;
  hasFixedFormat : option bool;
  hasScripts : option bool;
  hasEncryption : option bool;
  hasSignatures : option bool;
  isScripted : option bool;
  embeddedFonts : option (list string);
  refFonts : option (list string);
  hasRemoteResources : option bool;
  references : option (list string)
}.

Record ItemInfo : Type := {
  id : option string;
  fileName : string;
  media_type : string;
  compressedSize : Z;
  uncompressedSize : Z;
  compressionMethod : option string;
  item_checkSum : option string;
  isSpineItem : option bool;
  spineIndex : option Z;
  isLinear : option bool;
  navigationOrder : option Z;
  isFixed : option bool;
  item_renditionLayout : option string;
  item_renditionOrientation : option string;
  item_renditionSpread : option string;
  referencedItems : option (list string)
}.

Record EpubCheckResult : Type := {
  checker : CheckerInfo;
  publication : PublicationInfo;
  items : list ItemInfo;
  messages : list Message
}.

End Types.

(* ===================================================================== *)
(** ** The world the program runs in                                     *)
(* ===================================================================== *)

Module Sys.
Import Js.

(** A file, by what [existsSync], [readFile] and [JSON.parse] make of it:
    absent; present but unreadable; readable with a text [JSON.parse]
    rejects; readable with the JSON text of a value of the type the code
    casts the parse result to. *)
Inductive Content (A : Type) : Type :=
| Garbled (e : JsError)
| Json (a : A).
Arguments Garbled {A} e.
Arguments Json {A} a.

Inductive File (A : Type) : Type :=
| Missing
| Unreadable (e : JsError)
| Readable (c : Content A).
Arguments Missing {A}.
Arguments Unreadable {A} e.
Arguments Readable {A} c.

Definition file_exists {A} (f : File A) : bool :=
  match f with Missing => false | _ => true end.

Definition file_read {A} (f : File A) : JsError + Content A :=
  match f with
  | Missing => inl (SystemError "ENOENT" "no such file or directory")
  | Unreadable e => inl e
  | Readable c => inr c
  end.

Definition JSON_parse {A} (c : Content A) : JsError + A :=
  match c with
  | Garbled e => inl e
  | Json a => inr a
  end.

(** [interface VersionCache] of version-checker.ts. *)
Record VersionCache : Type := {
  lastCheck : Z;
  latestVersion : option string;
  currentVersion : string
}.

(** The module-level variables: [cachedVersion] of runner.ts,
    [cachedLatestVersion] and [versionCheckPromise] of version-checker.ts. *)
Record Vars : Type := {
  cachedVersion : option string;
  cachedLatestVersion : option string;
  versionCheckPromise : option (Promise unit)
}.

(** The per-user cache directory and the cache file in it. [mkdir_ok] and
    [write_ok] say whether [mkdirSync] and [writeFileSync] succeed. *)
Record Disk : Type := {
  cache_dir : bool;
  cache_file : File VersionCache;
  mkdir_ok : bool;
  write_ok : bool
}.

(** What the program asked of its surroundings, oldest first. *)
Inductive Effect : Type :=
| Spawn (command : string) (argv : list string) (cwd : option string)
| ReadCacheFile
| MakeCacheDir
| WriteCacheFile (c : VersionCache)
| Fetch (url : string)
| Unlink (file : string).

(** [pending] holds the background checks whose fetch has not settled yet,
    oldest first, each with the [currentVersion] its closure captured. *)
Record World : Type := {
  vars : Vars;
  disk : Disk;
  clock : Z;
  pending : list string;
  trace : list Effect
}.

Definition with_vars (v : Vars) (w : World) : World :=
  {| vars := v; disk := disk w; clock := clock w;
     pending := pending w; trace := trace w |}.

Definition with_disk (d : Disk) (w : World) : World :=
  {| vars := vars w; disk := d; clock := clock w;
     pending := pending w; trace := trace w |}.

Definition with_clock (t : Z) (w : World) : World :=
  {| vars := vars w; disk := disk w; clock := t;
     pending := pending w; trace := trace w |}.

Definition with_pending (p : list string) (w : World) : World :=
  {| vars := vars w; disk := disk w; clock := clock w;
     pending := p; trace := trace w |}.

Definition with_trace (t : list Effect) (w : World) : World :=
  {| vars := vars w; disk := disk w; clock := clock w;
     pending := pending w; trace := t |}.

(** *** The monad of effectful code: state and exceptions. A thrown
    exception keeps the state changes made before it. *)
Inductive Result (A : Type) : Type :=
| Ok (a : A)
| Throw (e : JsError).
Arguments Ok {A} a.
Arguments Throw {A} e.

Definition Eff (A : Type) : Type := World -> Result A * World.

Definition ret {A} (a : A) : Eff A := fun w => (Ok a, w).

Definition throw {A} (e : JsError) : Eff A := fun w => (Throw e, w).

Definition bind {A B} (c : Eff A) (k : A -> Eff B) : Eff B :=
  fun w =>
    match c w with
    | (Ok a, w') => k a w'
    | (Throw e, w') => (Throw e, w')
    end.

(** [try { c } catch (e) { h e }]. *)
Definition try_catch {A} (c : Eff A) (h : JsError -> Eff A) : Eff A :=
  fun w =>
    match c w with
    | (Ok a, w') => (Ok a, w')
    | (Throw e, w') => h e w'
    end.

(** [try { c } finally { f }]. *)
Definition try_finally {A} (c : Eff A) (f : Eff unit) : Eff A :=
  fun w =>
    match c w with
    | (r, w') =>
        match f w' with
        | (Ok _, w'') => (r, w'')
        | (Throw e, w'') => (Throw e, w'')
        end
    end.

(** A fallible system call whose answer is already known. *)
Definition lift {A} (r : JsError + A) : Eff A :=
  match r with inl e => throw e | inr a => ret a end.

Definition get {A} (f : World -> A) : Eff A := fun w => (Ok (f w), w).

Definition modify (f : World -> World) : Eff unit := fun w => (Ok tt, f w).

Definition emit (e : Effect) : Eff unit :=
  modify (fun w => with_trace (trace w ++ [e]) w).

Definition exec {A} (c : Eff A) (w : World) : World := snd (c w).

Definition result {A} (c : Eff A) (w : World) : Result A := fst (c w).

(** [Date.now()]. *)
Definition Date_now : Eff Z := get clock.

End Sys.

Declare Scope eff_scope.
Delimit Scope eff_scope with eff.
Notation "x <- c ;; k" := (Sys.bind c (fun x => k))
(at level 61, c at next level, right associativity) : eff_scope.
Notation "c ;; k" := (Sys.bind c (fun _ => k))
(at level 61, right associativity) : eff_scope.

(* ===================================================================== *)
(** ** version-checker.ts                                                *)
(* ===================================================================== *)

Module VersionChecker.
Import Js Sys.
Local Open Scope eff_scope.
Local Open Scope Z_scope.

Definition CHECK_INTERVAL : Z := 24 * 60 * 60 * 1000.

Definition RELEASES_URL : string :=
  "https://api.github.com/repos/w3c/epubcheck/releases/latest".

Definition set_cachedLatestVersion (v : option string) : Eff unit :=
  modify (fun w =>
    with_vars {| cachedVersion := cachedVersion (vars w);
                 cachedLatestVersion := v;
                 versionCheckPromise := versionCheckPromise (vars w) |} w).

Definition set_versionCheckPromise (p : option (Promise unit)) : Eff unit :=
  modify (fun w =>
    with_vars {| cachedVersion := cachedVersion (vars w);
                 cachedLatestVersion := cachedLatestVersion (vars w);
                 versionCheckPromise := p |} w).

Definition getCachedLatestVersion : Eff (option string) :=
  get (fun w => cachedLatestVersion (vars w)).

(** *** File-system calls on the cache directory and file *)

Definition existsSync_cache_file : Eff bool :=
  get (fun w => file_exists (cache_file (disk w))).

Definition readFileSync_cache_file : Eff (Content VersionCache) :=
  emit ReadCacheFile ;;
  f <- get (fun w => cache_file (disk w)) ;;
  lift (file_read f).

Definition existsSync_cache_dir : Eff bool :=
  get (fun w => cache_dir (disk w)).

Definition mkdirSync_cache_dir : Eff unit :=
  emit MakeCacheDir ;;
  ok <- get (fun w => mkdir_ok (disk w)) ;;
  if ok : bool then
    modify (fun w =>
      with_disk {| cache_dir := true; cache_file := cache_file (disk w);
                   mkdir_ok := mkdir_ok (disk w);
                   write_ok := write_ok (disk w) |} w)
  else throw (SystemError "EACCES" "permission denied").

(** [writeFileSync(VERSION_CACHE_FILE, JSON.stringify(cache, null, 2))]: on
    success the file holds the JSON text of [cache]. Writing into a
    directory that does not exist fails. *)
Definition writeFileSync_cache_file (cache : VersionCache) : Eff unit :=
  emit (WriteCacheFile cache) ;;
  d <- get disk ;;
  if write_ok d && cache_dir d then
    modify (with_disk {| cache_dir := cache_dir d;
                         cache_file := Readable (Json cache);
                         mkdir_ok := mkdir_ok d; write_ok := write_ok d |})
  else if cache_dir d then throw (SystemError "EACCES" "permission denied")
  else throw (SystemError "ENOENT" "no such file or directory").

(** *** loadCache *)
Definition loadCache : Eff (option VersionCache) :=
  try_catch
    (present <- existsSync_cache_file ;;
     if present : bool then
       data <- readFileSync_cache_file ;;
       cache <- lift (JSON_parse data) ;;
       ret (Some cache)
     else ret None)
    (fun _ => (* Ignore cache read errors *) ret None).

(** *** saveCache *)
Definition saveCache (cache : VersionCache) : Eff unit :=
  try_catch
    (present <- existsSync_cache_dir ;;
     (if negb present then mkdirSync_cache_dir else ret tt) ;;
     writeFileSync_cache_file cache)
    (fun _ => (* Ignore cache write errors *) ret tt).

(** *** fetchLatestVersion *)

(** What [response.json()] yields: a rejection for a body that is not JSON,
    or the object, of which only [tag_name] is read ([None] when the
    property is absent). *)
Inductive Body : Type :=
| BodyGarbled (e : JsError)
| BodyJson (tag_name : option string).

(** How the [fetch] settles: rejected, or fulfilled with a response whose
    [ok] says whether the status is 2xx. *)
Inductive FetchOutcome : Type :=
| NetworkError (e : JsError)
| Response (ok : bool) (body : Body).

(** [s.replace(/^v/, "")]. *)
Definition strip_v (s : string) : string :=
  match s with
  | String "v"%char rest => rest
  | _ => s
  end.

(** The function up to its first [await]: the request is issued. *)
Definition fetchLatestVersion_start : Eff unit := emit (Fetch RELEASES_URL).

(** The function from the moment the [fetch] settles. *)
Definition fetchLatestVersion_resume (o : FetchOutcome) : Eff (option string) :=
  try_catch
    (response <- lift (match o with
                       | NetworkError e => inl e
                       | Response ok body => inr (ok, body)
                       end) ;;
     if negb (fst response) then ret None
     else
       data <- lift (match snd response with
                     | BodyGarbled e => inl e
                     | BodyJson t => inr t
                     end) ;;
       (* data.tag_name?.replace(/^v/, "") || null *)
       match data with
       | Some t => if (strip_v t =? "")%string then ret None else ret (Some (strip_v t))
       | None => ret None
       end)
    (fun _ => ret None).

(** *** checkForUpdatesAsync *)

(** The body of the [async] arrow function from the moment the fetch
    settles, with its [try], [catch] and [finally]. *)
Definition background_resume (currentVersion : string) (o : FetchOutcome)
  : Eff unit :=
  try_finally
    (try_catch
       (latestVersion <- fetchLatestVersion_resume o ;;
        if truthy latestVersion then
          set_cachedLatestVersion latestVersion ;;
          now <- Date_now ;;
          saveCache {| lastCheck := now;
                       latestVersion := latestVersion;
                       currentVersion := currentVersion |}
        else ret tt)
       (fun _ => (* Silently ignore errors *) ret tt))
    (set_versionCheckPromise None).

(** The arrow function is called at once: it runs up to the [await], which
    issues the request, and the promise it returns is stored. *)
Definition background_start (currentVersion : string) : Eff unit :=
  fetchLatestVersion_start ;;
  modify (fun w => with_pending (pending w ++ [currentVersion]) w) ;;
  set_versionCheckPromise (Some Pending).

Definition checkForUpdatesAsync (currentVersion : string) : Eff unit :=
  p <- get (fun w => versionCheckPromise (vars w)) ;;
  match p with
  | Some _ => (* Only run one check at a time *) ret tt
  | None =>
      cache <- loadCache ;;
      fresh <- match cache with
               | Some c =>
                   set_cachedLatestVersion (latestVersion c) ;;
                   now <- Date_now ;;
                   ret (now - lastCheck c <? CHECK_INTERVAL)
               | None => ret false
               end ;;
      if fresh : bool then ret tt
      else background_start currentVersion
  end.

(** *** The program over time: triggers and settling fetches *)
Inductive Event : Type :=
| Trigger (now : Z) (currentVersion : string)
| FetchSettled (now : Z) (o : FetchOutcome).

Definition step (w : World) (e : Event) : World :=
  match e with
  | Trigger now cv => exec (checkForUpdatesAsync cv) (with_clock now w)
  | FetchSettled now o =>
      match pending w with
      | [] => w
      | cv :: rest =>
          exec (background_resume cv o) (with_clock now (with_pending rest w))
      end
  end.

Definition run (w : World) (es : list Event) : World := fold_left step es w.

(** Observations on a world. *)
Definition is_fetch (e : Effect) : bool :=
  match e with Fetch _ => true | _ => false end.

Definition is_cache_read (e : Effect) : bool :=
  match e with ReadCacheFile => true | _ => false end.

Definition is_cache_write (e : Effect) : bool :=
  match e with WriteCacheFile _ => true | _ => false end.

Definition fetches (w : World) : nat := length (filter is_fetch (trace w)).

Definition cache_writes (w : World) : nat :=
  length (filter is_cache_write (trace w)).

Definition in_flight (w : World) : nat := length (pending w).

Definition checking (w : World) : bool :=
  match versionCheckPromise (vars w) with Some _ => true | None => false end.

(** A process that has just started: nothing memoized, nothing in flight. *)
Definition fresh_world (d : Disk) (now : Z) : World :=
  {| vars := {| cachedVersion := None; cachedLatestVersion := None;
                versionCheckPromise := None |};
     disk := d; clock := now; pending := []; trace := [] |}.

(** *** isUpdateAvailable *)

(** A JavaScript number as far as version components need it: [NaN] or an
    integer. [Number] is exact on the empty string and on strings of
    decimal digits that denote an integer below 2^53; signs, exponents,
    radix prefixes, [Infinity] and surrounding blanks, which [Number] also
    reads, are not modelled and yield [NaN] here. *)
Inductive JsNumber : Type := NaN | Num (z : Z).

Fixpoint all_digits (s : string) : bool :=
  match s with
  | EmptyString => true
  | String c s' => is_digit c && all_digits s'
  end.

Fixpoint digits_value (acc : Z) (s : string) : Z :=
  match s with
  | EmptyString => acc
  | String c s' => digits_value (10 * acc + (Z.of_nat (nat_of_ascii c) - 48)) s'
  end.

Definition Number (s : string) : JsNumber :=
  if all_digits s then Num (digits_value 0 s) else NaN.

(** [a[i] || 0]: [undefined], [NaN] and [0] are falsy. *)
Definition or_zero (v : option JsNumber) : Z :=
  match v with
  | Some (Num z) => z
  | Some NaN => 0
  | None => 0
  end.

(** The [for] loop from index [i] with [n] iterations left. *)
Fixpoint compare_loop (current latest : list JsNumber) (i n : nat) : bool :=
  match n with
  | O => false
  | S n' =>
      let c := or_zero (nth_error current i) in
      let l := or_zero (nth_error latest i) in
      if l >? c then true
      else if l <? c then false
      else compare_loop current latest (S i) n'
  end.

Definition isUpdateAvailable (currentVersion : string)
    (latestVersion : option string) : bool :=
  match latestVersion with
  | None => false
  | Some lv =>
      if negb (truthy latestVersion) then false
      else
        let current := map Number (split "." currentVersion) in
        let latest := map Number (split "." lv) in
        compare_loop current latest 0
          (Nat.max (length current) (length latest))
  end.

Definition getUpdateNotification (currentVersion : string)
  : Eff (option string) :=
  latestVersion <- getCachedLatestVersion ;;
  if isUpdateAvailable currentVersion latestVersion then
    ret (Some (String "010"%char "---" ++ String "010"%char "Note: EPUBCheck "
               ++ match latestVersion with Some v => v | None => "null" end
               ++ " is available (current: " ++ currentVersion
               ++ "). Visit https://github.com/w3c/epubcheck/releases for details.")%string)
  else ret None.

End VersionChecker.

(* ===================================================================== *)
(** ** Node's [path] module (POSIX flavour)                              *)
(* ===================================================================== *)

Module Path.
Import Js.

Definition starts_with_slash (s : string) : bool :=
  match s with String "/"%char _ => true | _ => false end.

Fixpoint ends_with_slash (s : string) : bool :=
  match s with
  | EmptyString => false
  | String c EmptyString => Ascii.eqb c "/"%char
  | String _ s' => ends_with_slash s'
  end.

(** [normalizeString]: [stack] holds the segments kept so far, last one
    first. Empty segments and [.] vanish; [..] removes the segment before
    it, or stays when there is none to remove and the path is relative. *)
Fixpoint normalize_segments (allowAboveRoot : bool) (stack segs : list string)
  : list string :=
  match segs with
  | [] => rev stack
  | s :: rest =>
      if (s =? "") || (s =? ".") then
        normalize_segments allowAboveRoot stack rest
      else if s =? ".." then
        match stack with
        | top :: below =>
            if top =? ".." then
              normalize_segments allowAboveRoot (s :: stack) rest
            else normalize_segments allowAboveRoot below rest
        | [] =>
            if allowAboveRoot then
              normalize_segments allowAboveRoot [s] rest
            else normalize_segments allowAboveRoot [] rest
        end
      else normalize_segments allowAboveRoot (s :: stack) rest
  end.

Definition normalize (p : string) : string :=
  if p =? "" then "."
  else
    let isAbsolute := starts_with_slash p in
    let trailing := ends_with_slash p in
    let body := array_join "/"
                  (normalize_segments (negb isAbsolute) [] (split "/" p)) in
    if body =? "" then
      (if isAbsolute then "/" else if trailing then "./" else ".")
    else
      ((if isAbsolute then "/" else "") ++ body
       ++ (if trailing then "/" else ""))%string.

(** [path.join(...)]. *)
Definition join (parts : list string) : string :=
  match filter (fun s => negb (s =? "")) parts with
  | [] => "."
  | ps => normalize (array_join "/" ps)
  end.

(** [path.dirname]: scanning from the end, trailing slashes are skipped,
    then the last segment, and the path is cut at the slash before it. The
    scan never looks at the first character. [rev_tail] is the path without
    its first character, reversed. *)
Fixpoint dirname_scan (matchedSlash : bool) (rev_tail : list ascii)
  : option (list ascii) :=
  match rev_tail with
  | [] => None
  | c :: before =>
      if Ascii.eqb c "/"%char then
        if matchedSlash then dirname_scan true before
        else Some before
      else dirname_scan false before
  end.

Definition dirname (p : string) : string :=
  match p with
  | EmptyString => "."
  | String first tail =>
      let hasRoot := Ascii.eqb first "/"%char in
      match dirname_scan true (rev (list_ascii_of_string tail)) with
      | None => if hasRoot then "/" else "."
      | Some [] => if hasRoot then "//" else String first EmptyString
      | Some before => String first (string_of_list_ascii (rev before))
      end
  end.

End Path.

(* ===================================================================== *)
(** ** runner.ts                                                         *)
(* ===================================================================== *)

Module Runner.
Import Js Sys Types.
Local Open Scope eff_scope.

(** What the module reads from its process: the environment variable, the
    directory of the running file, the working directory, the scratch
    directory and which paths exist on the file system. *)
Record Env : Type := {
  EPUBCHECK_JAR_PATH : option string;
  __dirname : string;
  process_cwd : string;
  tmpdir : string;
  existsSync : string -> bool
}.

Definition possiblePaths (env : Env) : list string :=
  [ Path.join [__dirname env; ".."; "bin"; "epubcheck.jar"];
    Path.join [__dirname env; "bin"; "epubcheck.jar"];
    Path.join [process_cwd env; "bin"; "epubcheck.jar"] ].

Definition jar_not_found_message (paths : list string) : string :=
  ("EPUBCheck JAR not found. Searched in: " ++ array_join ", " paths
   ++ ". Set EPUBCHECK_JAR_PATH environment variable or ensure bin/epubcheck.jar exists.")%string.

(** The [for ... of] loop of [getJarPath]. *)
Fixpoint first_existing (exists_ : string -> bool) (paths : list string)
  : option string :=
  match paths with
  | [] => None
  | p :: rest => if exists_ p then Some p else first_existing exists_ rest
  end.

Definition getJarPath (env : Env) : JsError + string :=
  match if_truthy (EPUBCHECK_JAR_PATH env) with
  | Some override => (* Environment variable override *) inr override
  | None =>
      match first_existing (existsSync env) (possiblePaths env) with
      | Some p => inr p
      | None => inl (Error (jar_not_found_message (possiblePaths env)))
      end
  end.

(** *** buildArgs *)

(** [args.push(...)]. *)
Definition push (args items : list string) : list string := args ++ items.

Definition buildArgs (options : ValidateOptions) (jsonOutputPath : string)
  : list string :=
  let args := [] in
  (* Output format *)
  let args := push args ["--json"; jsonOutputPath] in
  (* Mode *)
  let args :=
    match option_map mode_string (mode options) with
    | Some m =>
        if negb (m =? "") && negb (m =? "epub")
        then push args ["--mode"; m] else args
    | None => args
    end in
  (* Profile *)
  let args :=
    match option_map profile_string (profile options) with
    | Some p =>
        if negb (p =? "") && negb (p =? "default")
        then push args ["--profile"; p] else args
    | None => args
    end in
  (* Version (only for single file mode) *)
  let args :=
    match option_map version_string (version options),
          option_map mode_string (mode options) with
    | Some v, Some m =>
        if negb (v =? "") && negb (m =? "") && negb (m =? "epub")
        then push args ["-v"; v] else args
    | _, _ => args
    end in
  (* Input path (must be last) *)
  push args [path options].

(** *** Child processes *)

(** What a spawned child emits, in order. [Close] carries the exit code,
    [None] when the child was ended by a signal; [ChildError] is the
    ['error'] event. *)
Inductive ChildEvent : Type :=
| StdoutData (chunk : string)
| StderrData (chunk : string)
| Close (code : option Z)
| ChildError (error : JsError).

Fixpoint deliver {S : Type} (handler : ChildEvent -> S -> Eff S)
    (events : list ChildEvent) (st : S) : Eff S :=
  match events with
  | [] => ret st
  | e :: rest => st' <- handler e st ;; deliver handler rest st'
  end.

(** *** runEpubCheck *)

(** The variables of the promise executor: the collected [stderr] and the
    promise being settled. *)
Record RunState : Type := {
  stderr : string;
  run_promise : Promise EpubCheckResult
}.

Definition exit_code_text (code : option Z) : string :=
  ("exit code " ++ match code with
                   | Some n => Z_to_string n
                   | None => "null"
                   end)%string.

Definition no_output_message (stderr : string) (code : option Z) : string :=
  ("EPUBCheck failed to produce output: "
   ++ or_else stderr (exit_code_text code))%string.

(** The ['close'] listener. [artifact] is the file at [jsonOutputPath] when
    the child has closed. A failed [unlink] is swallowed by its [catch]. *)
Definition run_on_close (jsonOutputPath : string)
    (artifact : File EpubCheckResult) (code : option Z) (st : RunState)
  : Eff RunState :=
  try_catch
    (if file_exists artifact then
       jsonContent <- lift (file_read artifact) ;;
       emit (Unlink jsonOutputPath) ;;
       result <- lift (JSON_parse jsonContent) ;;
       ret {| stderr := stderr st;
              run_promise := resolve result (run_promise st) |}
     else
       ret {| stderr := stderr st;
              run_promise :=
                reject (Error (no_output_message (stderr st) code))
                       (run_promise st) |})
    (fun error =>
       ret {| stderr := stderr st;
              run_promise := reject error (run_promise st) |}).

Definition run_handler (jsonOutputPath : string)
    (artifact : File EpubCheckResult) (e : ChildEvent) (st : RunState)
  : Eff RunState :=
  match e with
  | StderrData data =>
      ret {| stderr := (stderr st ++ data)%string;
             run_promise := run_promise st |}
  | StdoutData _ => ret st
  | Close code => run_on_close jsonOutputPath artifact code st
  | ChildError error =>
      ret {| stderr := stderr st;
             run_promise :=
               reject (Error ("Failed to run EPUBCheck: " ++ Js.message error)%string)
                      (run_promise st) |}
  end.

(** [uuid] is what [randomUUID()] returns; [events] is what the child
    emits; the result is the state of the returned promise once the events
    have been handled. A throw of [getJarPath] rejects the promise of the
    [async] function. *)
Definition runEpubCheck (env : Env) (uuid : string)
    (options : ValidateOptions) (artifact : File EpubCheckResult)
    (events : list ChildEvent) : Eff (Promise EpubCheckResult) :=
  match getJarPath env with
  | inl e => ret (Rejected e)
  | inr jarPath =>
      let jsonOutputPath :=
        Path.join [tmpdir env; ("epubcheck-" ++ uuid ++ ".json")%string] in
      let args := buildArgs options jsonOutputPath in
      emit (Spawn "java" ("-jar" :: jarPath :: args)
                  (Some (Path.dirname jarPath))) ;;
      st <- deliver (run_handler jsonOutputPath artifact) events
              {| stderr := ""; run_promise := Pending |} ;;
      ret (run_promise st)
  end.

(** *** getEpubCheckVersion *)

Definition is_digit_or_dot (c : ascii) : bool :=
  is_digit c || Ascii.eqb c "."%char.

(** [stdout.match(/EPUBCheck v([\d.]+)/)], giving [match[1]]: the leftmost
    place where the literal is followed by at least one digit or dot, and
    the longest run of digits and dots there. *)
Fixpoint match_version (s : string) : option string :=
  let here :=
    match strip_prefix "EPUBCheck v" s with
    | Some rest =>
        let group := take_while is_digit_or_dot rest in
        if group =? "" then None else Some group
    | None => None
    end in
  match here with
  | Some g => Some g
  | None =>
      match s with
      | EmptyString => None
      | String _ s' => match_version s'
      end
  end.

Definition set_cachedVersion (v : option string) : Eff unit :=
  modify (fun w =>
    with_vars {| cachedVersion := v;
                 cachedLatestVersion := cachedLatestVersion (vars w);
                 versionCheckPromise := versionCheckPromise (vars w) |} w).

Record VersionState : Type := {
  stdout : string;
  version_promise : Promise string
}.

Definition version_on_close (st : VersionState) : Eff VersionState :=
  match match_version (stdout st) with
  | Some group =>
      set_cachedVersion (Some group) ;;
      (* Trigger background update check *)
      VersionChecker.checkForUpdatesAsync group ;;
      ret {| stdout := stdout st;
             version_promise := resolve group (version_promise st) |}
  | None =>
      ret {| stdout := stdout st;
             version_promise :=
               resolve (or_else (trim (stdout st)) "unknown")
                       (version_promise st) |}
  end.

Definition version_handler (e : ChildEvent) (st : VersionState)
  : Eff VersionState :=
  match e with
  | StdoutData data =>
      ret {| stdout := (stdout st ++ data)%string;
             version_promise := version_promise st |}
  | StderrData _ => ret st
  | Close _ => version_on_close st
  | ChildError error =>
      ret {| stdout := stdout st;
             version_promise :=
               reject (Error ("Failed to get EPUBCheck version: "
                              ++ Js.message error)%string)
                      (version_promise st) |}
  end.

Definition getEpubCheckVersion (env : Env) (events : list ChildEvent)
  : Eff (Promise string) :=
  cached <- get (fun w => cachedVersion (vars w)) ;;
  match if_truthy cached with
  | Some v => (* Return cached version if available *) ret (Resolved v)
  | None =>
      match getJarPath env with
      | inl e => ret (Rejected e)
      | inr jarPath =>
          emit (Spawn "java" ["-jar"; jarPath; "--version"] None) ;;
          st <- deliver version_handler events
                  {| stdout := ""; version_promise := Pending |} ;;
          ret (version_promise st)
      end
  end.

Definition is_spawn (e : Effect) : bool :=
  match e with Spawn _ _ _ => true | _ => false end.

Definition spawns (w : World) : nat := length (filter is_spawn (trace w)).

End Runner.

(* ===================================================================== *)
(** ** Notions used to state the properties                              *)
(* ===================================================================== *)

Module Reading.
Import Js Sys Types.

(** The argument vector as the engine reads it: a token that is one of
    the four flags takes the token after it as its value; anything else is
    positional. [options_of] lists the flags read with their values. *)
Definition takes_value (tok : string) : bool :=
  existsb (String.eqb tok) ["--json"; "--mode"; "--profile"; "-v"].

Fixpoint options_of (args : list string) : list (string * string) :=
  match args with
  | [] => []
  | f :: tl =>
      match tl with
      | [] => []
      | v :: rest =>
          if takes_value f then (f, v) :: options_of rest
          else options_of tl
      end
  end.

(** The values given to [flag], one per occurrence of the flag. *)
Definition values_of (flag : string) (args : list string) : list string :=
  map snd (filter (fun fv => fst fv =? flag) (options_of args)).

(** The mode and profile of a request when they are not the defaults. *)
Definition non_default_mode (o : ValidateOptions) : option ValidateMode :=
  match mode o with
  | Some Mepub | None => None
  | Some m => Some m
  end.

Definition non_default_profile (o : ValidateOptions)
  : option ValidateProfile :=
  match profile o with
  | Some Pdefault | None => None
  | Some p => Some p
  end.

Definition flag_with (flag : string) (v : option string) : list string :=
  match v with Some s => [flag; s] | None => [] end.

(** [q] occurs in [s]. *)
Definition occurs_in (q s : string) : Prop :=
  exists before after, s = (before ++ q ++ after)%string.

(** [p] is the first of [paths] that exists. *)
Definition first_that_exists (exists_ : string -> bool) (paths : list string)
    (p : string) : Prop :=
  exists before after,
    paths = before ++ p :: after
    /\ exists_ p = true
    /\ forall q, In q before -> exists_ q = false.

(** *** The version comparison in the words of the specification

    Split both strings on [.]; a component is worth the number its digits
    denote, and zero when it does not parse; pad the shorter list with
    zeros; the first place where the two lists differ decides, and equal
    lists mean no update. *)
Definition component_value (s : string) : Z :=
  if VersionChecker.all_digits s then VersionChecker.digits_value 0 s
  else 0%Z.

Definition components (v : string) : list Z :=
  map component_value (split "." v).

Definition pad (n : nat) (l : list Z) : list Z :=
  l ++ repeat 0%Z (n - length l).

Fixpoint first_difference (current latest : list Z) : bool :=
  match current, latest with
  | c :: cs, l :: ls =>
      if (l >? c)%Z then true
      else if (l <? c)%Z then false
      else first_difference cs ls
  | _, _ => false
  end.

Definition update_available_spec (current latest : string) : bool :=
  let cs := components current in
  let ls := components latest in
  let n := Nat.max (length cs) (length ls) in
  first_difference (pad n cs) (pad n ls).

(** The elements the loop of [isUpdateAvailable] reads from index [i] on,
    [n] of them. *)
Definition read_from (a : list VersionChecker.JsNumber) (i n : nat)
  : list Z :=
  map (fun k => VersionChecker.or_zero (nth_error a k)) (seq i n).


(** *** The background check *)

(** The tag [fetchLatestVersion] makes of a settled fetch. *)
Definition parsed_tag (o : VersionChecker.FetchOutcome) : option string :=
  match o with
  | VersionChecker.Response true (VersionChecker.BodyJson (Some t)) =>
      if VersionChecker.strip_v t =? "" then None
      else Some (VersionChecker.strip_v t)
  | _ => None
  end.

(** A failed fetch: a network error, a response that is not 2xx, or a
    body that is not JSON or lacks the tag. *)
Definition fetch_failed (o : VersionChecker.FetchOutcome) : bool :=
  match o with
  | VersionChecker.NetworkError _ => true
  | VersionChecker.Response false _ => true
  | VersionChecker.Response true (VersionChecker.BodyGarbled _) => true
  | VersionChecker.Response true (VersionChecker.BodyJson None) => true
  | VersionChecker.Response true (VersionChecker.BodyJson (Some _)) => false
  end.

(** The variables once a background check has concluded. *)
Definition settled_vars (v : Vars) (latest : option string) : Vars :=
  {| cachedVersion := cachedVersion v;
     cachedLatestVersion := latest;
     versionCheckPromise := None |}.

(** The world once a background check has been started from it. *)
Definition started (currentVersion : string) (w : World) : World :=
  {| vars := {| cachedVersion := cachedVersion (vars w);
                cachedLatestVersion := cachedLatestVersion (vars w);
                versionCheckPromise := Some Pending |};
     disk := disk w;
     clock := clock w;
     pending := pending w ++ [currentVersion];
     trace := trace w ++ [Fetch VersionChecker.RELEASES_URL] |}.

(** The world once the cache file has been read and held record [c]. *)
Definition record_taken (c : VersionCache) (w : World) : World :=
  {| vars := {| cachedVersion := cachedVersion (vars w);
                cachedLatestVersion := latestVersion c;
                versionCheckPromise := versionCheckPromise (vars w) |};
     disk := disk w;
     clock := clock w;
     pending := pending w;
     trace := trace w ++ [ReadCacheFile] |}.

(** Checking with one fetch in flight, or idle with none. *)
Definition single_flight (w : World) : Prop :=
  (VersionChecker.checking w = true /\ VersionChecker.in_flight w = 1%nat)
  \/ (VersionChecker.checking w = false
      /\ VersionChecker.in_flight w = 0%nat).

(** The cache file holds a record checked less than [CHECK_INTERVAL]
    before [now]. *)
Definition fresh_record (w : World) (now : Z) : bool :=
  match cache_file (disk w) with
  | Readable (Json c) =>
      (now - lastCheck c <? VersionChecker.CHECK_INTERVAL)%Z
  | _ => false
  end.

(** The arguments of the version query and the rejection after an
    ['error'] event of its child. *)
Definition version_argv (jarPath : string) : list string :=
  ["-jar"; jarPath; "--version"].

Definition spawn_failed_error (error : JsError) : JsError :=
  Error ("Failed to get EPUBCheck version: " ++ Js.message error)%string.

(** *** Trimmed text, said without [trim]

    The blanks [String.prototype.trim] removes among the ASCII characters:
    tab, line feed, vertical tab, form feed, carriage return and space. On a
    text of ASCII characters only, a JavaScript string is its bytes and
    these are all the blanks there are. *)
Definition ascii_text (s : string) : bool :=
  forallb (fun c => (nat_of_ascii c <? 128)%nat) (list_ascii_of_string s).

Definition ascii_blank (c : ascii) : bool :=
  existsb (Nat.eqb (nat_of_ascii c)) [9; 10; 11; 12; 13; 32]%nat.

Definition all_blank (s : string) : bool :=
  forallb ascii_blank (list_ascii_of_string s).

Definition starts_blank (s : string) : bool :=
  match s with
  | String c _ => ascii_blank c
  | EmptyString => false
  end.

Fixpoint ends_blank (s : string) : bool :=
  match s with
  | EmptyString => false
  | String c EmptyString => ascii_blank c
  | String _ s' => ends_blank s'
  end.

(** [t] is [s] without the blanks at its two ends. *)
Definition trimmed_of (s t : string) : Prop :=
  exists pre post,
    s = (pre ++ t ++ post)%string
    /\ all_blank pre = true
    /\ all_blank post = true
    /\ starts_blank t = false
    /\ ends_blank t = false.

(** Events that only carry output of the child. *)
Definition is_data (e : Runner.ChildEvent) : bool :=
  match e with
  | Runner.StdoutData _ | Runner.StderrData _ => true
  | _ => false
  end.

Fixpoint collected_stderr (events : list Runner.ChildEvent) : string :=
  match events with
  | [] => ""
  | Runner.StderrData d :: rest => (d ++ collected_stderr rest)%string
  | _ :: rest => collected_stderr rest
  end.

Fixpoint collected_stdout (events : list Runner.ChildEvent) : string :=
  match events with
  | [] => ""
  | Runner.StdoutData d :: rest => (d ++ collected_stdout rest)%string
  | _ :: rest => collected_stdout rest
  end.

End Reading.


(* ===================================================================== *)
(** ** Concrete surroundings, for running the model                      *)
(* ===================================================================== *)

Module Scenario.
Import Js Sys Types Runner.

(** An installation under [/app]: the JAR sits in [/app/bin], the program
    runs from [/app/dist]. *)
Definition installed : Env :=
  {| EPUBCHECK_JAR_PATH := None;
     __dirname := "/app/dist";
     process_cwd := "/app";
     tmpdir := "/tmp";
     existsSync := fun p => p =? "/app/bin/epubcheck.jar" |}.

(** The same installation with the override pointing to a file that does
    not exist. *)
Definition stale_override : Env :=
  {| EPUBCHECK_JAR_PATH := Some "/opt/missing.jar";
     __dirname := "/app/dist";
     process_cwd := "/app";
     tmpdir := "/tmp";
     existsSync := fun p => p =? "/app/bin/epubcheck.jar" |}.

(** No JAR anywhere. *)
Definition no_jar : Env :=
  {| EPUBCHECK_JAR_PATH := None;
     __dirname := "/app/dist";
     process_cwd := "/srv";
     tmpdir := "/tmp";
     existsSync := fun _ => false |}.

Definition book : ValidateOptions :=
  {| path := "/books/moby.epub"; mode := None;
     profile := None; version := None |}.

Definition chapter : ValidateOptions :=
  {| path := "/books/ch1.xhtml"; mode := Some Mxhtml;
     profile := Some Pedupub; version := Some V3_0 |}.

Definition uuid : string := "123e4567-e89b-12d3-a456-426614174000".

Definition empty_disk : Disk :=
  {| cache_dir := false; cache_file := Missing;
     mkdir_ok := true; write_ok := true |}.

Definition read_only_disk : Disk :=
  {| cache_dir := false; cache_file := Missing;
     mkdir_ok := false; write_ok := false |}.

Definition day : Z := 86400000.

(** A record written half a day before [day]. *)
Definition recent_record : VersionCache :=
  {| lastCheck := 43200000; latestVersion := Some "5.3.0";
     currentVersion := "5.2.1" |}.

Definition disk_with (f : File VersionCache) : Disk :=
  {| cache_dir := true; cache_file := f;
     mkdir_ok := true; write_ok := true |}.

Definition truncated_json : JsError :=
  SyntaxError "Unexpected end of JSON input".

Definition a_report : EpubCheckResult :=
  {| checker :=
       {| checker_path := "/books/moby.epub"; filename := "moby.epub";
          checkerVersion := "5.3.0"; checkDate := "2025-01-01T00:00:00Z";
          elapsedTime := 1200; nFatal := 0; nError := 1; nWarning := 0;
          nUsage := 0 |};
     publication :=
       {| publisher := None; title := Some "Moby-Dick";
          creator := Some ["Herman Melville"]; date := None; subject := None;
          description := None; rights := None; identifier := None;
          language := Some "en"; nSpines := 3; checkSum := None;
          renditionLayout := None; renditionOrientation := None;
          renditionSpread := None; ePubVersion := Some "3.3";
          isBackwardCompatible := Some true; hasAudio := Some false;
          hasVideo := Some false; hasFixedFormat := Some false;
          hasScripts := Some false; hasEncryption := Some false;
          hasSignatures := Some false; isScripted := Some false;
          embeddedFonts := None; refFonts := None;
          hasRemoteResources := Some false; references := None |};
     items := [];
     messages :=
       [ {| ID := "RSC-005"; severity := ERROR;
            message := "Error while parsing file";
            additionalLocations := 0;
            locations := [ {| loc_path := "OEBPS/ch1.xhtml"; line := 12;
                              column := 7; context := None |} ];
            suggestion := None |} ] |}.

Definition release (tag : string) : VersionChecker.FetchOutcome :=
  VersionChecker.Response true (VersionChecker.BodyJson (Some tag)).

Definition offline : VersionChecker.FetchOutcome :=
  VersionChecker.NetworkError (SystemError "ENOTFOUND" "getaddrinfo ENOTFOUND api.github.com").

End Scenario.

(* ===================================================================== *)
(** ** index.ts: the tools of the server                                 *)
(* ===================================================================== *)

Module Server.
Import Js Sys Types Runner.
Local Open Scope eff_scope.

Definition nl : string := String "010"%char EmptyString.

Definition number_text (z : Z) : string := Z_to_string z.

Definition length_text {A : Type} (l : list A) : string :=
  Z_to_string (Z.of_nat (length l)).

(** *** Formatting helpers *)

Definition formatMessage (message : Message) : string :=
  let output :=
    ("- **" ++ ID message ++ "**: " ++ Types.message message ++ nl)%string in
  let output :=
    match locations message with
    | loc :: _ =>
        let output := (output ++ "  - Location: " ++ loc_path loc)%string in
        let output :=
          if (line loc >? 0)%Z then
            let output := (output ++ ":" ++ number_text (line loc))%string in
            if (column loc >? 0)%Z
            then (output ++ ":" ++ number_text (column loc))%string
            else output
          else output in
        let output := (output ++ nl)%string in
        if (additionalLocations message >? 0)%Z then
          (output ++ "  - (and " ++ number_text (additionalLocations message)
           ++ " more locations)" ++ nl)%string
        else output
    | [] => output
    end in
  match if_truthy (suggestion message) with
  | Some s => (output ++ "  - Suggestion: " ++ s ++ nl)%string
  | None => output
  end.

Definition severity_eqb (a b : Severity) : bool :=
  match a, b with
  | FATAL, FATAL | ERROR, ERROR | WARNING, WARNING
  | INFO, INFO | USAGE, USAGE => true
  | _, _ => false
  end.

(** [group.forEach((m) => (output += formatMessage(m)))]. *)
Definition append_messages (output : string) (group : list Message) : string :=
  fold_left (fun out m => (out ++ formatMessage m)%string) group output.

(** One [if (group.length > 0) { ... }] block of [formatMessages]. *)
Definition append_section (output heading : string) (group : list Message)
  : string :=
  match group with
  | [] => output
  | _ :: _ => (append_messages (output ++ heading ++ nl) group ++ nl)%string
  end.

Definition formatMessages (messages : list Message) : string :=
  let output := ("## Messages" ++ nl ++ nl)%string in
  (* Group by severity *)
  let fatal := filter (fun m => severity_eqb (severity m) FATAL) messages in
  let errors := filter (fun m => severity_eqb (severity m) ERROR) messages in
  let warnings :=
    filter (fun m => severity_eqb (severity m) WARNING) messages in
  let info := filter (fun m => severity_eqb (severity m) INFO) messages in
  let usage := filter (fun m => severity_eqb (severity m) USAGE) messages in
  let output := append_section output "### Fatal Errors" fatal in
  let output := append_section output "### Errors" errors in
  let output := append_section output "### Warnings" warnings in
  let output := append_section output "### Info" info in
  let output := append_section output "### Usage Suggestions" usage in
  output.

Definition formatValidationResult (result : EpubCheckResult) : string :=
  let checker := checker result in
  let messages := messages result in
  let output := ("# Validation Results" ++ nl ++ nl)%string in
  let output := (output ++ "**File:** " ++ filename checker ++ nl)%string in
  let output :=
    (output ++ "**EPUBCheck Version:** " ++ checkerVersion checker ++ nl)%string in
  let output :=
    (output ++ "**Check Date:** " ++ checkDate checker ++ nl)%string in
  let output :=
    (output ++ "**Elapsed Time:** " ++ number_text (elapsedTime checker)
     ++ "ms" ++ nl ++ nl)%string in
  let output := (output ++ "## Summary" ++ nl)%string in
  let output :=
    (output ++ "- Fatal Errors: " ++ number_text (nFatal checker) ++ nl)%string in
  let output :=
    (output ++ "- Errors: " ++ number_text (nError checker) ++ nl)%string in
  let output :=
    (output ++ "- Warnings: " ++ number_text (nWarning checker) ++ nl)%string in
  let output :=
    (output ++ "- Usage: " ++ number_text (nUsage checker) ++ nl ++ nl)%string in
  match messages with
  | [] => (output ++ "**Status: VALID** - No issues found." ++ nl)%string
  | _ :: _ => (output ++ formatMessages messages)%string
  end.

(** *** Tool calls *)

(** What a handler returns: [content] is always one text item. *)
Record ToolResult : Type := {
  text : string;
  isError : bool
}.

Definition text_result (t : string) : ToolResult :=
  {| text := t; isError := false |}.

(** The arguments of a call, read the way the handlers cast them. *)
Record ToolArgs : Type := {
  arg_path : string;
  arg_profile : option ValidateProfile;
  arg_version : option EpubVersion;
  arg_code : string;
  arg_category : option string
}.

(** How the surroundings answer one run of the engine. *)
Record Answer : Type := {
  uuid : string;
  artifact : File EpubCheckResult;
  events : list ChildEvent
}.

(** [const result = await p; return k(result)] in an [async] function. *)
Definition await_then {A B : Type} (p : Promise A) (k : A -> B) : Promise B :=
  match p with
  | Pending => Pending
  | Resolved a => Resolved (k a)
  | Rejected e => Rejected e
  end.

Definition run_and_format (env : Env) (a : Answer) (options : ValidateOptions)
    (format : EpubCheckResult -> string) : Eff (Promise ToolResult) :=
  p <- runEpubCheck env (uuid a) options (artifact a) (events a) ;;
  ret (await_then p (fun result => text_result (format result))).

(** [(args.version as "2.0" | "3.0") || "3.0"]. *)
Definition version_or_default (v : option EpubVersion) : EpubVersion :=
  match v with Some x => x | None => V3_0 end.

(** [(args.profile as ValidateProfile) || "default"]. *)
Definition profile_or_default (p : option ValidateProfile) : ValidateProfile :=
  match p with Some x => x | None => Pdefault end.

Definition validate_options (args : ToolArgs) : ValidateOptions :=
  {| path := arg_path args; mode := None;
     profile := Some (profile_or_default (arg_profile args));
     version := None |}.

Definition single_file_options (m : ValidateMode) (args : ToolArgs)
  : ValidateOptions :=
  {| path := arg_path args; mode := Some m; profile := None;
     version := Some (version_or_default (arg_version args)) |}.

Definition nav_options (args : ToolArgs) : ValidateOptions :=
  {| path := arg_path args; mode := Some Mnav; profile := None;
     version := Some V3_0 |}.

Definition path_only_options (args : ToolArgs) : ValidateOptions :=
  {| path := arg_path args; mode := None; profile := None; version := None |}.

Definition handleValidate (env : Env) (a : Answer) (args : ToolArgs) :=
  run_and_format env a (validate_options args) formatValidationResult.

Definition handleValidateOpf (env : Env) (a : Answer) (args : ToolArgs) :=
  run_and_format env a (single_file_options Mopf args) formatValidationResult.

Definition handleValidateXhtml (env : Env) (a : Answer) (args : ToolArgs) :=
  run_and_format env a (single_file_options Mxhtml args) formatValidationResult.

Definition handleValidateNav (env : Env) (a : Answer) (args : ToolArgs) :=
  run_and_format env a (nav_options args) formatValidationResult.

Definition handleValidateSvg (env : Env) (a : Answer) (args : ToolArgs) :=
  run_and_format env a (single_file_options Msvg args) formatValidationResult.

(** [m.ID.startsWith("ACC")]. *)
Definition is_accessibility (m : Message) : bool :=
  match strip_prefix "ACC" (ID m) with Some _ => true | None => false end.

Definition accessibility_report (result : EpubCheckResult) : string :=
  (* Filter only accessibility-related messages *)
  let accessibilityMessages := filter is_accessibility (messages result) in
  let output := ("# Accessibility Check Results" ++ nl ++ nl)%string in
  let output :=
    (output ++ "**File:** " ++ filename (checker result) ++ nl)%string in
  let output :=
    (output ++ "**Issues Found:** " ++ length_text accessibilityMessages
     ++ nl ++ nl)%string in
  match accessibilityMessages with
  | [] =>
      let output :=
        (output ++ "No accessibility issues detected." ++ nl)%string in
      let output :=
        (output ++ nl
         ++ "Note: This checks for technical accessibility issues. ")%string in
      (output ++ "Manual review is still recommended for complete accessibility compliance.")%string
  | _ :: _ => (output ++ formatMessages accessibilityMessages)%string
  end.

Definition handleCheckAccessibility (env : Env) (a : Answer) (args : ToolArgs) :=
  run_and_format env a (path_only_options args) accessibility_report.

(** [v || fallback] on an optional string. *)
Definition or_text (v : option string) (fallback : string) : string :=
  match if_truthy v with Some s => s | None => fallback end.

Definition yes_no (b : option bool) : string :=
  match b with Some true => "Yes" | _ => "No" end.

Definition nonempty_list (l : option (list string)) : list string :=
  match l with Some x => x | None => [] end.

Definition bullet_lines (output : string) (items : list string) : string :=
  fold_left (fun out i => (out ++ "- " ++ i ++ nl)%string) items output.

Definition metadata_report (result : EpubCheckResult) : string :=
  let pub := publication result in
  let output := ("# EPUB Metadata" ++ nl ++ nl)%string in
  let output := (output ++ "## Basic Information" ++ nl)%string in
  let output :=
    (output ++ "- **Title:** " ++ or_text (title pub) "Not specified" ++ nl)%string in
  let output :=
    (output ++ "- **Creator:** "
     ++ or_text (option_map (array_join ", ") (creator pub)) "Not specified"
     ++ nl)%string in
  let output :=
    (output ++ "- **Publisher:** " ++ or_text (publisher pub) "Not specified"
     ++ nl)%string in
  let output :=
    (output ++ "- **Language:** " ++ or_text (language pub) "Not specified"
     ++ nl)%string in
  let output :=
    (output ++ "- **Identifier:** " ++ or_text (identifier pub) "Not specified"
     ++ nl)%string in
  let output :=
    (output ++ "- **Date:** " ++ or_text (date pub) "Not specified" ++ nl)%string in
  let output :=
    match nonempty_list (subject pub) with
    | [] => output
    | subjects =>
        (output ++ "- **Subjects:** " ++ array_join ", " subjects ++ nl)%string
    end in
  let output :=
    match if_truthy (description pub) with
    | Some d => (output ++ "- **Description:** " ++ d ++ nl)%string
    | None => output
    end in
  let output :=
    match if_truthy (rights pub) with
    | Some r => (output ++ "- **Rights:** " ++ r ++ nl)%string
    | None => output
    end in
  let output := (output ++ nl ++ "## Technical Details" ++ nl)%string in
  let output :=
    (output ++ "- **EPUB Version:** " ++ or_text (ePubVersion pub) "Unknown"
     ++ nl)%string in
  let output :=
    (output ++ "- **Spine Items:** " ++ number_text (nSpines pub) ++ nl)%string in
  let output :=
    (output ++ "- **Rendition Layout:** "
     ++ or_text (renditionLayout pub) "reflowable" ++ nl)%string in
  let output :=
    match if_truthy (renditionOrientation pub) with
    | Some o => (output ++ "- **Orientation:** " ++ o ++ nl)%string
    | None => output
    end in
  let output :=
    match if_truthy (renditionSpread pub) with
    | Some s => (output ++ "- **Spread:** " ++ s ++ nl)%string
    | None => output
    end in
  let output := (output ++ nl ++ "## Content Features" ++ nl)%string in
  let output :=
    (output ++ "- **Has Audio:** " ++ yes_no (hasAudio pub) ++ nl)%string in
  let output :=
    (output ++ "- **Has Video:** " ++ yes_no (hasVideo pub) ++ nl)%string in
  let output :=
    (output ++ "- **Has Scripts:** " ++ yes_no (hasScripts pub) ++ nl)%string in
  let output :=
    (output ++ "- **Has Fixed Format:** " ++ yes_no (hasFixedFormat pub)
     ++ nl)%string in
  let output :=
    (output ++ "- **Has Encryption:** " ++ yes_no (hasEncryption pub)
     ++ nl)%string in
  let output :=
    (output ++ "- **Has Remote Resources:** "
     ++ yes_no (hasRemoteResources pub) ++ nl)%string in
  let output :=
    match nonempty_list (embeddedFonts pub) with
    | [] => output
    | fonts =>
        bullet_lines (output ++ nl ++ "## Embedded Fonts" ++ nl)%string fonts
    end in
  match nonempty_list (references pub) with
  | [] => output
  | refs =>
      bullet_lines (output ++ nl ++ "## External References" ++ nl)%string refs
  end.

Definition handleGetMetadata (env : Env) (a : Answer) (args : ToolArgs) :=
  run_and_format env a (path_only_options args) metadata_report.

Definition version_text (version : string) : string :=
  ("EPUBCheck version: " ++ version ++ nl ++ "MCP Server version: 0.1.0")%string.

Definition handleGetVersion (env : Env) (a : Answer)
  : Eff (Promise ToolResult) :=
  p <- getEpubCheckVersion env (events a) ;;
  ret (await_then p (fun version => text_result (version_text version))).

(** *** The error-code tools

    [explainErrorCode] and [getAllErrorCodes] come from a module of the
    repository that is not among the sources at hand; they are parameters
    here, with the fields index.ts reads from what they return. *)
Record ErrorCodeInfo : Type := {
  code : string;
  category : string;
  ec_severity : string;
  description : string;
  ec_suggestion : option string
}.

(** A [Map] from strings, in insertion order. *)
Definition JsMap (V : Type) : Type := list (string * V).

Fixpoint map_has {V : Type} (k : string) (m : JsMap V) : bool :=
  match m with
  | [] => false
  | (k', _) :: rest => (k' =? k) || map_has k rest
  end.

Definition map_set_new {V : Type} (k : string) (v : V) (m : JsMap V)
  : JsMap V := m ++ [(k, v)].

(** [m.get(k)!.push(x)]: the array stored under [k] grows in place. *)
Fixpoint map_push {V : Type} (k : string) (x : V) (m : JsMap (list V))
  : JsMap (list V) :=
  match m with
  | [] => []
  | (k', xs) :: rest =>
      if k' =? k then (k', xs ++ [x]) :: rest
      else (k', xs) :: map_push k x rest
  end.

(** The body of the grouping loop of [handleListChecks]. *)
Definition group_step (byCategory : JsMap (list ErrorCodeInfo))
    (c : ErrorCodeInfo) : JsMap (list ErrorCodeInfo) :=
  let cat := category c in
  let byCategory :=
    if negb (map_has cat byCategory) then map_set_new cat [] byCategory
    else byCategory in
  map_push cat c byCategory.

Definition group_by_category (codes : list ErrorCodeInfo)
  : JsMap (list ErrorCodeInfo) :=
  fold_left group_step codes [].

(** [toLowerCase] on the letters A to Z; other characters stay. *)
Definition lower_char (c : ascii) : ascii :=
  let n := nat_of_ascii c in
  if (65 <=? n)%nat && (n <=? 90)%nat then ascii_of_nat (n + 32) else c.

Fixpoint toLowerCase (s : string) : string :=
  match s with
  | EmptyString => EmptyString
  | String c s' => String (lower_char c) (toLowerCase s')
  end.

Definition code_line (c : ErrorCodeInfo) : string :=
  ("- **" ++ code c ++ "** [" ++ ec_severity c ++ "]: " ++ description c
   ++ nl)%string.

Definition category_block (output : string)
    (entry : string * list ErrorCodeInfo) : string :=
  let (cat, catCodes) := entry in
  let output :=
    (output ++ "## " ++ cat ++ " (" ++ length_text catCodes ++ ")"
     ++ nl ++ nl)%string in
  let output :=
    fold_left (fun out c => (out ++ code_line c)%string) catCodes output in
  (output ++ nl)%string.

Section ErrorCodes.
Variable explainErrorCode : string -> option ErrorCodeInfo.
Variable getAllErrorCodes : list ErrorCodeInfo.

Definition handleExplainError (args : ToolArgs) : ToolResult :=
  let code_ := arg_code args in
  match explainErrorCode code_ with
  | None =>
      text_result
        ("Unknown error code: " ++ code_ ++ nl ++ nl
         ++ "Use 'list_checks' to see all available error codes.")%string
  | Some explanation =>
      let output := ("# " ++ code explanation ++ nl ++ nl)%string in
      let output :=
        (output ++ "**Category:** " ++ category explanation ++ nl)%string in
      let output :=
        (output ++ "**Severity:** " ++ ec_severity explanation
         ++ nl ++ nl)%string in
      let output :=
        (output ++ "## Description" ++ nl ++ description explanation
         ++ nl ++ nl)%string in
      match if_truthy (ec_suggestion explanation) with
      | Some s => text_result (output ++ "## How to Fix" ++ nl ++ s ++ nl)%string
      | None => text_result output
      end
  end.

Definition handleListChecks (args : ToolArgs) : ToolResult :=
  let category_ := if_truthy (arg_category args) in
  let codes :=
    match category_ with
    | Some cat =>
        filter (fun c => toLowerCase (category c) =? toLowerCase cat)
               getAllErrorCodes
    | None => getAllErrorCodes
    end in
  match codes with
  | [] =>
      text_result
        match category_ with
        | Some cat => ("No error codes found for category: " ++ cat)%string
        | None => "No error codes available"
        end
  | _ :: _ =>
      (* Group by category *)
      let byCategory := group_by_category codes in
      let output := ("# EPUBCheck Error Codes" ++ nl ++ nl)%string in
      let output :=
        (output ++ "Total: " ++ length_text codes ++ " codes"
         ++ nl ++ nl)%string in
      text_result (fold_left category_block byCategory output)
  end.

(** *** The handler of [CallToolRequestSchema] *)

Inductive ErrorCode : Type := MethodNotFound.

(** How a call ends: still waiting for the engine, a result returned, or an
    [McpError] thrown to the protocol layer. *)
Inductive CallOutcome : Type :=
| CallPending
| CallReturned (r : ToolResult)
| CallThrown (code : ErrorCode) (message : string).

(** The [catch] of the handler for an error that is not an [McpError]. *)
Definition error_result (error : JsError) : ToolResult :=
  {| text := ("Error: " ++ Js.message error)%string; isError := true |}.

(** [try { return await handler(args) } catch (error) { ... }] for a
    handler whose failures are plain errors. *)
Definition guarded (c : Eff (Promise ToolResult)) : Eff CallOutcome :=
  fun w =>
    match c w with
    | (Ok Pending, w') => (Ok CallPending, w')
    | (Ok (Resolved r), w') => (Ok (CallReturned r), w')
    | (Ok (Rejected e), w') => (Ok (CallReturned (error_result e)), w')
    | (Throw e, w') => (Ok (CallReturned (error_result e)), w')
    end.

Definition call_tool (env : Env) (a : Answer) (name : string)
    (args : ToolArgs) : Eff CallOutcome :=
  if name =? "validate" then guarded (handleValidate env a args)
  else if name =? "validate_opf" then guarded (handleValidateOpf env a args)
  else if name =? "validate_xhtml" then guarded (handleValidateXhtml env a args)
  else if name =? "validate_nav" then guarded (handleValidateNav env a args)
  else if name =? "validate_svg" then guarded (handleValidateSvg env a args)
  else if name =? "check_accessibility"
  then guarded (handleCheckAccessibility env a args)
  else if name =? "get_metadata" then guarded (handleGetMetadata env a args)
  else if name =? "explain_error"
  then guarded (ret (Resolved (handleExplainError args)))
  else if name =? "list_checks"
  then guarded (ret (Resolved (handleListChecks args)))
  else if name =? "get_version" then guarded (handleGetVersion env a)
  else ret (CallThrown MethodNotFound ("Unknown tool: " ++ name)%string).

End ErrorCodes.

Definition tool_names : list string :=
  ["validate"; "validate_opf"; "validate_xhtml"; "validate_nav";
   "validate_svg"; "check_accessibility"; "get_metadata"; "explain_error";
   "list_checks"; "get_version"].

End Server.

(* ===================================================================== *)
(** ** Further notions used to state properties                          *)
(* ===================================================================== *)

Module Observing.
Import Js Sys Types.

(** The disk lets [saveCache] through: the file can be written, and the
    directory is there or can be made. *)
Definition cache_writable (d : Disk) : bool :=
  write_ok d && (cache_dir d || mkdir_ok d).

(** The record a background check writes when it concludes at [now]. *)
Definition record_of (now : Z) (latest currentVersion : string)
  : VersionCache :=
  {| lastCheck := now; latestVersion := Some latest;
     currentVersion := currentVersion |}.

(** Every record the program wrote names a latest version. *)
Definition writes_name_a_version (t : list Effect) : Prop :=
  forall c, In (WriteCacheFile c) t -> truthy (latestVersion c) = true.

(** Ledger of the background check: every record written and every fetch
    still in flight is paid for by a fetch that was started. *)
Definition ledger_balanced (w : World) : Prop :=
  (VersionChecker.cache_writes w + VersionChecker.in_flight w
   <= VersionChecker.fetches w)%nat.

Definition accounted (w : World) : Prop :=
  ledger_balanced w /\ writes_name_a_version (trace w).

(** The path [runEpubCheck] hands to the engine for its output. *)
Definition artifact_path (env : Runner.Env) (uuid : string) : string :=
  Path.join [Runner.tmpdir env; ("epubcheck-" ++ uuid ++ ".json")%string].

Definition readable {A : Type} (f : File A) : bool :=
  match f with Readable _ => true | _ => false end.

Definition run_failed_error (error : JsError) : JsError :=
  Error ("Failed to run EPUBCheck: " ++ Js.message error)%string.

(** The pattern of the version banner tried at the start of [s]. *)
Definition match_here (s : string) : option string :=
  match strip_prefix "EPUBCheck v" s with
  | Some rest =>
      let group := take_while Runner.is_digit_or_dot rest in
      if group =? "" then None else Some group
  | None => None
  end.

Definition digits_and_dots (g : string) : bool :=
  forallb Runner.is_digit_or_dot (list_ascii_of_string g).

(** [post] does not go on with a digit or a dot. *)
Definition group_ends (post : string) : Prop :=
  match post with
  | EmptyString => True
  | String c _ => Runner.is_digit_or_dot c = false
  end.

(** The world in which the ['close'] listener of the version query runs
    the background trigger: the spawn is on the trace and [version] is
    memoized. *)
Definition version_known (jar version : string) (w : World) : World :=
  {| vars := {| cachedVersion := Some version;
                cachedLatestVersion := cachedLatestVersion (vars w);
                versionCheckPromise := versionCheckPromise (vars w) |};
     disk := disk w;
     clock := clock w;
     pending := pending w;
     trace := trace w ++ [Spawn "java" ["-jar"; jar; "--version"] None] |}.

(** No [/] in [s], as in what [randomUUID] returns. *)
Definition no_slash (s : string) : bool :=
  forallb (fun c => negb (Ascii.eqb c "/"%char)) (list_ascii_of_string s).

Definition artifact_name (uuid : string) : string :=
  ("epubcheck-" ++ uuid ++ ".json")%string.

(** *** Reading the server's output *)

(** The strings of [l] one after the other. *)
Fixpoint flatten (l : list string) : string :=
  match l with
  | [] => EmptyString
  | s :: rest => (s ++ flatten rest)%string
  end.

(** The request a tool passes to the engine and the way it renders the
    document, for the seven tools that run the engine. *)
Definition engine_request (name : string) (args : Server.ToolArgs)
  : option (ValidateOptions * (EpubCheckResult -> string)) :=
  if name =? "validate"
  then Some (Server.validate_options args, Server.formatValidationResult)
  else if name =? "validate_opf"
  then Some (Server.single_file_options Mopf args,
             Server.formatValidationResult)
  else if name =? "validate_xhtml"
  then Some (Server.single_file_options Mxhtml args,
             Server.formatValidationResult)
  else if name =? "validate_nav"
  then Some (Server.nav_options args, Server.formatValidationResult)
  else if name =? "validate_svg"
  then Some (Server.single_file_options Msvg args,
             Server.formatValidationResult)
  else if name =? "check_accessibility"
  then Some (Server.path_only_options args, Server.accessibility_report)
  else if name =? "get_metadata"
  then Some (Server.path_only_options args, Server.metadata_report)
  else None.

(** The outcome of a call whose engine run ended in promise [p]. *)
Definition outcome_of (format : EpubCheckResult -> string)
    (p : Promise EpubCheckResult) : Server.CallOutcome :=
  match p with
  | Pending => Server.CallPending
  | Resolved document =>
      Server.CallReturned (Server.text_result (format document))
  | Rejected e => Server.CallReturned (Server.error_result e)
  end.

(** Changing one field of a message or of a location. *)
Definition with_locations (ls : list Location) (m : Message) : Message :=
  {| ID := ID m; severity := severity m; message := Types.message m;
     additionalLocations := additionalLocations m; locations := ls;
     suggestion := suggestion m |}.

Definition with_additional (n : Z) (m : Message) : Message :=
  {| ID := ID m; severity := severity m; message := Types.message m;
     additionalLocations := n; locations := locations m;
     suggestion := suggestion m |}.

Definition with_column (c : Z) (l : Location) : Location :=
  {| loc_path := loc_path l; line := line l; column := c;
     context := context l |}.


(** The codes of category [k], in the order of [codes]. *)
Definition of_category (k : string) (codes : list Server.ErrorCodeInfo)
  : list Server.ErrorCodeInfo :=
  filter (fun c => Server.category c =? k) codes.

(** What the grouping loop keeps true of the map and the codes seen so
    far. *)
Definition grouped (seen : list Server.ErrorCodeInfo)
    (m : Server.JsMap (list Server.ErrorCodeInfo)) : Prop :=
  NoDup (map fst m)
  /\ (forall k cs, In (k, cs) m -> cs = of_category k seen)
  /\ (forall c, In c seen -> In (Server.category c) (map fst m)).

(** The promise of a run whose child closed with [code] after writing
    [stderr], by the file at the artifact path. *)
Definition settled (artifact : File EpubCheckResult) (stderr : string)
    (code : option Z) : Promise EpubCheckResult :=
  match artifact with
  | Readable (Json document) => Resolved document
  | Readable (Garbled parse_error) => Rejected parse_error
  | Unreadable read_error => Rejected read_error
  | Missing => Rejected (Error (Runner.no_output_message stderr code))
  end.


Definition no_tools_table : string -> option Server.ErrorCodeInfo :=
  fun _ => None.



(** Concrete calls. *)
Definition validate_moby : Server.ToolArgs :=
  {| Server.arg_path := "/books/moby.epub"; Server.arg_profile := None;
     Server.arg_version := None; Server.arg_code := ""; Server.arg_category := None |}.

Definition closed_with_report : Server.Answer :=
  {| Server.uuid := Scenario.uuid;
     Server.artifact := Readable (Json Scenario.a_report);
     Server.events := [Runner.StderrData "ERROR(RSC-005)"] ++ [Runner.Close (Some 1%Z)] |}.

End Observing.

(* ===================================================================== *)
(** ** The model at work                                                 *)
(* ===================================================================== *)

Section Runs.
Import Js Sys Types Runner VersionChecker.
Local Open Scope Z_scope.

Example join_from_dist :
  Path.join ["/app/dist"; ".."; "bin"; "epubcheck.jar"]
  = "/app/bin/epubcheck.jar"%string.
Proof. reflexivity. Qed.

Example dirname_of_jar : Path.dirname "/app/bin/epubcheck.jar" = "/app/bin"%string.
Proof. reflexivity. Qed.

Example buildArgs_book :
  buildArgs Scenario.book "/tmp/epubcheck-1.json"
  = ["--json"; "/tmp/epubcheck-1.json"; "/books/moby.epub"]%string.
Proof. reflexivity. Qed.

Example buildArgs_chapter :
  buildArgs Scenario.chapter "/tmp/epubcheck-2.json"
  = ["--json"; "/tmp/epubcheck-2.json"; "--mode"; "xhtml";
     "--profile"; "edupub"; "-v"; "3.0"; "/books/ch1.xhtml"]%string.
Proof. reflexivity. Qed.

(** A version on a package is dropped. *)
Example buildArgs_version_needs_mode :
  buildArgs {| path := "/books/moby.epub"; mode := Some Mepub;
               profile := Some Pdefault; version := Some V2_0 |}
            "/tmp/epubcheck-3.json"
  = ["--json"; "/tmp/epubcheck-3.json"; "/books/moby.epub"]%string.
Proof. reflexivity. Qed.

Example match_version_banner :
  match_version ("EPUBCheck v5.3.0" ++ String "010"%char "")
  = Some "5.3.0"%string.
Proof. reflexivity. Qed.

Example match_version_miss : match_version "java: command not found" = None.
Proof. reflexivity. Qed.

(** A run that reports an error exits with 1 and still succeeds. *)
Example runEpubCheck_report :
  runEpubCheck Scenario.installed Scenario.uuid Scenario.book
    (Readable (Json Scenario.a_report)) [Close (Some 1)]
    (fresh_world Scenario.empty_disk 0)
  = (Ok (Resolved Scenario.a_report),
     with_trace
       [Spawn "java"
          ["-jar"; "/app/bin/epubcheck.jar"; "--json";
           "/tmp/epubcheck-123e4567-e89b-12d3-a456-426614174000.json";
           "/books/moby.epub"]
          (Some "/app/bin");
        Unlink "/tmp/epubcheck-123e4567-e89b-12d3-a456-426614174000.json"]%string
       (fresh_world Scenario.empty_disk 0)).
Proof. reflexivity. Qed.

(** No Java on the machine: ['error'], then ['close']. *)
Example runEpubCheck_no_java :
  result (runEpubCheck Scenario.installed Scenario.uuid Scenario.book Missing
            [ChildError (SystemError "ENOENT" "spawn java ENOENT");
             Close (Some (-2))])
         (fresh_world Scenario.empty_disk 0)
  = Ok (Rejected (Error "Failed to run EPUBCheck: spawn java ENOENT")).
Proof. reflexivity. Qed.

(** The first version query memoizes and starts the background check; the
    release found is memoized and written to the cache. *)
Example first_version_query :
  let w1 := exec (getEpubCheckVersion Scenario.installed
                    [StdoutData "EPUBCheck v5.2.1"; Close (Some 0)])
                 (fresh_world Scenario.empty_disk 10) in
  let w2 := step w1 (FetchSettled 20 (Scenario.release "v5.3.0")) in
  cachedVersion (vars w1) = Some "5.2.1"%string
  /\ checking w1 = true
  /\ cachedLatestVersion (vars w2) = Some "5.3.0"%string
  /\ cache_file (disk w2)
     = Readable (Json {| lastCheck := 20; latestVersion := Some "5.3.0"%string;
                         currentVersion := "5.2.1" |})
  /\ result (getUpdateNotification "5.2.1") w2
     = Ok (Some (String "010"%char "---" ++ String "010"%char
                   "Note: EPUBCheck 5.3.0 is available (current: 5.2.1). Visit https://github.com/w3c/epubcheck/releases for details.")%string).
Proof. repeat split. Qed.

(** A disk that cannot be written: the release is memoized all the same. *)
Example release_on_read_only_disk :
  let w := run (fresh_world Scenario.read_only_disk 0)
             [Trigger 1 "5.2.1"; FetchSettled 2 (Scenario.release "5.3.0")] in
  cachedLatestVersion (vars w) = Some "5.3.0"%string
  /\ cache_file (disk w) = Missing
  /\ checking w = false.
Proof. repeat split. Qed.

End Runs.
(* ===================================================================== *)
(** ** Properties of [buildArgs]                                         *)
(* ===================================================================== *)

Section BuildArgs.
Import Js Types Runner Reading.

Lemma buildArgs_shape (options : ValidateOptions) (out : string) :
  buildArgs options out =
    "--json" :: out
    :: flag_with "--mode" (option_map mode_string (non_default_mode options))
    ++ flag_with "--profile"
         (option_map profile_string (non_default_profile options))
    ++ flag_with "-v"
         (match non_default_mode options with
          | Some _ => option_map version_string (version options)
          | None => None
          end)
    ++ [path options].
Proof.
  destruct options as [p m pr v].
  destruct m as [[]|], pr as [[]|], v as [[]|]; reflexivity.
Qed.

Lemma framed_first_last (a b c : list string) (out target : string) :
  let args := "--json" :: out :: a ++ b ++ c ++ [target] in
  firstn 2 args = ["--json"; out]
  /\ (forall d, last args d = target)
  /\ (2 < length args)%nat.
Proof.
  cbn zeta. split; [reflexivity|]. split.
  - intro d.
    change ("--json" :: out :: a ++ b ++ c ++ [target])
      with (["--json"; out] ++ a ++ b ++ c ++ [target]).
    rewrite !app_assoc. apply last_last.
  - cbn [length]. rewrite !length_app. cbn [length]. lia.
Qed.

(** C2. For every request and every output-artifact path, the argument
    vector starts with the flag [--json] followed at once by the
    output-artifact path, and its last element is the request's target
    path. [buildArgs] is a function of its two arguments only. *)
Theorem buildArgs_json_first_path_last :
  forall (options : ValidateOptions) (jsonOutputPath : string),
    firstn 2 (buildArgs options jsonOutputPath) = ["--json"; jsonOutputPath]
    /\ (forall d, last (buildArgs options jsonOutputPath) d = path options)
    /\ (2 < length (buildArgs options jsonOutputPath))%nat.
Proof.
  intros options out. rewrite buildArgs_shape.
  apply framed_first_last.
Qed.

Lemma values_of_buildArgs (o : ValidateOptions) (out : string) :
  values_of "--mode" (buildArgs o out)
    = match non_default_mode o with Some m => [mode_string m] | None => [] end
  /\ values_of "--profile" (buildArgs o out)
    = match non_default_profile o with
      | Some p => [profile_string p]
      | None => []
      end
  /\ values_of "-v" (buildArgs o out)
    = match version o, non_default_mode o with
      | Some v, Some _ => [version_string v]
      | _, _ => []
      end.
Proof.
  destruct o as [p m pr v].
  destruct m as [[]|], pr as [[]|], v as [[]|]; repeat split; reflexivity.
Qed.

(** C3. The mode flag is read from the argument vector, once and with the
    mode as its value, if and only if the request has a mode other than
    ["epub"]; the profile flag, once and with the profile as its value, if
    and only if the request has a profile other than ["default"]; the flag
    [-v], once and with the version as its value, if and only if the
    request has a version and a mode other than ["epub"]. A request without
    a mode is in the default mode. *)
Theorem buildArgs_conditional_flags :
  forall (options : ValidateOptions) (jsonOutputPath : string),
    let args := buildArgs options jsonOutputPath in
    ((exists m, mode options = Some m /\ m <> Mepub
                /\ values_of "--mode" args = [mode_string m])
     \/ ((mode options = None \/ mode options = Some Mepub)
         /\ values_of "--mode" args = []))
    /\ ((exists p, profile options = Some p /\ p <> Pdefault
                   /\ values_of "--profile" args = [profile_string p])
        \/ ((profile options = None \/ profile options = Some Pdefault)
            /\ values_of "--profile" args = []))
    /\ ((exists v m, version options = Some v
                     /\ mode options = Some m /\ m <> Mepub
                     /\ values_of "-v" args = [version_string v])
        \/ ((version options = None \/ mode options = None
             \/ mode options = Some Mepub)
            /\ values_of "-v" args = [])).
Proof.
  intros o out args. subst args.
  destruct (values_of_buildArgs o out) as (Hm & Hp & Hv).
  rewrite Hm, Hp, Hv. clear Hm Hp Hv.
  unfold non_default_mode, non_default_profile.
  destruct o as [p m pr v]; cbn [mode profile version].
  repeat split.
  - destruct m as [[]|];
      solve [ right; split; [auto | reflexivity]
            | left; eexists; repeat split; discriminate ].
  - destruct pr as [[]|];
      solve [ right; split; [auto | reflexivity]
            | left; eexists; repeat split; discriminate ].
  - destruct v as [v|]; [| right; split; [auto | reflexivity]].
    destruct m as [[]|];
      solve [ right; split; [auto | reflexivity]
            | left; do 2 eexists; repeat split; discriminate ].
Qed.

End BuildArgs.

(* ===================================================================== *)
(** ** Properties of [getJarPath]                                        *)
(* ===================================================================== *)

Section JarPath.
Import Js Runner Reading.

Lemma string_app_assoc (a b c : string) :
  ((a ++ b) ++ c = a ++ (b ++ c))%string.
Proof. induction a as [|x a IH]; cbn; [reflexivity | now rewrite IH]. Qed.

Lemma occurs_in_refl (q : string) : occurs_in q q.
Proof.
  exists "", "". cbn. induction q as [|c q IH]; cbn; [reflexivity|].
  now rewrite <- IH.
Qed.

Lemma occurs_in_frame (q s pre post : string) :
  occurs_in q s -> occurs_in q (pre ++ s ++ post)%string.
Proof.
  intros (b & a & ->). exists (pre ++ b)%string, (a ++ post)%string.
  now rewrite !string_app_assoc.
Qed.

Lemma join_cons (sep x y : string) (l : list string) :
  array_join sep (x :: y :: l)
  = (x ++ sep ++ array_join sep (y :: l))%string.
Proof. reflexivity. Qed.

Lemma occurs_in_join (sep q : string) (l : list string) :
  In q l -> occurs_in q (array_join sep l).
Proof.
  induction l as [|x l IH]; [intros []|].
  intros [-> | Hin].
  - destruct l as [|y l]; [apply occurs_in_refl|].
    rewrite join_cons. exists "", (sep ++ array_join sep (y :: l))%string.
    reflexivity.
  - specialize (IH Hin). destruct l as [|y l]; [destruct Hin|].
    rewrite join_cons. destruct IH as (b & a & E). rewrite E.
    exists (x ++ sep ++ b)%string, a. now rewrite !string_app_assoc.
Qed.

Lemma first_existing_Some (ex : string -> bool) (l : list string) (p : string) :
  first_existing ex l = Some p <-> first_that_exists ex l p.
Proof.
  unfold first_that_exists. induction l as [|x l IH]; cbn [first_existing].
  - split; [discriminate|]. intros ([|? ?] & ? & E & _); discriminate.
  - destruct (ex x) eqn:Ex.
    + split.
      * intros [= <-]. exists [], l. repeat split; [assumption | intros q []].
      * intros ([|y before] & after & E & Hp & Hb).
        -- now injection E as -> _.
        -- injection E as <- _. rewrite (Hb x (or_introl eq_refl)) in Ex.
           discriminate.
    + rewrite IH. split.
      * intros (before & after & -> & Hp & Hb).
        exists (x :: before), after. repeat split; [assumption|].
        intros q [<- | Hq]; auto.
      * intros ([|y before] & after & E & Hp & Hb).
        -- injection E as -> _. rewrite Hp in Ex. discriminate.
        -- injection E as _ ->. exists before, after.
           repeat split; [assumption|]. intros q Hq. apply Hb. now right.
Qed.

Lemma first_existing_None (ex : string -> bool) (l : list string) :
  first_existing ex l = None <-> forall q, In q l -> ex q = false.
Proof.
  induction l as [|x l IH]; cbn [first_existing].
  - split; [intros _ q [] | reflexivity].
  - destruct (ex x) eqn:Ex.
    + split; [discriminate|]. intro H.
      rewrite (H x (or_introl eq_refl)) in Ex. discriminate.
    + rewrite IH. split.
      * intros H q [<- | Hq]; auto.
      * intros H q Hq. apply H. now right.
Qed.

(** C4, as the code has it. When [EPUBCHECK_JAR_PATH] is set to a
    non-empty string, [getJarPath] returns it as it is, existing or not,
    and looks nowhere else. Otherwise it returns the first of the three
    fixed locations that exists, and it returns a location only so; when
    none of the three exists it throws an [Error] whose message contains
    each of the three locations. *)
Theorem getJarPath_resolution :
  forall env : Env,
    (forall override,
        if_truthy (EPUBCHECK_JAR_PATH env) = Some override ->
        getJarPath env = inr override)
    /\ (if_truthy (EPUBCHECK_JAR_PATH env) = None ->
        forall p,
          getJarPath env = inr p
          <-> first_that_exists (existsSync env) (possiblePaths env) p)
    /\ (if_truthy (EPUBCHECK_JAR_PATH env) = None ->
        (forall q, In q (possiblePaths env) -> existsSync env q = false) ->
        getJarPath env
          = inl (Error (jar_not_found_message (possiblePaths env)))
        /\ forall q, In q (possiblePaths env) ->
                     occurs_in q (jar_not_found_message (possiblePaths env))).
Proof.
  intro env. unfold getJarPath. split; [|split].
  - intros o ->. reflexivity.
  - intros Hnone p. rewrite Hnone. rewrite <- first_existing_Some.
    destruct (first_existing _ _) as [q|]; split; congruence.
  - intros Hnone Hmissing. rewrite Hnone.
    apply first_existing_None in Hmissing. rewrite Hmissing.
    split; [reflexivity|]. intros q Hq. unfold jar_not_found_message.
    apply (occurs_in_frame q _ "EPUBCheck JAR not found. Searched in: ").
    now apply occurs_in_join.
Qed.

Lemma getJarPath_resolution_witness :
  getJarPath Scenario.installed = inr "/app/bin/epubcheck.jar"
  /\ getJarPath Scenario.stale_override = inr "/opt/missing.jar"
  /\ occurs_in "/srv/bin/epubcheck.jar"
       (jar_not_found_message (possiblePaths Scenario.no_jar)).
Proof.
  split; [|split].
  - apply (proj1 (proj2 (getJarPath_resolution Scenario.installed))
                 eq_refl "/app/bin/epubcheck.jar").
    exists [], ["/app/dist/bin/epubcheck.jar"; "/app/bin/epubcheck.jar"].
    repeat split. intros q [].
  - apply (proj1 (getJarPath_resolution Scenario.stale_override)).
    reflexivity.
  - apply (proj2 (proj2 (getJarPath_resolution Scenario.no_jar)) eq_refl).
    + intros q _. reflexivity.
    + cbn. tauto.
Defined.

(** C4 as stated fails: with the override set to a file that does not
    exist, the location returned is that file, although it does not exist
    and the first candidate of the ordered list that exists is the
    installed JAR. *)
Lemma getJarPath_returns_missing_override :
  getJarPath Scenario.stale_override = inr "/opt/missing.jar"
  /\ existsSync Scenario.stale_override "/opt/missing.jar" = false
  /\ first_existing (existsSync Scenario.stale_override)
       ("/opt/missing.jar" :: possiblePaths Scenario.stale_override)
     = Some "/app/bin/epubcheck.jar".
Proof. repeat split. Qed.

End JarPath.

(* ===================================================================== *)
(** ** Properties of [runEpubCheck]                                      *)
(* ===================================================================== *)

Section RunEpubCheck.
Import Js Sys Types Runner Reading.

Lemma string_app_empty (s : string) : (s ++ "")%string = s.
Proof. induction s as [|c s IH]; cbn; [reflexivity | now rewrite IH]. Qed.

Lemma deliver_app {S : Type} (h : ChildEvent -> S -> Eff S)
    (a b : list ChildEvent) (st : S) (w : World) :
  deliver h (a ++ b) st w = bind (deliver h a st) (deliver h b) w.
Proof.
  revert st w. induction a as [|e a IH]; intros st w; cbn [app deliver].
  - reflexivity.
  - unfold bind. destruct (h e st w) as [[st'|err] w']; [|reflexivity].
    rewrite IH. reflexivity.
Qed.

(** Output of the child only grows [stderr]; the promise and the world
    stay as they are. *)
Lemma run_deliver_data (out : string) (artifact : File EpubCheckResult)
    (pre : list ChildEvent) (st : RunState) (w : World) :
  forallb is_data pre = true ->
  deliver (run_handler out artifact) pre st w
  = (Ok {| stderr := (stderr st ++ collected_stderr pre)%string;
           run_promise := run_promise st |}, w).
Proof.
  revert st. induction pre as [|e pre IH]; intros st Hd.
  - cbn. rewrite string_app_empty. now destruct st.
  - cbn [forallb] in Hd. apply andb_prop in Hd as [He Hd].
    destruct e as [d|d|c|err]; try discriminate;
      cbn [deliver run_handler collected_stderr]; unfold bind, ret;
      rewrite (IH _ Hd); cbn [stderr run_promise].
    + reflexivity.
    + now rewrite string_app_assoc.
Qed.

(** C1, as the code has it. Let the JAR be found and let the child emit
    output and then ['close'] with any exit code, also [null]. The promise
    then settles by the artifact and not by the exit code: an artifact that
    is read and parsed resolves it with the parsed document; an artifact
    that exists but cannot be read or parsed rejects it with the error of
    the read or of the parse; without an artifact it is rejected with the
    message ["EPUBCheck failed to produce output: "] followed by the
    collected stderr or, when that is empty, by ["exit code N"]. *)
Theorem runEpubCheck_settles_by_artifact :
  forall (env : Env) (uuid : string) (options : ValidateOptions)
         (artifact : File EpubCheckResult) (output : list ChildEvent)
         (code : option Z) (w : World) (jarPath : string),
    getJarPath env = inr jarPath ->
    forallb is_data output = true ->
    result (runEpubCheck env uuid options artifact (output ++ [Close code])) w
    = Ok match artifact with
         | Readable (Json document) => Resolved document
         | Readable (Garbled parse_error) => Rejected parse_error
         | Unreadable read_error => Rejected read_error
         | Missing =>
             Rejected
               (Error ("EPUBCheck failed to produce output: "
                       ++ (if collected_stderr output =? ""
                           then "exit code "
                                ++ match code with
                                   | Some n => Z_to_string n
                                   | None => "null"
                                   end
                           else collected_stderr output))%string)
         end.
Proof.
  intros env uuid options artifact output code w jar Hjar Hdata.
  unfold result, runEpubCheck. rewrite Hjar.
  unfold bind at 1. unfold emit, modify.
  unfold bind at 1. rewrite deliver_app. unfold bind at 1.
  rewrite (run_deliver_data _ _ _ _ _ Hdata).
  cbn [deliver stderr run_promise append].
  unfold bind at 1. cbn [run_handler].
  destruct artifact as [|e|[e|doc]]; reflexivity.
Qed.

Lemma runEpubCheck_settles_by_artifact_witness :
  result (runEpubCheck Scenario.installed Scenario.uuid Scenario.book
            (Readable (Json Scenario.a_report))
            ([StderrData "ERROR(RSC-005)"] ++ [Close (Some 1%Z)]))
         (VersionChecker.fresh_world Scenario.empty_disk 0%Z)
  = Ok (Resolved Scenario.a_report).
Proof.
  apply (runEpubCheck_settles_by_artifact Scenario.installed Scenario.uuid
           Scenario.book (Readable (Json Scenario.a_report))
           [StderrData "ERROR(RSC-005)"] (Some 1%Z)
           (VersionChecker.fresh_world Scenario.empty_disk 0%Z)
           "/app/bin/epubcheck.jar"); reflexivity.
Defined.

(** C1 as stated fails: the artifact exists after the child has closed,
    yet the promise is not resolved with a document; it is rejected, with
    the error [JSON.parse] throws on the truncated text. *)
Lemma runEpubCheck_rejects_unparsable_artifact :
  file_exists (Readable (@Garbled EpubCheckResult Scenario.truncated_json))
    = true
  /\ result (runEpubCheck Scenario.installed Scenario.uuid Scenario.book
               (Readable (Garbled Scenario.truncated_json))
               [Close (Some 0%Z)])
            (VersionChecker.fresh_world Scenario.empty_disk 0%Z)
     = Ok (Rejected Scenario.truncated_json).
Proof. split; reflexivity. Qed.

End RunEpubCheck.

(* ===================================================================== *)
(** ** Properties of [isUpdateAvailable]                                 *)
(* ===================================================================== *)

Section UpdateAvailable.
Import Js VersionChecker Reading.
Local Open Scope Z_scope.

Lemma compare_loop_first_difference (current latest : list JsNumber) :
  forall n i,
    compare_loop current latest i n
    = first_difference (read_from current i n) (read_from latest i n).
Proof.
  induction n as [|n IH]; intro i; [reflexivity|].
  cbn [compare_loop]. unfold read_from. cbn [seq map first_difference].
  destruct (_ >? _); [reflexivity|]. destruct (_ <? _); [reflexivity|].
  apply IH.
Qed.

Lemma or_zero_Number (s : string) :
  or_zero (Some (Number s)) = component_value s.
Proof.
  unfold Number, component_value. now destruct (all_digits s).
Qed.

Lemma read_from_pad (l : list string) :
  forall n, (length l <= n)%nat ->
    read_from (map Number l) 0 n = pad n (map component_value l).
Proof.
  unfold read_from, pad. induction l as [|s l IH]; intros n Hn.
  - cbn [map length app]. rewrite Nat.sub_0_r. clear Hn.
    rewrite <- (map_id (repeat 0 n)) at 1.
    replace (repeat 0 n) with (map (fun _ : nat => 0) (seq 0 n)).
    + rewrite map_id. apply map_ext. intro k. now destruct k.
    + generalize 0%nat. induction n as [|n IHn]; intro k; cbn;
        [reflexivity | now rewrite IHn].
  - destruct n as [|n]; [cbn in Hn; lia|].
    cbn [seq map length app Nat.sub nth_error]. rewrite or_zero_Number.
    f_equal. rewrite <- seq_shift, map_map. cbn [nth_error].
    apply IH. cbn in Hn. lia.
Qed.

Lemma isUpdateAvailable_nonempty (current latest : string) :
  latest <> ""%string ->
  isUpdateAvailable current (Some latest)
  = update_available_spec current latest.
Proof.
  intro Hne. unfold isUpdateAvailable, update_available_spec, components.
  cbn [truthy]. apply String.eqb_neq in Hne. rewrite Hne. cbn [negb].
  rewrite compare_loop_first_difference.
  rewrite !read_from_pad; rewrite ?length_map; try lia.
  reflexivity.
Qed.

Lemma digits_value_nonneg (s : string) :
  forall acc, 0 <= acc -> all_digits s = true -> 0 <= digits_value acc s.
Proof.
  induction s as [|c s IH]; intros acc Hacc Hd; cbn [digits_value];
    [assumption|].
  cbn [all_digits] in Hd. apply andb_prop in Hd as [Hc Hd].
  apply IH; [|assumption]. unfold is_digit in Hc.
  apply andb_prop in Hc as [Hlo _]. apply Nat.leb_le in Hlo. lia.
Qed.

Lemma component_value_nonneg (s : string) : 0 <= component_value s.
Proof.
  unfold component_value. destruct (all_digits s) eqn:E; [|lia].
  now apply digits_value_nonneg.
Qed.

Lemma first_difference_zeros (cs : list Z) :
  Forall (fun c => 0 <= c) cs ->
  forall k, first_difference cs (repeat 0 k) = false.
Proof.
  induction 1 as [|c cs Hc _ IH]; intro k; [reflexivity|].
  destruct k as [|k]; [reflexivity|]. cbn [repeat first_difference].
  destruct (0 >? c) eqn:G; [apply Z.gtb_lt in G; lia|].
  destruct (0 <? c); [reflexivity|]. apply IH.
Qed.

Lemma update_available_spec_empty_latest (current : string) :
  update_available_spec current "" = false.
Proof.
  unfold update_available_spec, components. cbn [split map length].
  change (component_value "") with 0.
  set (cs := map component_value (split "." current)).
  set (n := Nat.max (length cs) 1).
  assert (Hn : (1 <= n)%nat) by (unfold n; lia).
  replace (pad n [0]) with (repeat 0 n).
  - apply first_difference_zeros. unfold pad. apply Forall_app. split.
    + unfold cs. apply Forall_forall. intros z Hz.
      apply in_map_iff in Hz as (s & <- & _). apply component_value_nonneg.
    + apply Forall_forall. intros z Hz. apply repeat_spec in Hz. lia.
  - unfold pad. cbn [length app]. destruct n as [|n]; [lia|].
    cbn. now rewrite Nat.sub_0_r.
Qed.

Lemma isUpdateAvailable_refines (current latest : string) :
  isUpdateAvailable current (Some latest)
  = update_available_spec current latest.
Proof.
  destruct (String.eqb_spec latest "") as [-> | Hne].
  - now rewrite update_available_spec_empty_latest.
  - now apply isUpdateAvailable_nonempty.
Qed.



End UpdateAvailable.

(* ===================================================================== *)
(** ** Properties of the background update check                         *)
(* ===================================================================== *)

Section BackgroundCheck.
Import Js Sys VersionChecker Reading.
Local Open Scope Z_scope.

(** *** What each function does to the world *)

Lemma loadCache_spec (w : World) :
  loadCache w
  = (Ok match cache_file (disk w) with
        | Readable (Json c) => Some c
        | _ => None
        end,
     if file_exists (cache_file (disk w))
     then with_trace (trace w ++ [ReadCacheFile]) w else w).
Proof.
  destruct w as [v [dir [|e|[e|c]] mk wr] clk pend tr]; reflexivity.
Qed.

Lemma checkForUpdatesAsync_spec (cv : string) (w : World) :
  checkForUpdatesAsync cv w
  = (Ok tt,
     match versionCheckPromise (vars w) with
     | Some _ => w
     | None =>
         match cache_file (disk w) with
         | Missing => started cv w
         | Readable (Json c) =>
             if clock w - lastCheck c <? CHECK_INTERVAL
             then record_taken c w
             else started cv (record_taken c w)
         | _ => started cv (with_trace (trace w ++ [ReadCacheFile]) w)
         end
     end).
Proof.
  destruct w as [[v l [p|]] [dir f mk wr] clk pend tr]; [reflexivity|].
  unfold checkForUpdatesAsync. unfold bind at 1. cbn [get vars versionCheckPromise].
  unfold bind at 1. rewrite loadCache_spec. cbn [disk cache_file clock].
  destruct f as [|e|[e|c]]; try reflexivity.
  cbn [file_exists]. unfold bind at 1. unfold bind at 1.
  cbn [set_cachedLatestVersion modify]. unfold bind at 1.
  cbn [Date_now get with_vars with_trace clock ret].
  destruct (clk - lastCheck c <? CHECK_INTERVAL); reflexivity.
Qed.

Lemma fetchLatestVersion_resume_spec (o : FetchOutcome) (w : World) :
  fetchLatestVersion_resume o w = (Ok (parsed_tag o), w).
Proof.
  destruct o as [e|[|] [e|[t|]]]; try reflexivity.
  unfold fetchLatestVersion_resume, parsed_tag, try_catch, bind, lift, ret.
  cbn [fst snd negb]. destruct (strip_v t =? "")%string; reflexivity.
Qed.

Lemma parsed_tag_truthy (o : FetchOutcome) (v : string) :
  parsed_tag o = Some v -> truthy (Some v) = true.
Proof.
  destruct o as [e|[|] [e|[t|]]]; try discriminate. cbn.
  destruct (strip_v t =? "")%string eqn:E; [discriminate|].
  intros [= <-]. now rewrite E.
Qed.

Lemma fetch_failed_no_tag (o : FetchOutcome) :
  fetch_failed o = true -> parsed_tag o = None.
Proof. destruct o as [e|[|] [e|[t|]]]; (reflexivity || discriminate). Qed.

(** Without a tag the attempt only clears the marker. *)
Lemma background_resume_no_tag (cv : string) (o : FetchOutcome) (w : World) :
  parsed_tag o = None ->
  background_resume cv o w
  = (Ok tt,
     with_vars (settled_vars (vars w) (cachedLatestVersion (vars w))) w).
Proof.
  intro H. unfold background_resume, try_finally, try_catch.
  unfold bind at 1. rewrite fetchLatestVersion_resume_spec, H. reflexivity.
Qed.

(** With a tag the attempt memoizes it, tries to write the record and
    clears the marker; it starts no fetch and reads no cache. *)
Lemma background_resume_tag (cv : string) (o : FetchOutcome) (w : World)
    (v : string) :
  parsed_tag o = Some v ->
  exists d' t',
    background_resume cv o w
    = (Ok tt,
       {| vars := settled_vars (vars w) (Some v); disk := d';
          clock := clock w; pending := pending w; trace := t' |})
    /\ filter is_fetch t' = filter is_fetch (trace w).
Proof.
  intro H. unfold background_resume, try_finally, try_catch.
  unfold bind at 1. rewrite fetchLatestVersion_resume_spec, H.
  rewrite (parsed_tag_truthy _ _ H).
  destruct w as [vs [[|] f [|] [|]] clk pend tr]; cbn;
    do 2 eexists; (split; [reflexivity|]);
    cbn; rewrite ?filter_app; cbn; now rewrite ?app_nil_r.
Qed.

Lemma background_resume_settles (cv : string) (o : FetchOutcome) (w : World) :
  result (background_resume cv o) w = Ok tt
  /\ checking (exec (background_resume cv o) w) = false
  /\ pending (exec (background_resume cv o) w) = pending w
  /\ fetches (exec (background_resume cv o) w) = fetches w.
Proof.
  unfold result, exec. destruct (parsed_tag o) as [v|] eqn:T.
  - destruct (background_resume_tag cv o w v T) as (d' & t' & -> & Ht).
    unfold fetches. cbn. now rewrite Ht.
  - rewrite (background_resume_no_tag cv o w T). now destruct w.
Qed.

(** *** The invariant of single flight *)

Lemma fresh_world_single_flight (d : Disk) (t0 : Z) :
  single_flight (fresh_world d t0).
Proof. right. split; reflexivity. Qed.

Lemma step_single_flight (w : World) (e : Event) :
  single_flight w -> single_flight (step w e).
Proof.
  intro Inv. destruct e as [now cv | now o]; cbn [step].
  - unfold exec. rewrite checkForUpdatesAsync_spec. cbn [snd].
    destruct Inv as [[Hc Hp] | [Hc Hp]]; unfold checking, in_flight in *.
    + destruct w as [[v l [p|]] d clk pend tr]; [|discriminate].
      left. split; [reflexivity | exact Hp].
    + destruct w as [[v l [p|]] [dir f mk wr] clk pend tr]; [discriminate|].
      cbn in Hp. apply length_zero_iff_nil in Hp. subst pend.
      cbn. destruct f as [|e|[e|c]]; try (left; split; reflexivity).
      destruct (_ <? _); [right | left]; split; reflexivity.
  - destruct (pending w) as [|cv rest] eqn:P; [assumption|].
    destruct (background_resume_settles cv o
                (with_clock now (with_pending rest w))) as (_ & Hc & Hp & _).
    right. split; [assumption|]. unfold in_flight. rewrite Hp. cbn.
    destruct Inv as [[_ H1] | [_ H0]]; unfold in_flight in *;
      rewrite P in *; cbn in *; [|discriminate].
    now injection H1.
Qed.

Lemma run_single_flight (events : list Event) :
  forall w, single_flight w -> single_flight (run w events).
Proof.
  induction events as [|e events IH]; intros w Inv; [assumption|].
  cbn [run fold_left]. apply IH. now apply step_single_flight.
Qed.

Lemma single_flight_bound (w : World) :
  single_flight w ->
  (in_flight w <= 1)%nat /\ (checking w = true <-> in_flight w = 1%nat).
Proof.
  intros [[Hc Hp] | [Hc Hp]]; rewrite Hc, Hp; split; try lia;
    split; (reflexivity || discriminate).
Qed.

Lemma trigger_while_checking (w : World) (now : Z) (cv : string) :
  checking w = true -> step w (Trigger now cv) = with_clock now w.
Proof.
  intro Hc. cbn [step]. unfold exec. rewrite checkForUpdatesAsync_spec.
  destruct w as [[v l [p|]] d clk pend tr]; [reflexivity | discriminate].
Qed.

Lemma trigger_starts_fetch (w : World) (now : Z) (cv : string) :
  checking w = false ->
  fresh_record w now = false ->
  checking (step w (Trigger now cv)) = true
  /\ fetches (step w (Trigger now cv)) = S (fetches w).
Proof.
  intros Hc Hf. cbn [step]. unfold exec. rewrite checkForUpdatesAsync_spec.
  destruct w as [[v l [p|]] [dir f mk wr] clk pend tr]; [discriminate|].
  unfold fresh_record in Hf. cbn in Hf. unfold fetches. cbn.
  destruct f as [|e|[e|c]]; try rewrite Hf; cbn;
    rewrite ?filter_app, ?length_app; cbn; split; (reflexivity || lia).
Qed.

Lemma settle_clears_marker (w : World) (now : Z) (o : FetchOutcome) :
  single_flight w ->
  checking w = true ->
  checking (step w (FetchSettled now o)) = false
  /\ in_flight (step w (FetchSettled now o)) = 0%nat.
Proof.
  intros Inv Hc.
  destruct (step_single_flight w (FetchSettled now o) Inv)
    as [[Hc' Hp'] | [Hc' Hp']]; [|now split].
  exfalso. cbn [step] in Hc'.
  destruct Inv as [[_ Hp] | [Hc0 _]]; [|congruence].
  unfold in_flight in Hp. destruct (pending w) as [|cv rest]; [discriminate|].
  destruct (background_resume_settles cv o
              (with_clock now (with_pending rest w))) as (_ & H & _).
  congruence.
Qed.

(** C6. The background check is single-flight. In every world the
    program reaches from its start, at most one fetch is in flight, and
    one is in flight exactly when the marker is set. A trigger that finds
    the marker set changes nothing: it loads no cache and starts no fetch.
    Two triggers in a row with no cache file start exactly one fetch. When
    the fetch of a check settles, however it settles, the marker is
    cleared and nothing is in flight; and a trigger that finds the marker
    clear and no fresh record starts a fetch again. *)
Theorem checkForUpdatesAsync_single_flight :
  (forall (d : Disk) (t0 : Z) (events : list Event),
      (in_flight (run (fresh_world d t0) events) <= 1)%nat
      /\ (checking (run (fresh_world d t0) events) = true
          <-> in_flight (run (fresh_world d t0) events) = 1%nat))
  /\ (forall (w : World) (now : Z) (cv : string),
         checking w = true ->
         step w (Trigger now cv) = with_clock now w)
  /\ (forall (d : Disk) (t0 t1 t2 : Z) (cv1 cv2 : string),
         cache_file d = Missing ->
         fetches (run (fresh_world d t0) [Trigger t1 cv1; Trigger t2 cv2])
         = 1%nat)
  /\ (forall (d : Disk) (t0 : Z) (events : list Event) (now : Z)
             (o : FetchOutcome),
         checking (run (fresh_world d t0) events) = true ->
         checking (step (run (fresh_world d t0) events) (FetchSettled now o))
         = false
         /\ in_flight (step (run (fresh_world d t0) events)
                            (FetchSettled now o)) = 0%nat)
  /\ (forall (w : World) (now : Z) (cv : string),
         checking w = false ->
         fresh_record w now = false ->
         checking (step w (Trigger now cv)) = true
         /\ fetches (step w (Trigger now cv)) = S (fetches w)).
Proof.
  split; [|split; [|split; [|split]]].
  - intros d t0 events. apply single_flight_bound, run_single_flight,
      fresh_world_single_flight.
  - exact trigger_while_checking.
  - intros [dir f mk wr] t0 t1 t2 cv1 cv2 Hf. cbn in Hf. subst f.
    reflexivity.
  - intros d t0 events now o. apply settle_clears_marker.
    apply run_single_flight, fresh_world_single_flight.
  - exact trigger_starts_fetch.
Qed.

Lemma checkForUpdatesAsync_single_flight_witness :
  fetches (run (fresh_world Scenario.empty_disk 0)
             [Trigger 1 "5.2.1"; Trigger 2 "5.2.1"]) = 1%nat
  /\ checking (step (run (fresh_world Scenario.empty_disk 0)
                       [Trigger 1 "5.2.1"])
                  (FetchSettled 9 Scenario.offline)) = false
  /\ step (run (fresh_world Scenario.empty_disk 0) [Trigger 1 "5.2.1"])
          (Trigger 2 "5.2.1")
     = with_clock 2 (run (fresh_world Scenario.empty_disk 0)
                       [Trigger 1 "5.2.1"]).
Proof.
  destruct checkForUpdatesAsync_single_flight
    as (_ & Hnoop & Hone & Hclear & _).
  split; [|split].
  - apply Hone. reflexivity.
  - apply Hclear. reflexivity.
  - apply Hnoop. reflexivity.
Defined.

(** C7. A trigger that finds no check in flight and loads a record from
    the cache file at once makes the record's latest version the
    memoized latest version; and when the record was checked less than 24
    hours before now, the trigger ends there: no fetch is started, nothing
    is in flight and the marker stays clear. *)
Theorem checkForUpdatesAsync_uses_cache :
  forall (w : World) (now : Z) (cv : string) (c : VersionCache),
    checking w = false ->
    result loadCache (with_clock now w) = Ok (Some c) ->
    cachedLatestVersion (vars (step w (Trigger now cv))) = latestVersion c
    /\ (now - lastCheck c < 24 * 60 * 60 * 1000 ->
        fetches (step w (Trigger now cv)) = fetches w
        /\ in_flight (step w (Trigger now cv)) = in_flight w
        /\ checking (step w (Trigger now cv)) = false).
Proof.
  intros w now cv c Hc Hload. unfold result in Hload.
  rewrite loadCache_spec in Hload. cbn [fst] in Hload.
  cbn [step]. unfold exec. rewrite checkForUpdatesAsync_spec.
  destruct w as [[v l [p|]] [dir f mk wr] clk pend tr]; [discriminate|].
  cbn in Hload. destruct f as [|e|[e|c']]; try discriminate.
  injection Hload as ->. cbn -[Z.mul Z.sub Z.ltb CHECK_INTERVAL].
  change CHECK_INTERVAL with (24 * 60 * 60 * 1000).
  destruct (now - lastCheck c <? 24 * 60 * 60 * 1000) eqn:Fresh.
  - split; [reflexivity|]. intros _. unfold fetches, in_flight. cbn.
    rewrite filter_app. cbn. rewrite app_nil_r. repeat split.
  - split; [reflexivity|]. intro Hlt. apply Z.ltb_ge in Fresh. lia.
Qed.

Lemma checkForUpdatesAsync_uses_cache_witness :
  cachedLatestVersion
    (vars (step (fresh_world
                   (Scenario.disk_with (Readable (Json Scenario.recent_record)))
                   0)
                (Trigger Scenario.day "5.2.1")))
  = Some "5.3.0"%string
  /\ fetches (step (fresh_world
                      (Scenario.disk_with
                         (Readable (Json Scenario.recent_record))) 0)
                   (Trigger Scenario.day "5.2.1")) = 0%nat.
Proof.
  destruct (checkForUpdatesAsync_uses_cache
              (fresh_world
                 (Scenario.disk_with (Readable (Json Scenario.recent_record)))
                 0)
              Scenario.day "5.2.1" Scenario.recent_record
              eq_refl eq_refl) as [Hlatest Hfresh].
  split; [exact Hlatest|].
  apply Hfresh. reflexivity.
Defined.

Lemma failed_fetch_changes_nothing (w : World) (now : Z) (o : FetchOutcome) :
  fetch_failed o = true ->
  cachedLatestVersion (vars (step w (FetchSettled now o)))
  = cachedLatestVersion (vars w)
  /\ disk (step w (FetchSettled now o)) = disk w
  /\ cache_writes (step w (FetchSettled now o)) = cache_writes w.
Proof.
  intro Hf. cbn [step]. destruct (pending w) as [|cv rest]; [now repeat split|].
  unfold exec.
  rewrite (background_resume_no_tag _ _ _ (fetch_failed_no_tag o Hf)).
  now destruct w.
Qed.

Lemma saveCache_never_throws (c : VersionCache) (w : World) :
  result (saveCache c) w = Ok tt.
Proof. destruct w as [vs [[|] f [|] [|]] clk pend tr]; reflexivity. Qed.

(** C8. Errors of the version cache never reach the caller. [loadCache]
    never throws, and on a cache file that cannot be read or does not
    parse it returns [null], as it does when the file is absent; the
    trigger, [saveCache] and the background attempt never throw either.
    When the fetch fails (network error, response that is not 2xx,
    malformed body) the memoized latest version stays what it was when the
    fetch settled, the disk stays as it was and no record is written. *)
Theorem version_cache_errors_are_silent :
  (forall w : World, exists r, result loadCache w = Ok r)
  /\ (forall (w : World) (e : JsError),
         cache_file (disk w) = Unreadable e
         \/ cache_file (disk w) = Readable (Garbled e)
         \/ cache_file (disk w) = Missing ->
         result loadCache w = Ok None)
  /\ (forall (w : World) (cv : string),
         result (checkForUpdatesAsync cv) w = Ok tt)
  /\ (forall (w : World) (c : VersionCache),
         result (saveCache c) w = Ok tt)
  /\ (forall (w : World) (cv : string) (o : FetchOutcome),
         result (background_resume cv o) w = Ok tt)
  /\ (forall (w : World) (now : Z) (o : FetchOutcome),
         fetch_failed o = true ->
         cachedLatestVersion (vars (step w (FetchSettled now o)))
         = cachedLatestVersion (vars w)
         /\ disk (step w (FetchSettled now o)) = disk w
         /\ cache_writes (step w (FetchSettled now o)) = cache_writes w).
Proof.
  split; [|split; [|split; [|split; [|split]]]].
  - intro w. unfold result. rewrite loadCache_spec. eexists. reflexivity.
  - intros w e H. unfold result. rewrite loadCache_spec.
    destruct H as [-> | [-> | ->]]; reflexivity.
  - intros w cv. unfold result. now rewrite checkForUpdatesAsync_spec.
  - exact (fun w c => saveCache_never_throws c w).
  - intros w cv o. apply background_resume_settles.
  - exact failed_fetch_changes_nothing.
Qed.

Lemma version_cache_errors_are_silent_witness :
  result loadCache
    (fresh_world
       (Scenario.disk_with (Readable (Garbled Scenario.truncated_json))) 0)
  = Ok None
  /\ cache_writes
       (step (run (fresh_world Scenario.empty_disk 0) [Trigger 1 "5.2.1"])
             (FetchSettled 9 Scenario.offline))
     = cache_writes (run (fresh_world Scenario.empty_disk 0)
                        [Trigger 1 "5.2.1"]).
Proof.
  destruct version_cache_errors_are_silent
    as (_ & Hcorrupt & _ & _ & _ & Hfail).
  split.
  - apply (Hcorrupt _ Scenario.truncated_json). right. left. reflexivity.
  - apply Hfail. reflexivity.
Defined.

End BackgroundCheck.

(* ===================================================================== *)
(** ** Properties of [getEpubCheckVersion]                               *)
(* ===================================================================== *)

Section EpubCheckVersion.
Import Js Sys Runner Reading.

(** *** The listeners *)

(** The background trigger only adds to the trace, and no spawn. *)
Lemma checkForUpdatesAsync_trace (cv : string) (w : World) :
  exists t,
    trace (exec (VersionChecker.checkForUpdatesAsync cv) w) = trace w ++ t
    /\ filter is_spawn t = [].
Proof.
  unfold exec. rewrite checkForUpdatesAsync_spec. cbn [snd].
  destruct w as [[v l [p|]] [dir f mk wr] clk pend tr]; cbn.
  - exists []. now rewrite app_nil_r.
  - destruct f as [|e|[e|c]]; cbn.
    + eexists. split; reflexivity.
    + eexists. rewrite <- app_assoc. split; reflexivity.
    + eexists. rewrite <- app_assoc. split; reflexivity.
    + destruct (_ <? _)%Z; cbn; eexists; rewrite <- ?app_assoc;
        split; reflexivity.
Qed.

Lemma version_handler_total (e : ChildEvent) (st : VersionState) (w : World) :
  exists st' w' t,
    version_handler e st w = (Ok st', w')
    /\ trace w' = trace w ++ t
    /\ filter is_spawn t = []
    /\ (version_promise st' = version_promise st
        \/ version_promise st = Pending).
Proof.
  destruct e as [d|d|c|err]; cbn [version_handler].
  - do 2 eexists. exists []. rewrite app_nil_r. repeat split. now left.
  - do 2 eexists. exists []. rewrite app_nil_r. repeat split. now left.
  - unfold version_on_close. destruct (match_version (stdout st)) as [g|].
    + unfold bind at 1. cbn [set_cachedVersion modify]. unfold bind at 1.
      set (w1 := with_vars _ w).
      destruct (checkForUpdatesAsync_trace g w1) as (t & Ht & Hs).
      unfold exec in Ht.
      rewrite checkForUpdatesAsync_spec in Ht |- *. cbn [snd] in Ht.
      cbn [ret]. do 2 eexists. exists t. split; [reflexivity|].
      split; [rewrite Ht; now destruct w|]. split; [assumption|].
      cbn [version_promise]. destruct (version_promise st); auto.
    + do 2 eexists. exists []. rewrite app_nil_r. repeat split.
      cbn [version_promise]. destruct (version_promise st); auto.
  - do 2 eexists. exists []. rewrite app_nil_r. repeat split.
    cbn [version_promise]. destruct (version_promise st); auto.
Qed.

Lemma version_deliver_total (events : list ChildEvent) :
  forall (st : VersionState) (w : World),
  exists st' w' t,
    deliver version_handler events st w = (Ok st', w')
    /\ trace w' = trace w ++ t
    /\ filter is_spawn t = [].
Proof.
  induction events as [|e events IH]; intros st w; cbn [deliver].
  - do 2 eexists. exists []. rewrite app_nil_r. repeat split.
  - destruct (version_handler_total e st w) as (st1 & w1 & t1 & E1 & T1 & S1 & _).
    destruct (IH st1 w1) as (st2 & w2 & t2 & E2 & T2 & S2).
    unfold bind. rewrite E1, E2. do 2 eexists. exists (t1 ++ t2).
    split; [reflexivity|]. split.
    + now rewrite T2, T1, app_assoc.
    + now rewrite filter_app, S1, S2.
Qed.

(** A rejection comes from an ['error'] event. *)
Lemma version_deliver_rejected (events : list ChildEvent) :
  forall (st st' : VersionState) (w w' : World) (e : JsError),
    deliver version_handler events st w = (Ok st', w') ->
    version_promise st' = Rejected e ->
    version_promise st = Rejected e
    \/ exists err, In (ChildError err) events /\ e = spawn_failed_error err.
Proof.
  induction events as [|ev events IH]; intros st st' w w' e D R.
  - cbn in D. injection D as <- _. now left.
  - cbn [deliver] in D. unfold bind in D.
    destruct (version_handler ev st w) as [[st1|x] w1] eqn:H; [|discriminate].
    destruct (IH _ _ _ _ _ D R) as [R1 | (err & Hin & ->)].
    + destruct ev as [d|d|c|err]; cbn [version_handler] in H.
      * injection H as <- _. now left.
      * injection H as <- _. now left.
      * unfold version_on_close in H.
        destruct (match_version (stdout st)) as [g|].
        -- unfold bind in H.
           destruct (set_cachedVersion (Some g) w) as [[u|x] w2];
             [|discriminate].
           destruct (VersionChecker.checkForUpdatesAsync g w2)
             as [[u'|x] w3]; [|discriminate].
           injection H as <- _. cbn [version_promise] in R1.
           destruct (version_promise st); [discriminate | discriminate |].
           now left.
        -- injection H as <- _. cbn [version_promise] in R1.
           destruct (version_promise st); [discriminate | discriminate |].
           now left.
      * injection H as <- _. cbn [version_promise] in R1.
        destruct (version_promise st) eqn:P.
        -- right. exists err. split; [now left|].
           cbn in R1. now injection R1 as <-.
        -- discriminate.
        -- now left.
    + right. exists err. split; [now right | reflexivity].
Qed.

(** Output and then ['close'] without a match: the fallback, and a world
    that does not change. *)
Lemma version_deliver_data (output : list ChildEvent) :
  forall (st : VersionState) (w : World),
    forallb is_data output = true ->
    deliver version_handler output st w
    = (Ok {| stdout := (stdout st ++ collected_stdout output)%string;
             version_promise := version_promise st |}, w).
Proof.
  induction output as [|e output IH]; intros st w Hd.
  - cbn. rewrite string_app_empty. now destruct st.
  - cbn [forallb] in Hd. apply andb_prop in Hd as [He Hd].
    destruct e as [d|d|c|err]; try discriminate;
      cbn [deliver version_handler collected_stdout]; unfold bind, ret;
      rewrite (IH _ _ Hd); cbn [stdout version_promise].
    + now rewrite string_app_assoc.
    + reflexivity.
Qed.

Lemma version_parse_miss (output : list ChildEvent) (code : option Z)
    (w : World) :
  forallb is_data output = true ->
  match_version (collected_stdout output) = None ->
  deliver version_handler (output ++ [Close code])
    {| stdout := ""; version_promise := Pending |} w
  = (Ok {| stdout := collected_stdout output;
           version_promise :=
             Resolved (or_else (trim (collected_stdout output)) "unknown") |},
     w).
Proof.
  intros Hd Hm. rewrite deliver_app. unfold bind at 1.
  rewrite (version_deliver_data _ _ _ Hd). cbn [stdout version_promise append].
  cbn [deliver version_handler]. unfold version_on_close.
  cbn [stdout]. rewrite Hm. reflexivity.
Qed.

Lemma getEpubCheckVersion_memoized (env : Env) (events : list ChildEvent)
    (w : World) (v : string) :
  if_truthy (cachedVersion (vars w)) = Some v ->
  getEpubCheckVersion env events w = (Ok (Resolved v), w).
Proof.
  intro H. unfold getEpubCheckVersion, bind, get. now rewrite H.
Qed.

Lemma getEpubCheckVersion_no_jar (env : Env) (events : list ChildEvent)
    (w : World) (e : JsError) :
  if_truthy (cachedVersion (vars w)) = None ->
  getJarPath env = inl e ->
  getEpubCheckVersion env events w = (Ok (Rejected e), w).
Proof.
  intros H J. unfold getEpubCheckVersion, bind, get. now rewrite H, J.
Qed.

(** With nothing memoized and the JAR found, the call spawns the engine
    and hands the events to the listeners. *)
Lemma getEpubCheckVersion_spawns (env : Env) (events : list ChildEvent)
    (w : World) (jar : string) :
  if_truthy (cachedVersion (vars w)) = None ->
  getJarPath env = inr jar ->
  getEpubCheckVersion env events w
  = match deliver version_handler events
            {| stdout := ""; version_promise := Pending |}
            (with_trace (trace w ++ [Spawn "java" (version_argv jar) None]) w)
    with
    | (Ok st, w') => (Ok (version_promise st), w')
    | (Throw x, w') => (Throw x, w')
    end.
Proof.
  intros H J. unfold getEpubCheckVersion. unfold bind at 1. unfold get.
  rewrite H, J. reflexivity.
Qed.

(** *** [trim] removes the blanks at the two ends, and nothing else *)

Lemma is_space_blank (c : ascii) : is_space c = ascii_blank c.
Proof. destruct c as [[] [] [] [] [] [] [] []]; reflexivity. Qed.

Lemma all_blank_cons (c : ascii) (s : string) :
  all_blank (String c s) = is_space c && all_blank s.
Proof. unfold all_blank. cbn [list_ascii_of_string forallb]. now rewrite is_space_blank. Qed.

Lemma starts_blank_cons (c : ascii) (s : string) :
  starts_blank (String c s) = is_space c.
Proof. cbn [starts_blank]. now rewrite is_space_blank. Qed.

Lemma ends_blank_one (c : ascii) : ends_blank (String c "") = is_space c.
Proof. cbn [ends_blank]. now rewrite is_space_blank. Qed.

Lemma ends_blank_more (c d : ascii) (s : string) :
  ends_blank (String c (String d s)) = ends_blank (String d s).
Proof. reflexivity. Qed.

Lemma trim_start_blanks (pre s : string) :
  all_blank pre = true -> trim_start (pre ++ s) = trim_start s.
Proof.
  induction pre as [|c pre IH]; [reflexivity|].
  rewrite all_blank_cons. intro H. apply andb_prop in H as [Hc Hpre].
  cbn [append trim_start]. rewrite Hc. now apply IH.
Qed.

Lemma trim_start_all_blank (s : string) :
  all_blank s = true -> trim_start s = ""%string.
Proof.
  intro H. rewrite <- (string_app_empty s). now rewrite trim_start_blanks.
Qed.

Lemma trim_start_kept (s : string) :
  starts_blank s = false -> trim_start s = s.
Proof.
  destruct s as [|c s]; [reflexivity|]. rewrite starts_blank_cons.
  cbn [trim_start]. now intros ->.
Qed.

Lemma trim_end_all_blank (s : string) :
  all_blank s = true -> trim_end s = ""%string.
Proof.
  induction s as [|c s IH]; [reflexivity|].
  rewrite all_blank_cons. intro H. apply andb_prop in H as [Hc Hs].
  cbn [trim_end]. rewrite (IH Hs), Hc. reflexivity.
Qed.

Lemma trim_end_blanks (t post : string) :
  all_blank post = true -> trim_end (t ++ post) = trim_end t.
Proof.
  intro H. induction t as [|c t IH]; cbn [append trim_end].
  - now apply trim_end_all_blank.
  - now rewrite IH.
Qed.

Lemma trim_end_kept (t : string) :
  ends_blank t = false -> trim_end t = t.
Proof.
  induction t as [|c t IH]; [reflexivity|]. intro H.
  destruct t as [|d t'].
  - rewrite ends_blank_one in H. cbn [trim_end]. now rewrite H.
  - rewrite ends_blank_more in H.
    change (trim_end (String c (String d t')))
      with (match trim_end (String d t') with
            | EmptyString =>
                if is_space c then EmptyString else String c EmptyString
            | t => String c t
            end).
    rewrite (IH H). reflexivity.
Qed.

Lemma trim_start_spec (s : string) :
  exists pre,
    s = (pre ++ trim_start s)%string
    /\ all_blank pre = true
    /\ starts_blank (trim_start s) = false.
Proof.
  induction s as [|c s (pre & E & Hpre & Hs)].
  - now exists ""%string.
  - cbn [trim_start]. destruct (is_space c) eqn:Sc.
    + exists (String c pre). cbn [append]. rewrite <- E.
      rewrite all_blank_cons, Sc, Hpre. now repeat split.
    + exists ""%string. rewrite starts_blank_cons. now repeat split.
Qed.

Lemma trim_end_spec (s : string) :
  exists post,
    s = (trim_end s ++ post)%string
    /\ all_blank post = true
    /\ ends_blank (trim_end s) = false
    /\ (starts_blank s = false -> starts_blank (trim_end s) = false).
Proof.
  induction s as [|c s (post & E & Hpost & He & _)].
  - now exists ""%string.
  - cbn [trim_end]. destruct (trim_end s) as [|d u] eqn:T.
    + cbn [append] in E. subst post. destruct (is_space c) eqn:Sc.
      * exists (String c s). rewrite all_blank_cons, Sc, starts_blank_cons, Sc.
        rewrite Hpost. now repeat split.
      * exists s. rewrite ends_blank_one, !starts_blank_cons, Sc.
        now repeat split.
    + exists post. rewrite ends_blank_more, !starts_blank_cons.
      repeat split; try easy.
      change (String c s = String c (String d u ++ post)). now rewrite <- E.
Qed.

Lemma trim_trimmed (s : string) : trimmed_of s (trim s).
Proof.
  unfold trim.
  destruct (trim_start_spec s) as (pre & E1 & Hpre & Hs).
  destruct (trim_end_spec (trim_start s)) as (post & E2 & Hpost & He & Hk).
  exists pre, post. repeat split; try assumption.
  - rewrite <- E2. exact E1.
  - now apply Hk.
Qed.

Lemma trimmed_is_trim (s t : string) : trimmed_of s t -> trim s = t.
Proof.
  intros (pre & post & -> & Hpre & Hpost & Hs & He). unfold trim.
  rewrite (trim_start_blanks pre _ Hpre).
  destruct t as [|c t].
  - cbn [append]. rewrite (trim_start_all_blank post Hpost). reflexivity.
  - rewrite (trim_start_kept (String c t ++ post)) by exact Hs.
    rewrite (trim_end_blanks _ post Hpost). now apply trim_end_kept.
Qed.

(** C9, as the code has it. With a non-empty version memoized the call
    resolves with it and touches nothing: no process is spawned. With none
    memoized and no JAR found, the promise is rejected with the error of
    [getJarPath] and nothing is spawned either. With none memoized and the
    JAR found, [java -jar <jar> --version] is spawned; when the child
    closes with an output the pattern does not match, the promise resolves,
    and on an output of ASCII characters it resolves with the output without
    the blanks at its two ends, or with ["unknown"] when nothing is left.
    The promise is rejected only with the error of [getJarPath] or, after an
    ['error'] event of the child, with the spawn failure. *)
Theorem getEpubCheckVersion_memoizes_and_falls_back :
  (forall (env : Env) (events : list ChildEvent) (w : World) (v : string),
      if_truthy (cachedVersion (vars w)) = Some v ->
      getEpubCheckVersion env events w = (Ok (Resolved v), w))
  /\ (forall (env : Env) (events : list ChildEvent) (w : World) (e : JsError),
         if_truthy (cachedVersion (vars w)) = None ->
         getJarPath env = inl e ->
         getEpubCheckVersion env events w = (Ok (Rejected e), w))
  /\ (forall (env : Env) (events : list ChildEvent) (w : World) (jar : string),
         if_truthy (cachedVersion (vars w)) = None ->
         getJarPath env = inr jar ->
         exists later,
           trace (exec (getEpubCheckVersion env events) w)
           = trace w ++ Spawn "java" ["-jar"; jar; "--version"] None :: later
           /\ filter is_spawn later = [])
  /\ (forall (env : Env) (output : list ChildEvent) (code : option Z)
             (w : World) (jar : string),
         if_truthy (cachedVersion (vars w)) = None ->
         getJarPath env = inr jar ->
         forallb is_data output = true ->
         match_version (collected_stdout output) = None ->
         (exists fallback,
             result (getEpubCheckVersion env (output ++ [Close code])) w
             = Ok (Resolved fallback))
         /\ (ascii_text (collected_stdout output) = true ->
             (exists t, trimmed_of (collected_stdout output) t)
             /\ forall t,
                  trimmed_of (collected_stdout output) t ->
                  result (getEpubCheckVersion env (output ++ [Close code])) w
                  = Ok (Resolved (if t =? "" then "unknown" else t))))
  /\ (forall (env : Env) (events : list ChildEvent) (w : World) (e : JsError),
         result (getEpubCheckVersion env events) w = Ok (Rejected e) ->
         getJarPath env = inl e
         \/ exists err, In (ChildError err) events
                        /\ e = spawn_failed_error err).
Proof.
  split; [exact getEpubCheckVersion_memoized|].
  split; [exact getEpubCheckVersion_no_jar|].
  split; [|split].
  - intros env events w jar H J. unfold exec.
    rewrite (getEpubCheckVersion_spawns env events w jar H J).
    destruct (version_deliver_total events
                {| stdout := ""; version_promise := Pending |}
                (with_trace (trace w ++ [Spawn "java" (version_argv jar) None]) w))
      as (st' & w' & t & -> & T & S).
    exists t. cbn [snd]. rewrite T. cbn [with_trace trace].
    rewrite <- app_assoc. split; [reflexivity | assumption].
  - intros env output code w jar H J Hd Hm. unfold result.
    rewrite (getEpubCheckVersion_spawns env _ w jar H J).
    rewrite (version_parse_miss output code _ Hd Hm). cbn [fst version_promise].
    split; [eexists; reflexivity|]. intros _.
    split; [exists (trim (collected_stdout output)); apply trim_trimmed|].
    intros t Ht. now rewrite (trimmed_is_trim _ _ Ht).
  - intros env events w e R. unfold result in R.
    destruct (if_truthy (cachedVersion (vars w))) as [v|] eqn:H.
    + rewrite (getEpubCheckVersion_memoized env events w v H) in R.
      discriminate.
    + destruct (getJarPath env) as [x|jar] eqn:J.
      * rewrite (getEpubCheckVersion_no_jar env events w x H J) in R.
        left. cbn in R. now injection R as <-.
      * rewrite (getEpubCheckVersion_spawns env events w jar H J) in R.
        destruct (deliver _ _ _ _) as [[st'|x] w'] eqn:D; [|discriminate].
        cbn in R. injection R as R.
        destruct (version_deliver_rejected _ _ _ _ _ _ D R)
          as [P | Herr]; [discriminate | now right].
Qed.

Lemma getEpubCheckVersion_memoizes_and_falls_back_witness :
  result (getEpubCheckVersion Scenario.installed
            ([StdoutData "  java: not an EPUBCheck build "] ++ [Close (Some 0%Z)]))
         (VersionChecker.fresh_world Scenario.empty_disk 0)
  = Ok (Resolved "java: not an EPUBCheck build")
  /\ result (getEpubCheckVersion Scenario.installed ([] ++ [Close None]))
            (VersionChecker.fresh_world Scenario.empty_disk 0)
     = Ok (Resolved "unknown").
Proof.
  destruct getEpubCheckVersion_memoizes_and_falls_back
    as (_ & _ & _ & Hmiss & _).
  split.
  - apply (proj2 (proj2 (Hmiss Scenario.installed
                           [StdoutData "  java: not an EPUBCheck build "]
                           (Some 0%Z)
                           (VersionChecker.fresh_world Scenario.empty_disk 0)
                           "/app/bin/epubcheck.jar"
                           eq_refl eq_refl eq_refl eq_refl)
                        eq_refl)
                 "java: not an EPUBCheck build"%string).
    exists "  "%string, " "%string. repeat split.
  - apply (proj2 (proj2 (Hmiss Scenario.installed [] None
                           (VersionChecker.fresh_world Scenario.empty_disk 0)
                           "/app/bin/epubcheck.jar"
                           eq_refl eq_refl eq_refl eq_refl)
                        eq_refl)
                 ""%string).
    exists ""%string, ""%string. repeat split.
Defined.

(** C9 as stated fails: with no version memoized and no JAR to be found,
    the call does not spawn the engine, and its promise is rejected with
    the error of [getJarPath] although no spawn was tried and no child
    reported an error. *)
Lemma getEpubCheckVersion_rejects_without_spawning :
  cachedVersion (vars (VersionChecker.fresh_world Scenario.empty_disk 0))
    = None
  /\ result (getEpubCheckVersion Scenario.no_jar [])
            (VersionChecker.fresh_world Scenario.empty_disk 0)
     = Ok (Rejected
             (Error (jar_not_found_message (possiblePaths Scenario.no_jar))))
  /\ spawns (exec (getEpubCheckVersion Scenario.no_jar [])
                  (VersionChecker.fresh_world Scenario.empty_disk 0))
     = 0%nat.
Proof. repeat split. Qed.

(** C10. When nothing is memoized, the JAR is found and the child closes
    with an output the pattern does not match, the call resolves with the
    fallback (on an output of ASCII characters: the output without the
    blanks at its two ends, or ["unknown"] when nothing is left) and changes
    nothing but the trace, which gains the one spawn: the memoized version
    stays unset, and the background check is not triggered (no cache is
    read, no fetch is started, nothing is in flight). Every later call from
    there spawns the engine again. *)
Theorem getEpubCheckVersion_parse_miss_not_memoized :
  forall (env : Env) (output : list ChildEvent) (code : option Z)
         (w : World) (jar : string),
    if_truthy (cachedVersion (vars w)) = None ->
    getJarPath env = inr jar ->
    forallb is_data output = true ->
    match_version (collected_stdout output) = None ->
    (exists fallback,
        result (getEpubCheckVersion env (output ++ [Close code])) w
        = Ok (Resolved fallback))
    /\ (ascii_text (collected_stdout output) = true ->
        forall t,
          trimmed_of (collected_stdout output) t ->
          result (getEpubCheckVersion env (output ++ [Close code])) w
          = Ok (Resolved (if t =? "" then "unknown" else t)))
    /\ vars (exec (getEpubCheckVersion env (output ++ [Close code])) w)
       = vars w
    /\ disk (exec (getEpubCheckVersion env (output ++ [Close code])) w)
       = disk w
    /\ pending (exec (getEpubCheckVersion env (output ++ [Close code])) w)
       = pending w
    /\ trace (exec (getEpubCheckVersion env (output ++ [Close code])) w)
       = trace w ++ [Spawn "java" ["-jar"; jar; "--version"] None]
    /\ forall later : list ChildEvent,
         spawns (exec (getEpubCheckVersion env later)
                      (exec (getEpubCheckVersion env (output ++ [Close code]))
                            w))
         = S (spawns (exec (getEpubCheckVersion env (output ++ [Close code]))
                           w)).
Proof.
  intros env output code w jar H J Hd Hm. unfold result, exec.
  rewrite (getEpubCheckVersion_spawns env _ w jar H J).
  rewrite (version_parse_miss output code _ Hd Hm).
  cbn [fst snd version_promise].
  split; [eexists; reflexivity|].
  split; [intros _ t Ht; now rewrite (trimmed_is_trim _ _ Ht)|].
  repeat split; try (now destruct w).
  intro later. set (w1 := with_trace _ w).
  assert (H1 : if_truthy (cachedVersion (vars w1)) = None)
    by (destruct w; exact H).
  rewrite (getEpubCheckVersion_spawns env later w1 jar H1 J).
  destruct (version_deliver_total later
              {| stdout := ""; version_promise := Pending |}
              (with_trace (trace w1 ++ [Spawn "java" (version_argv jar) None]) w1))
    as (st' & w' & t & -> & T & S).
  cbn [snd]. unfold spawns. rewrite T. cbn [with_trace trace].
  rewrite !filter_app, S, app_nil_r, length_app. cbn. lia.
Qed.

Lemma getEpubCheckVersion_parse_miss_not_memoized_witness :
  result (getEpubCheckVersion Scenario.installed
            ([StdoutData "  no java "] ++ [Close (Some 1%Z)]))
         (VersionChecker.fresh_world Scenario.empty_disk 0)
  = Ok (Resolved "no java")
  /\ vars (exec (getEpubCheckVersion Scenario.installed
                   ([StdoutData "  no java "] ++ [Close (Some 1%Z)]))
                (VersionChecker.fresh_world Scenario.empty_disk 0))
     = vars (VersionChecker.fresh_world Scenario.empty_disk 0)
  /\ spawns (exec (getEpubCheckVersion Scenario.installed [Close (Some 1%Z)])
               (exec (getEpubCheckVersion Scenario.installed
                        ([StdoutData "  no java "] ++ [Close (Some 1%Z)]))
                     (VersionChecker.fresh_world Scenario.empty_disk 0)))
     = 2%nat.
Proof.
  destruct (getEpubCheckVersion_parse_miss_not_memoized Scenario.installed
              [StdoutData "  no java "] (Some 1%Z)
              (VersionChecker.fresh_world Scenario.empty_disk 0)
              "/app/bin/epubcheck.jar" eq_refl eq_refl eq_refl eq_refl)
    as (_ & Hvalue & Hvars & _ & _ & _ & Hagain).
  split; [|split; [exact Hvars|]].
  - apply (Hvalue eq_refl "no java"%string).
    exists "  "%string, " "%string. repeat split.
  - rewrite Hagain. reflexivity.
Defined.

End EpubCheckVersion.

(* ===================================================================== *)
(** ** [isUpdateAvailable] as an order on versions                       *)
(* ===================================================================== *)

Section UpdateOrder.
Import Js VersionChecker Reading.
Local Open Scope Z_scope.

Lemma first_difference_irrefl (l : list Z) : first_difference l l = false.
Proof.
  induction l as [|x l IH]; [reflexivity|]. cbn [first_difference].
  rewrite Z.gtb_ltb, Z.ltb_irrefl. exact IH.
Qed.

Lemma first_difference_asym (a : list Z) :
  forall b, first_difference a b = true -> first_difference b a = false.
Proof.
  induction a as [|x a IH]; intros [|y b] H; try reflexivity;
    try discriminate.
  cbn [first_difference] in *. rewrite Z.gtb_ltb in *.
  destruct (x <? y) eqn:Lt.
  - apply Z.ltb_lt in Lt. destruct (y <? x) eqn:Gt;
      [apply Z.ltb_lt in Gt; lia | reflexivity].
  - destruct (y <? x) eqn:Gt; [discriminate|]. now apply IH.
Qed.

Lemma first_difference_trans (a : list Z) :
  forall b c,
    length a = length b -> length b = length c ->
    first_difference a b = true -> first_difference b c = true ->
    first_difference a c = true.
Proof.
  induction a as [|x a IH]; intros [|y b] [|z c] Hab Hbc H1 H2;
    try discriminate.
  cbn [first_difference] in *. rewrite Z.gtb_ltb in *.
  destruct (x <? y) eqn:Lxy.
  - apply Z.ltb_lt in Lxy. destruct (y <? z) eqn:Lyz.
    + apply Z.ltb_lt in Lyz.
      assert (E : (x <? z) = true) by (apply Z.ltb_lt; lia). now rewrite E.
    + destruct (z <? y) eqn:Gzy; [discriminate|].
      apply Z.ltb_ge in Lyz, Gzy.
      assert (E : (x <? z) = true) by (apply Z.ltb_lt; lia). now rewrite E.
  - destruct (y <? x) eqn:Gyx; [discriminate|].
    apply Z.ltb_ge in Lxy, Gyx. assert (x = y) by lia. subst y.
    destruct (x <? z); [reflexivity|]. destruct (z <? x); [discriminate|].
    cbn in Hab, Hbc. apply (IH b c); congruence || lia.
Qed.

Lemma pad_length (n : nat) (l : list Z) :
  (length l <= n)%nat -> length (pad n l) = n.
Proof. intro H. unfold pad. rewrite length_app, repeat_length. lia. Qed.

Lemma pad_more (n k : nat) (l : list Z) :
  (length l <= n)%nat -> pad (n + k) l = pad n l ++ repeat 0 k.
Proof.
  intro H. unfold pad. rewrite <- app_assoc, <- repeat_app. do 2 f_equal. lia.
Qed.

Lemma first_difference_app (a : list Z) :
  forall b t,
    length a = length b ->
    first_difference (a ++ t) (b ++ t) = first_difference a b.
Proof.
  induction a as [|x a IH]; intros [|y b] t Hl; try discriminate.
  - cbn. apply first_difference_irrefl.
  - cbn [app first_difference]. rewrite IH by (cbn in Hl; lia). reflexivity.
Qed.

(** Padding further than the longer list does not change the comparison. *)
Lemma first_difference_pad_any (a b : list Z) (n : nat) :
  (length a <= n)%nat -> (length b <= n)%nat ->
  first_difference (pad n a) (pad n b)
  = first_difference (pad (Nat.max (length a) (length b)) a)
                     (pad (Nat.max (length a) (length b)) b).
Proof.
  intros Ha Hb. set (m := Nat.max (length a) (length b)).
  replace n with (m + (n - m))%nat by lia.
  rewrite !pad_more by lia. apply first_difference_app.
  rewrite !pad_length; lia.
Qed.

Lemma update_available_spec_at (current latest : string) (n : nat) :
  (length (components current) <= n)%nat ->
  (length (components latest) <= n)%nat ->
  update_available_spec current latest
  = first_difference (pad n (components current)) (pad n (components latest)).
Proof.
  intros Hc Hl. unfold update_available_spec. cbn zeta.
  symmetry. now apply first_difference_pad_any.
Qed.

(** X1. [isUpdateAvailable] is a strict order on version strings: no
    version is an update of itself, two versions are never updates of each
    other, and an update of an update is an update. *)
Theorem isUpdateAvailable_strict_order :
  (forall v : string, isUpdateAvailable v (Some v) = false)
  /\ (forall a b : string,
         isUpdateAvailable a (Some b) = true ->
         isUpdateAvailable b (Some a) = false)
  /\ (forall a b c : string,
         isUpdateAvailable a (Some b) = true ->
         isUpdateAvailable b (Some c) = true ->
         isUpdateAvailable a (Some c) = true).
Proof.
  split; [|split].
  - intro v. rewrite isUpdateAvailable_refines. unfold update_available_spec.
    apply first_difference_irrefl.
  - intros a b. rewrite !isUpdateAvailable_refines.
    unfold update_available_spec. cbn zeta.
    rewrite (Nat.max_comm (length (components b))).
    apply first_difference_asym.
  - intros a b c. rewrite !isUpdateAvailable_refines.
    set (n := Nat.max (length (components a))
                (Nat.max (length (components b)) (length (components c)))).
    rewrite (update_available_spec_at a b n),
            (update_available_spec_at b c n),
            (update_available_spec_at a c n) by lia.
    apply first_difference_trans; rewrite !pad_length; lia.
Qed.

Lemma isUpdateAvailable_strict_order_witness :
  isUpdateAvailable "5.2.1" (Some "5.3"%string) = true
  /\ isUpdateAvailable "5.3" (Some "5.2.1"%string) = false
  /\ isUpdateAvailable "5.2.1" (Some "5.10.0"%string) = true.
Proof.
  destruct isUpdateAvailable_strict_order as (_ & Hasym & Htrans).
  split; [reflexivity|]. split.
  - apply Hasym. reflexivity.
  - apply (Htrans "5.2.1" "5.3" "5.10.0")%string; reflexivity.
Defined.

Lemma split_app_sep (sep : ascii) (s t : string) :
  split sep (s ++ String sep t) = split sep s ++ split sep t.
Proof.
  induction s as [|c s IH]; cbn [append split].
  - rewrite Ascii.eqb_refl. reflexivity.
  - destruct (Ascii.eqb c sep); rewrite IH; [reflexivity|].
    destruct (split sep s) as [|w ws] eqn:E; [|reflexivity].
    exfalso. destruct s as [|c' s']; cbn in E; [discriminate|].
    destruct (Ascii.eqb c' sep); [discriminate|].
    destruct (split sep s'); discriminate.
Qed.

Lemma components_dot_zero (v : string) :
  components (v ++ ".0") = components v ++ [0].
Proof.
  unfold components. rewrite (split_app_sep "." v "0"), map_app. reflexivity.
Qed.

Lemma pad_snoc_zero (n : nat) (l : list Z) :
  (length l < n)%nat -> pad n (l ++ [0]) = pad n l.
Proof.
  intro H. unfold pad. rewrite <- app_assoc, length_app. cbn [length app].
  replace (n - length l)%nat with (S (n - (length l + 1)))%nat by lia.
  reflexivity.
Qed.

Lemma update_available_spec_current_zero (current latest : string) :
  update_available_spec (current ++ ".0") latest
  = update_available_spec current latest.
Proof.
  set (n := S (Nat.max (length (components current))
                       (length (components latest)))).
  rewrite (update_available_spec_at (current ++ ".0") latest n),
          (update_available_spec_at current latest n);
    rewrite ?components_dot_zero, ?length_app; cbn [length]; try lia.
  rewrite pad_snoc_zero by lia. reflexivity.
Qed.

Lemma update_available_spec_latest_zero (current latest : string) :
  update_available_spec current (latest ++ ".0")
  = update_available_spec current latest.
Proof.
  set (n := S (Nat.max (length (components current))
                       (length (components latest)))).
  rewrite (update_available_spec_at current (latest ++ ".0") n),
          (update_available_spec_at current latest n);
    rewrite ?components_dot_zero, ?length_app; cbn [length]; try lia.
  rewrite pad_snoc_zero by lia. reflexivity.
Qed.

(** X2. A trailing [.0] component does not count: adding one to the current
    version, or to a latest version that is not empty, leaves the answer of
    [isUpdateAvailable] as it is. *)
Theorem isUpdateAvailable_trailing_zero :
  (forall current latest : string,
      isUpdateAvailable (current ++ ".0") (Some latest)
      = isUpdateAvailable current (Some latest))
  /\ (forall current latest : string,
         latest <> ""%string ->
         isUpdateAvailable current (Some (latest ++ ".0")%string)
         = isUpdateAvailable current (Some latest)).
Proof.
  split.
  - intros current latest. rewrite !isUpdateAvailable_refines.
    apply update_available_spec_current_zero.
  - intros current latest _. rewrite !isUpdateAvailable_refines.
    apply update_available_spec_latest_zero.
Qed.

Lemma isUpdateAvailable_trailing_zero_witness :
  isUpdateAvailable "5.3" (Some ("5.3.1" ++ ".0")%string)
  = isUpdateAvailable "5.3" (Some "5.3.1"%string).
Proof.
  apply (proj2 isUpdateAvailable_trailing_zero "5.3" "5.3.1")%string.
  discriminate.
Defined.

End UpdateOrder.

(* ===================================================================== *)
(** ** The background check over time                                    *)
(* ===================================================================== *)

Section CheckOverTime.
Import Js Sys VersionChecker Reading Observing.
Local Open Scope Z_scope.

(** What a settled fetch with a usable tag does, on each kind of disk. *)
Lemma background_resume_writable (cv tag : string) (w : World) :
  (strip_v tag =? "")%string = false ->
  cache_writable (disk w) = true ->
  background_resume cv (Response true (BodyJson (Some tag))) w
  = (Ok tt,
     {| vars := settled_vars (vars w) (Some (strip_v tag));
        disk := {| cache_dir := true;
                   cache_file :=
                     Readable (Json (record_of (clock w) (strip_v tag) cv));
                   mkdir_ok := mkdir_ok (disk w);
                   write_ok := write_ok (disk w) |};
        clock := clock w;
        pending := pending w;
        trace := trace w
                 ++ (if cache_dir (disk w) then [] else [MakeCacheDir])
                 ++ [WriteCacheFile (record_of (clock w) (strip_v tag) cv)] |}).
Proof.
  intros Htag Hw. unfold background_resume, try_finally, try_catch.
  unfold bind at 1. rewrite fetchLatestVersion_resume_spec.
  cbn [parsed_tag]. rewrite Htag. cbn [truthy]. rewrite Htag. cbn [negb].
  destruct w as [vs [[|] f [|] [|]] clk pend tr]; try discriminate;
    cbn; now rewrite <- ?app_assoc.
Qed.

Lemma background_resume_unwritable (cv tag : string) (w : World) :
  (strip_v tag =? "")%string = false ->
  cache_writable (disk w) = false ->
  exists d t,
    background_resume cv (Response true (BodyJson (Some tag))) w
    = (Ok tt,
       {| vars := settled_vars (vars w) (Some (strip_v tag));
          disk := d;
          clock := clock w;
          pending := pending w;
          trace := trace w ++ t |})
    /\ cache_file d = cache_file (disk w)
    /\ filter is_fetch t = []
    /\ (length (filter is_cache_write t) <= 1)%nat
    /\ forall c, In (WriteCacheFile c) t
                 -> c = record_of (clock w) (strip_v tag) cv.
Proof.
  intros Htag Hw. unfold background_resume, try_finally, try_catch.
  unfold bind at 1. rewrite fetchLatestVersion_resume_spec.
  cbn [parsed_tag]. rewrite Htag. cbn [truthy]. rewrite Htag. cbn [negb].
  destruct w as [vs [[|] f [|] [|]] clk pend tr]; try discriminate; cbn;
    eexists; eexists; (split; [rewrite <- ?app_assoc; reflexivity|]);
    cbn; repeat split; auto;
    intros c Hc; cbn in Hc; unfold record_of; intuition (try congruence; try discriminate).
Qed.

Lemma parsed_tag_inv (o : FetchOutcome) (v : string) :
  parsed_tag o = Some v ->
  exists tag,
    o = Response true (BodyJson (Some tag))
    /\ v = strip_v tag
    /\ (strip_v tag =? "")%string = false.
Proof.
  destruct o as [e|[|] [e|[t|]]]; try discriminate. cbn.
  destruct (strip_v t =? "")%string eqn:E; [discriminate|].
  intros [= <-]. now exists t.
Qed.

(** X3. A release that was fetched and written keeps later triggers quiet
    for 24 hours: when the fetch of the check in flight settles at [now]
    with a tag and the cache can be written, the cache file holds the
    record of that check, and a trigger less than 24 hours after [now]
    starts no fetch and leaves the fetched version memoized. *)
Theorem written_release_rate_limits :
  forall (w : World) (now later : Z) (cv cv' tag : string),
    pending w = [cv] ->
    (strip_v tag =? "")%string = false ->
    cache_writable (disk w) = true ->
    later - now < 24 * 60 * 60 * 1000 ->
    cache_file
      (disk (step w (FetchSettled now (Response true (BodyJson (Some tag))))))
    = Readable (Json (record_of now (strip_v tag) cv))
    /\ cachedLatestVersion
         (vars (step (step w (FetchSettled now
                                (Response true (BodyJson (Some tag)))))
                     (Trigger later cv')))
       = Some (strip_v tag)
    /\ checking (step (step w (FetchSettled now
                                 (Response true (BodyJson (Some tag)))))
                      (Trigger later cv')) = false
    /\ fetches (step (step w (FetchSettled now
                                (Response true (BodyJson (Some tag)))))
                     (Trigger later cv')) = fetches w
    /\ in_flight (step (step w (FetchSettled now
                                  (Response true (BodyJson (Some tag)))))
                       (Trigger later cv')) = 0%nat.
Proof.
  intros w now later cv cv' tag Hp Htag Hw Hlt.
  set (w1 := step w (FetchSettled now (Response true (BodyJson (Some tag))))).
  assert (E1 : w1 = snd (background_resume cv
                           (Response true (BodyJson (Some tag)))
                           (with_clock now (with_pending [] w)))).
  { unfold w1. cbn [step]. now rewrite Hp. }
  rewrite background_resume_writable in E1 by (destruct w; assumption).
  cbn [snd] in E1. rewrite E1. cbn [step disk cache_file].
  split; [now destruct w|].
  unfold exec. rewrite checkForUpdatesAsync_spec.
  cbn -[Z.sub Z.ltb CHECK_INTERVAL Z.mul].
  change CHECK_INTERVAL with (24 * 60 * 60 * 1000).
  destruct w as [vs d clk pend tr]. cbn -[Z.sub Z.ltb Z.mul] in *.
  destruct (later - now <? 24 * 60 * 60 * 1000) eqn:F;
    [|apply Z.ltb_ge in F; lia].
  unfold fetches, in_flight, checking. cbn. rewrite !filter_app. cbn.
  destruct (cache_dir d); cbn; rewrite ?app_nil_r; repeat split.
Qed.

Lemma written_release_rate_limits_witness :
  fetches (step (step (step (fresh_world Scenario.empty_disk 0)
                            (Trigger 1 "5.2.1"))
                      (FetchSettled 2 (Scenario.release "v5.3.0")))
                (Trigger Scenario.day "5.2.1"))
  = fetches (step (fresh_world Scenario.empty_disk 0) (Trigger 1 "5.2.1")).
Proof.
  apply (written_release_rate_limits
           (step (fresh_world Scenario.empty_disk 0) (Trigger 1 "5.2.1"))
           2 Scenario.day "5.2.1" "5.2.1" "v5.3.0"); reflexivity.
Defined.

(** X4. When the cache cannot be written, a fetched release is memoized all
    the same, the cache file stays as it was, and nothing holds the next
    trigger back: unless the old file is a fresh record, it fetches again. *)
Theorem unwritten_release_is_not_rate_limited :
  forall (w : World) (now later : Z) (cv cv' tag : string),
    pending w = [cv] ->
    (strip_v tag =? "")%string = false ->
    cache_writable (disk w) = false ->
    cachedLatestVersion
      (vars (step w (FetchSettled now (Response true (BodyJson (Some tag))))))
    = Some (strip_v tag)
    /\ cache_file
         (disk (step w (FetchSettled now
                          (Response true (BodyJson (Some tag))))))
       = cache_file (disk w)
    /\ (fresh_record w later = false ->
        fetches (step (step w (FetchSettled now
                                 (Response true (BodyJson (Some tag)))))
                      (Trigger later cv'))
        = S (fetches w)).
Proof.
  intros w now later cv cv' tag Hp Htag Hw.
  set (w1 := step w (FetchSettled now (Response true (BodyJson (Some tag))))).
  assert (H1 : exists d t,
             w1 = {| vars := settled_vars (vars w) (Some (strip_v tag));
                     disk := d; clock := now; pending := [];
                     trace := trace w ++ t |}
             /\ cache_file d = cache_file (disk w)
             /\ filter is_fetch t = []).
  { unfold w1. cbn [step]. rewrite Hp. unfold exec.
    destruct (background_resume_unwritable cv tag
                (with_clock now (with_pending [] w)) Htag)
      as (d & t & E & Hf & Hfetch & _); [destruct w; exact Hw|].
    rewrite E. exists d, t. destruct w. repeat split; assumption. }
  destruct H1 as (d & t & E1 & Hfile & Hfetch).
  split; [now rewrite E1|]. split; [now rewrite E1|].
  intro Hfresh.
  destruct (trigger_starts_fetch w1 later cv') as [_ Hs].
  - now rewrite E1.
  - unfold fresh_record in *. rewrite E1. cbn [disk]. now rewrite Hfile.
  - rewrite Hs, E1. unfold fetches. cbn [trace].
    now rewrite filter_app, Hfetch, app_nil_r.
Qed.

Lemma unwritten_release_is_not_rate_limited_witness :
  cachedLatestVersion
    (vars (step (step (fresh_world Scenario.read_only_disk 0)
                      (Trigger 1 "5.2.1"))
                (FetchSettled 2 (Scenario.release "v5.3.0"))))
  = Some "5.3.0"%string
  /\ fetches (step (step (step (fresh_world Scenario.read_only_disk 0)
                               (Trigger 1 "5.2.1"))
                         (FetchSettled 2 (Scenario.release "v5.3.0")))
                   (Trigger 3 "5.2.1")) = 2%nat.
Proof.
  destruct (unwritten_release_is_not_rate_limited
              (step (fresh_world Scenario.read_only_disk 0) (Trigger 1 "5.2.1"))
              2 3 "5.2.1" "5.2.1" "v5.3.0" eq_refl eq_refl eq_refl)
    as (Hmemo & _ & Hagain).
  split; [exact Hmemo|]. exact (Hagain eq_refl).
Defined.

(** X5. A stale record is served while it is refreshed: a trigger that
    finds no check in flight and a record of 24 hours or more memoizes the
    record's latest version and starts a fetch; when that fetch fails, the
    memoized version is still the record's, the marker is clear and the disk
    is as it was before the trigger. *)
Theorem stale_record_is_served :
  forall (w : World) (now later : Z) (cv : string) (c : VersionCache)
         (o : FetchOutcome),
    checking w = false ->
    pending w = [] ->
    cache_file (disk w) = Readable (Json c) ->
    24 * 60 * 60 * 1000 <= now - lastCheck c ->
    fetch_failed o = true ->
    fetches (step w (Trigger now cv)) = S (fetches w)
    /\ cachedLatestVersion (vars (step w (Trigger now cv))) = latestVersion c
    /\ cachedLatestVersion
         (vars (step (step w (Trigger now cv)) (FetchSettled later o)))
       = latestVersion c
    /\ checking (step (step w (Trigger now cv)) (FetchSettled later o))
       = false
    /\ disk (step (step w (Trigger now cv)) (FetchSettled later o)) = disk w.
Proof.
  intros w now later cv c o Hc Hp Hf Hstale Hfail.
  assert (E : step w (Trigger now cv)
              = started cv (record_taken c (with_clock now w))).
  { cbn [step]. unfold exec. rewrite checkForUpdatesAsync_spec.
    destruct w as [[v l [p|]] [dir f mk wr] clk pend tr]; [discriminate|].
    cbn in Hf. subst f. cbn -[Z.sub Z.ltb CHECK_INTERVAL].
    change CHECK_INTERVAL with (24 * 60 * 60 * 1000).
    destruct (now - lastCheck c <? 24 * 60 * 60 * 1000) eqn:F;
      [apply Z.ltb_lt in F; lia | reflexivity]. }
  rewrite E. split.
  { unfold fetches. cbn. rewrite !filter_app, !length_app. cbn. lia. }
  split; [reflexivity|].
  cbn [step started pending record_taken with_clock]. rewrite Hp.
  cbn [app]. unfold exec.
  rewrite (background_resume_no_tag _ _ _ (fetch_failed_no_tag o Hfail)).
  now destruct w.
Qed.

Lemma stale_record_is_served_witness :
  cachedLatestVersion
    (vars (step (step (fresh_world
                         (Scenario.disk_with
                            (Readable (Json Scenario.recent_record))) 0)
                      (Trigger (3 * Scenario.day) "5.2.1"))
                (FetchSettled (3 * Scenario.day + 1) Scenario.offline)))
  = Some "5.3.0"%string.
Proof.
  apply (stale_record_is_served
           (fresh_world
              (Scenario.disk_with (Readable (Json Scenario.recent_record))) 0)
           (3 * Scenario.day) (3 * Scenario.day + 1) "5.2.1"
           Scenario.recent_record Scenario.offline);
    (reflexivity || discriminate).
Defined.

(** *** The ledger of fetches and writes *)

Lemma count_app (p : Effect -> bool) (a b : list Effect) :
  length (filter p (a ++ b)) = (length (filter p a) + length (filter p b))%nat.
Proof. now rewrite filter_app, length_app. Qed.

Lemma trigger_accounted (w : World) (now : Z) (cv : string) :
  accounted w -> accounted (step w (Trigger now cv)).
Proof.
  intros [Hl Hn]. cbn [step]. unfold exec. rewrite checkForUpdatesAsync_spec.
  unfold accounted, ledger_balanced, writes_name_a_version, cache_writes,
    in_flight, fetches in *.
  destruct w as [[v l [p|]] [dir f mk wr] clk pend tr]; cbn in *;
    [split; assumption|].
  destruct f as [|e|[e|c]]; try destruct (_ <? _); cbn;
    rewrite ?count_app, ?length_app; cbn; (split; [lia|]);
    intros c' Hc'; repeat (apply in_app_or in Hc' as [Hc' | Hc']);
    auto; cbn in Hc'; intuition discriminate.
Qed.

Lemma settle_accounted (w : World) (now : Z) (o : FetchOutcome) :
  accounted w -> accounted (step w (FetchSettled now o)).
Proof.
  intros [Hl Hn]. cbn [step].
  destruct (pending w) as [|cv rest] eqn:P; [now split|].
  unfold exec. destruct (parsed_tag o) as [v|] eqn:T.
  - apply parsed_tag_inv in T as (tag & -> & -> & Htag).
    destruct (cache_writable (disk w)) eqn:W.
    + rewrite background_resume_writable by (destruct w; assumption).
      unfold accounted, ledger_balanced, writes_name_a_version, cache_writes,
        in_flight, fetches in *.
      destruct w as [vs d clk pend tr]. cbn in *. subst pend.
      rewrite !count_app. cbn in Hl.
      destruct (cache_dir d); cbn; (split; [lia|]);
        intros c Hc; repeat (apply in_app_or in Hc as [Hc | Hc]); auto;
        cbn in Hc; destruct Hc as [Hc | Hc]; try discriminate;
        try contradiction; try (destruct Hc as [Hc | []]; try discriminate);
        injection Hc as <-; cbn; now rewrite Htag.
    + destruct (background_resume_unwritable cv tag
                  (with_clock now (with_pending rest w)) Htag)
        as (d & t & E & _ & Hf & Hw & Hrec); [destruct w; exact W|].
      rewrite E. cbn [snd].
      unfold accounted, ledger_balanced, writes_name_a_version, cache_writes,
        in_flight, fetches in *.
      destruct w as [vs d0 clk pend tr]. cbn in *. subst pend.
      rewrite !count_app, Hf. cbn in Hl |- *. split; [lia|].
      intros c Hc. apply in_app_or in Hc as [Hc | Hc]; auto.
      rewrite (Hrec c Hc). cbn. now rewrite Htag.
  - rewrite (background_resume_no_tag _ _ _ T).
    unfold accounted, ledger_balanced, writes_name_a_version, cache_writes,
      in_flight, fetches in *.
    destruct w as [vs d clk pend tr]. cbn in *. subst pend. cbn in Hl.
    split; [lia | assumption].
Qed.

Lemma run_accounted (events : list Event) :
  forall w, accounted w -> accounted (run w events).
Proof.
  induction events as [|e events IH]; intros w A; [assumption|].
  cbn [run fold_left]. apply IH.
  destruct e; [now apply trigger_accounted | now apply settle_accounted].
Qed.

(** X6. The cache is written only for fetches that were made: in every
    world the program reaches from its start, the records written plus the
    fetches in flight are at most the fetches started; and every record the
    program wrote names a latest version, never [null] nor the empty
    string. *)
Theorem cache_writes_follow_fetches :
  forall (d : Disk) (t0 : Z) (events : list Event),
    (cache_writes (run (fresh_world d t0) events)
     + in_flight (run (fresh_world d t0) events)
     <= fetches (run (fresh_world d t0) events))%nat
    /\ (forall c : VersionCache,
           In (WriteCacheFile c) (trace (run (fresh_world d t0) events)) ->
           truthy (latestVersion c) = true).
Proof.
  intros d t0 events. apply (run_accounted events (fresh_world d t0)).
  split; [unfold ledger_balanced; cbn; lia | intros c []].
Qed.

Lemma occurs_in_skip (pre q s : string) :
  occurs_in q s -> occurs_in q (pre ++ s)%string.
Proof.
  intros (b & a & ->). exists (pre ++ b)%string, a.
  now rewrite string_app_assoc.
Qed.

Lemma occurs_in_head (q post : string) : occurs_in q (q ++ post)%string.
Proof. now exists ""%string, post. Qed.

Lemma cache_writes_follow_fetches_witness :
  truthy (latestVersion (record_of 2 "5.3.0" "5.2.1")) = true.
Proof.
  apply (proj2 (cache_writes_follow_fetches Scenario.empty_disk 0
                  [Trigger 1 "5.2.1";
                   FetchSettled 2 (Scenario.release "v5.3.0")])
               (record_of 2 "5.3.0" "5.2.1")).
  cbn. tauto.
Defined.

End CheckOverTime.

(* ===================================================================== *)
(** ** More on [runEpubCheck]                                            *)
(* ===================================================================== *)

Section RunMore.
Import Js Sys Types Runner Reading Observing.

(** A listener of [runEpubCheck] never throws, touches only the trace, where
    it can add the one [Unlink], and never unsettles the promise. *)
Lemma run_handler_total (out : string) (artifact : File EpubCheckResult)
    (e : ChildEvent) (st : RunState) (w : World) :
  exists st' t,
    run_handler out artifact e st w = (Ok st', with_trace (trace w ++ t) w)
    /\ filter is_spawn t = []
    /\ (run_promise st = Pending \/ run_promise st' = run_promise st).
Proof.
  assert (Hw : with_trace (trace w ++ []) w = w)
    by (rewrite app_nil_r; now destruct w).
  destruct e as [d|d|c|err]; cbn [run_handler].
  - do 2 eexists. rewrite Hw. repeat split. now right.
  - do 2 eexists. rewrite Hw. repeat split. now right.
  - unfold run_on_close, try_catch. destruct artifact as [|x|[x|doc]]; cbn.
    + exists {| stderr := stderr st;
                run_promise := reject (Error (no_output_message (stderr st) c))
                                      (run_promise st) |}, [].
      rewrite Hw. repeat split. cbn. destruct (run_promise st); auto.
    + do 2 eexists. rewrite Hw. repeat split. cbn.
      destruct (run_promise st); auto.
    + exists {| stderr := stderr st;
                run_promise := reject x (run_promise st) |}, [Unlink out].
      repeat split. cbn. destruct (run_promise st); auto.
    + exists {| stderr := stderr st;
                run_promise := resolve doc (run_promise st) |}, [Unlink out].
      repeat split. cbn. destruct (run_promise st); auto.
  - do 2 eexists. rewrite Hw. repeat split. cbn.
    destruct (run_promise st); auto.
Qed.

Lemma run_deliver_total (out : string) (artifact : File EpubCheckResult)
    (events : list ChildEvent) :
  forall (st : RunState) (w : World),
  exists st' t,
    deliver (run_handler out artifact) events st w
    = (Ok st', with_trace (trace w ++ t) w)
    /\ filter is_spawn t = []
    /\ (run_promise st = Pending \/ run_promise st' = run_promise st).
Proof.
  induction events as [|e events IH]; intros st w; cbn [deliver].
  - exists st, []. rewrite app_nil_r. repeat split; [now destruct w | now right].
  - destruct (run_handler_total out artifact e st w)
      as (st1 & t1 & E1 & S1 & P1).
    destruct (IH st1 (with_trace (trace w ++ t1) w))
      as (st2 & t2 & E2 & S2 & P2).
    unfold bind. rewrite E1, E2. exists st2, (t1 ++ t2).
    cbn [with_trace trace vars disk clock pending].
    rewrite app_assoc. repeat split.
    + now rewrite filter_app, S1, S2.
    + destruct P1 as [P1 | P1]; [now left|].
      destruct P2 as [P2 | P2]; [left; congruence | right; congruence].
Qed.

(** X8. A child that could not be started fails the run for good: once
    ['error'] has arrived before any ['close'], the promise is rejected with
    ["Failed to run EPUBCheck: "] and the error's message, whatever events
    follow and whatever lies at the artifact path. *)
Theorem runEpubCheck_spawn_failure_is_final :
  forall (env : Env) (uuid : string) (options : ValidateOptions)
         (artifact : File EpubCheckResult) (output later : list ChildEvent)
         (error : JsError) (w : World) (jarPath : string),
    getJarPath env = inr jarPath ->
    forallb is_data output = true ->
    result (runEpubCheck env uuid options artifact
              (output ++ ChildError error :: later)) w
    = Ok (Rejected
            (Error ("Failed to run EPUBCheck: " ++ Js.message error)%string)).
Proof.
  intros env uuid options artifact output later error w jar Hjar Hdata.
  unfold result, runEpubCheck. rewrite Hjar.
  unfold bind at 1. unfold emit, modify.
  unfold bind at 1. rewrite deliver_app. unfold bind at 1.
  rewrite (run_deliver_data _ _ _ _ _ Hdata).
  cbn [deliver run_handler stderr run_promise reject]. unfold bind at 1.
  cbn [ret].
  match goal with
  | |- context [deliver ?h later ?st ?w0] =>
      destruct (run_deliver_total
                  (Path.join [tmpdir env; ("epubcheck-" ++ uuid ++ ".json")%string])
                  artifact later st w0) as (st' & t & E & _ & P)
  end.
  rewrite E. cbn [fst ret]. destruct P as [P | P]; [discriminate|].
  now rewrite P.
Qed.

Lemma runEpubCheck_spawn_failure_is_final_witness :
  result (runEpubCheck Scenario.installed Scenario.uuid Scenario.book
            (Readable (Json Scenario.a_report))
            ([] ++ ChildError (SystemError "ENOENT" "spawn java ENOENT")
                :: [Close (Some (-2)%Z)]))
         (VersionChecker.fresh_world Scenario.empty_disk 0)
  = Ok (Rejected (Error "Failed to run EPUBCheck: spawn java ENOENT")).
Proof.
  apply (runEpubCheck_spawn_failure_is_final Scenario.installed Scenario.uuid
           Scenario.book (Readable (Json Scenario.a_report)) []
           [Close (Some (-2)%Z)] (SystemError "ENOENT" "spawn java ENOENT")
           (VersionChecker.fresh_world Scenario.empty_disk 0)
           "/app/bin/epubcheck.jar"); reflexivity.
Defined.

Lemma runEpubCheck_found (env : Env) (uuid : string)
    (options : ValidateOptions) (artifact : File EpubCheckResult)
    (events : list ChildEvent) (w : World) (jar : string) :
  getJarPath env = inr jar ->
  exists p t,
    runEpubCheck env uuid options artifact events w
    = (Ok p,
       with_trace
         (trace w
          ++ Spawn "java"
               ("-jar" :: jar :: buildArgs options (artifact_path env uuid))
               (Some (Path.dirname jar)) :: t) w)
    /\ filter is_spawn t = [].
Proof.
  intro J. unfold runEpubCheck. rewrite J.
  unfold bind at 1. unfold emit, modify. unfold bind at 1.
  match goal with
  | |- context [deliver ?h events ?st ?w0] =>
      destruct (run_deliver_total (artifact_path env uuid)
                  artifact events st w0) as (st' & t & E & S & _)
  end.
  unfold artifact_path in E. rewrite E. cbn [ret].
  exists (run_promise st'), t. split; [|assumption].
  cbn [with_trace trace vars disk clock pending].
  now rewrite <- app_assoc.
Qed.

(** X9. One invocation, at most one process: whatever the child emits,
    [runEpubCheck] spawns exactly one process when the JAR is found, and when
    it is not found it spawns none, leaves the world as it is and rejects
    with the error of [getJarPath]. It never touches the memoized versions,
    the cache on disk or the background check. *)
Theorem runEpubCheck_spawns_once :
  forall (env : Env) (uuid : string) (options : ValidateOptions)
         (artifact : File EpubCheckResult) (events : list ChildEvent)
         (w : World),
    (forall jarPath,
        getJarPath env = inr jarPath ->
        spawns (exec (runEpubCheck env uuid options artifact events) w)
        = S (spawns w))
    /\ (forall e,
           getJarPath env = inl e ->
           runEpubCheck env uuid options artifact events w
           = (Ok (Rejected e), w))
    /\ vars (exec (runEpubCheck env uuid options artifact events) w) = vars w
    /\ disk (exec (runEpubCheck env uuid options artifact events) w) = disk w
    /\ pending (exec (runEpubCheck env uuid options artifact events) w)
       = pending w.
Proof.
  intros env uuid options artifact events w.
  destruct (getJarPath env) as [e|jar] eqn:J.
  - assert (E : runEpubCheck env uuid options artifact events w
                = (Ok (Rejected e), w))
      by (unfold runEpubCheck; now rewrite J).
    unfold exec. rewrite E. repeat split; try discriminate.
    now intros e' [= <-].
  - destruct (runEpubCheck_found env uuid options artifact events w jar J)
      as (p & t & E & S).
    unfold exec. rewrite E. cbn [snd]. repeat split; try discriminate.
    intros jar' _. unfold spawns. cbn [with_trace trace].
    rewrite filter_app, length_app. cbn. rewrite S. cbn. lia.
Qed.

Lemma runEpubCheck_spawns_once_witness :
  spawns (exec (runEpubCheck Scenario.installed Scenario.uuid Scenario.book
                  Missing [StderrData "boom"; Close (Some 1%Z)])
               (VersionChecker.fresh_world Scenario.empty_disk 0)) = 1%nat
  /\ runEpubCheck Scenario.no_jar Scenario.uuid Scenario.book Missing []
       (VersionChecker.fresh_world Scenario.empty_disk 0)
     = (Ok (Rejected
              (Error (jar_not_found_message (possiblePaths Scenario.no_jar)))),
        VersionChecker.fresh_world Scenario.empty_disk 0).
Proof.
  split.
  - apply (proj1 (runEpubCheck_spawns_once Scenario.installed Scenario.uuid
                    Scenario.book Missing
                    [StderrData "boom"; Close (Some 1%Z)]
                    (VersionChecker.fresh_world Scenario.empty_disk 0))
                 "/app/bin/epubcheck.jar").
    reflexivity.
  - apply (proj1 (proj2 (runEpubCheck_spawns_once Scenario.no_jar
                           Scenario.uuid Scenario.book Missing []
                           (VersionChecker.fresh_world Scenario.empty_disk 0)))).
    reflexivity.
Defined.

(** X10. The run cleans up the file it asked for: when the JAR is found and
    the child closes after its output, the trace gains the spawn of
    [java -jar <jar>] with the built arguments in the JAR's directory and,
    exactly when the artifact could be read, one [unlink] of the very path
    given to the engine after [--json]; an artifact that is absent or
    unreadable is not unlinked, one that does not parse is. *)
Theorem runEpubCheck_unlinks_what_it_read :
  forall (env : Env) (uuid : string) (options : ValidateOptions)
         (artifact : File EpubCheckResult) (output : list ChildEvent)
         (code : option Z) (w : World) (jarPath : string),
    getJarPath env = inr jarPath ->
    forallb is_data output = true ->
    trace (exec (runEpubCheck env uuid options artifact
                   (output ++ [Close code])) w)
    = trace w
      ++ Spawn "java"
           ("-jar" :: jarPath :: buildArgs options (artifact_path env uuid))
           (Some (Path.dirname jarPath))
      :: (if readable artifact then [Unlink (artifact_path env uuid)] else [])
    /\ values_of "--json" (buildArgs options (artifact_path env uuid))
       = [artifact_path env uuid].
Proof.
  intros env uuid options artifact output code w jar Hjar Hdata. split.
  - unfold exec, runEpubCheck. rewrite Hjar.
    unfold bind at 1. unfold emit, modify.
    unfold bind at 1. rewrite deliver_app. unfold bind at 1.
    rewrite (run_deliver_data _ _ _ _ _ Hdata).
    cbn [deliver stderr run_promise append]. unfold bind at 1.
    cbn [run_handler]. unfold artifact_path.
    destruct artifact as [|e|[e|doc]]; cbn; rewrite <- ?app_assoc;
      reflexivity.
  - destruct options as [p m pr v].
    destruct m as [[]|], pr as [[]|], v as [[]|]; reflexivity.
Qed.

Lemma runEpubCheck_unlinks_what_it_read_witness :
  trace (exec (runEpubCheck Scenario.installed Scenario.uuid Scenario.book
                 (Readable (Garbled Scenario.truncated_json))
                 ([] ++ [Close (Some 0%Z)]))
              (VersionChecker.fresh_world Scenario.empty_disk 0))
  = [Spawn "java"
       ["-jar"; "/app/bin/epubcheck.jar"; "--json";
        "/tmp/epubcheck-123e4567-e89b-12d3-a456-426614174000.json";
        "/books/moby.epub"]
       (Some "/app/bin");
     Unlink "/tmp/epubcheck-123e4567-e89b-12d3-a456-426614174000.json"]%string.
Proof.
  apply (proj1 (runEpubCheck_unlinks_what_it_read Scenario.installed
                  Scenario.uuid Scenario.book
                  (Readable (Garbled Scenario.truncated_json)) []
                  (Some 0%Z)
                  (VersionChecker.fresh_world Scenario.empty_disk 0)
                  "/app/bin/epubcheck.jar" eq_refl eq_refl)).
Defined.

End RunMore.

(* ===================================================================== *)
(** ** More on [getEpubCheckVersion]                                     *)
(* ===================================================================== *)

Section VersionMore.
Import Js Sys Types Runner Reading Observing.

Lemma match_version_unfold (s : string) :
  match_version s
  = match match_here s with
    | Some g => Some g
    | None =>
        match s with
        | EmptyString => None
        | String _ s' => match_version s'
        end
    end.
Proof. destruct s; reflexivity. Qed.

Lemma strip_prefix_app (p r : string) : strip_prefix p (p ++ r) = Some r.
Proof.
  induction p as [|a p IH]; cbn; [now destruct r|].
  now rewrite Ascii.eqb_refl.
Qed.

Lemma strip_prefix_Some (p s r : string) :
  strip_prefix p s = Some r -> s = (p ++ r)%string.
Proof.
  revert s. induction p as [|a p IH]; intros s H.
  - destruct s; cbn in H; now injection H as <-.
  - destruct s as [|b s]; [discriminate|]. cbn in H.
    destruct (Ascii.eqb_spec a b) as [<- | _]; [|discriminate].
    cbn. f_equal. now apply IH.
Qed.

Lemma take_while_split (f : ascii -> bool) (s : string) :
  exists rest,
    s = (take_while f s ++ rest)%string
    /\ match rest with
       | EmptyString => True
       | String c _ => f c = false
       end.
Proof.
  induction s as [|c s (rest & E & Hr)]; cbn [take_while].
  - now exists ""%string.
  - destruct (f c) eqn:Fc.
    + exists rest. cbn. split; [now rewrite <- E | assumption].
    + exists (String c s). now split.
Qed.

Lemma take_while_all (f : ascii -> bool) (s : string) :
  forallb f (list_ascii_of_string (take_while f s)) = true.
Proof.
  induction s as [|c s IH]; cbn [take_while]; [reflexivity|].
  destruct (f c) eqn:Fc; [cbn; now rewrite Fc | reflexivity].
Qed.

Lemma match_here_Some (s g : string) :
  match_here s = Some g ->
  g <> ""%string
  /\ digits_and_dots g = true
  /\ exists post, s = ("EPUBCheck v" ++ g ++ post)%string /\ group_ends post.
Proof.
  unfold match_here. destruct (strip_prefix "EPUBCheck v" s) as [rest|] eqn:P;
    [|discriminate].
  cbn zeta. destruct (String.eqb_spec (take_while is_digit_or_dot rest) "")
    as [|Hne]; [discriminate|].
  intros [= <-]. split; [assumption|]. split; [apply take_while_all|].
  destruct (take_while_split is_digit_or_dot rest) as (post & E & Hp).
  exists post. split; [|exact Hp].
  rewrite <- E. now apply strip_prefix_Some.
Qed.

Lemma match_here_None (s post : string) (c : ascii) :
  match_here s = None ->
  s = ("EPUBCheck v" ++ String c post)%string ->
  is_digit_or_dot c = false.
Proof.
  intros H ->. unfold match_here in H. rewrite strip_prefix_app in H.
  cbn [take_while] in H. destruct (is_digit_or_dot c); [discriminate|].
  reflexivity.
Qed.

Lemma match_version_leftmost :
  forall s : string,
    (forall g,
        match_version s = Some g ->
        g <> ""%string
        /\ digits_and_dots g = true
        /\ exists pre post,
             s = (pre ++ "EPUBCheck v" ++ g ++ post)%string
             /\ group_ends post
             /\ forall pre' c post',
                  s = (pre' ++ "EPUBCheck v" ++ String c post')%string ->
                  is_digit_or_dot c = true ->
                  String.length pre <= String.length pre')
    /\ (match_version s = None ->
        forall pre c post,
          s = (pre ++ "EPUBCheck v" ++ String c post)%string ->
          is_digit_or_dot c = false).
Proof.
  induction s as [|a s [IHsome IHnone]]; rewrite match_version_unfold.
  - cbn. split; [discriminate|]. intros _ [|x pre] c post E; discriminate.
  - destruct (match_here (String a s)) as [g0|] eqn:H.
    + split; [|discriminate]. intros g [= <-].
      destruct (match_here_Some _ _ H) as (Hne & Hdd & post & E & Hend).
      split; [assumption|]. split; [assumption|].
      exists ""%string, post. cbn [append String.length].
      split; [exact E|]. split; [assumption|]. intros. apply Nat.le_0_l.
    + split.
      * intros g Hg. destruct (IHsome g Hg)
          as (Hne & Hdd & pre & post & E & Hend & Hleft).
        split; [assumption|]. split; [assumption|].
        exists (String a pre), post. split; [rewrite E at 1; reflexivity|].
        split; [assumption|].
        intros [|x pre'] c post' E' Hc.
        -- cbn [append] in E'.
           rewrite (match_here_None _ _ _ H E') in Hc. discriminate.
        -- cbn [append] in E'. injection E' as _ E'.
           cbn [String.length]. apply le_n_S. exact (Hleft pre' c post' E' Hc).
      * intros Hn [|x pre] c post E.
        -- exact (match_here_None _ _ _ H E).
        -- cbn [append] in E. injection E as _ E.
           exact (IHnone Hn pre c post E).
Qed.



Lemma checkForUpdatesAsync_keeps_cachedVersion (cv : string) (w : World) :
  cachedVersion (vars (exec (VersionChecker.checkForUpdatesAsync cv) w))
  = cachedVersion (vars w).
Proof.
  unfold exec. rewrite checkForUpdatesAsync_spec. cbn [snd].
  destruct w as [[v l [p|]] [dir f mk wr] clk pend tr]; [reflexivity|].
  cbn. destruct f as [|e|[e|c]]; try reflexivity.
  destruct (_ <? _)%Z; reflexivity.
Qed.

Lemma version_match_close (output : list ChildEvent) (code : option Z)
    (w : World) (jar g : string) :
  forallb is_data output = true ->
  match_version (collected_stdout output) = Some g ->
  deliver version_handler (output ++ [Close code])
    {| stdout := ""; version_promise := Pending |}
    (with_trace (trace w ++ [Spawn "java" (version_argv jar) None]) w)
  = (Ok {| stdout := collected_stdout output;
           version_promise := Resolved g |},
     exec (VersionChecker.checkForUpdatesAsync g) (version_known jar g w)).
Proof.
  intros Hd Hm. rewrite deliver_app. unfold bind at 1.
  rewrite (version_deliver_data _ _ _ Hd). cbn [stdout version_promise append].
  cbn [deliver version_handler]. unfold version_on_close.
  cbn [stdout]. rewrite Hm. unfold bind at 1. unfold bind at 1.
  cbn [set_cachedVersion modify]. unfold bind at 1.
  unfold exec. rewrite !checkForUpdatesAsync_spec. cbn [snd ret].
  unfold bind. cbn [ret]. now destruct w.
Qed.

(** X12. A version that was parsed is asked for once. When nothing is
    memoized, the JAR is found and the child closes after an output that
    holds the banner, the call resolves with the version of the banner and
    memoizes it, and the world is the one the background trigger leaves
    behind when called with that version right after the spawn. From then on
    every call, whatever the surroundings, resolves with the same version
    and changes nothing: no further process is spawned. *)
Theorem getEpubCheckVersion_asks_once :
  forall (env : Env) (output : list ChildEvent) (code : option Z)
         (w : World) (jar g : string),
    if_truthy (cachedVersion (vars w)) = None ->
    getJarPath env = inr jar ->
    forallb is_data output = true ->
    match_version (collected_stdout output) = Some g ->
    result (getEpubCheckVersion env (output ++ [Close code])) w
    = Ok (Resolved g)
    /\ exec (getEpubCheckVersion env (output ++ [Close code])) w
       = exec (VersionChecker.checkForUpdatesAsync g) (version_known jar g w)
    /\ cachedVersion
         (vars (exec (getEpubCheckVersion env (output ++ [Close code])) w))
       = Some g
    /\ forall (env' : Env) (events' : list ChildEvent),
         getEpubCheckVersion env' events'
           (exec (getEpubCheckVersion env (output ++ [Close code])) w)
         = (Ok (Resolved g),
            exec (getEpubCheckVersion env (output ++ [Close code])) w).
Proof.
  intros env output code w jar g H J Hd Hm.
  assert (E : getEpubCheckVersion env (output ++ [Close code]) w
              = (Ok (Resolved g),
                 exec (VersionChecker.checkForUpdatesAsync g)
                      (version_known jar g w))).
  { rewrite (getEpubCheckVersion_spawns env _ w jar H J).
    now rewrite (version_match_close output code w jar g Hd Hm). }
  unfold result, exec at 1 3 4 5. rewrite E. cbn [fst snd].
  assert (M : cachedVersion
                (vars (exec (VersionChecker.checkForUpdatesAsync g)
                            (version_known jar g w))) = Some g)
    by now rewrite checkForUpdatesAsync_keeps_cachedVersion.
  repeat split; try assumption.
  intros env' events'. apply getEpubCheckVersion_memoized. rewrite M.
  destruct (proj1 (match_version_leftmost _) g Hm) as (Hne & _).
  cbn. apply String.eqb_neq in Hne. now rewrite Hne.
Qed.

Lemma getEpubCheckVersion_asks_once_witness :
  result (getEpubCheckVersion Scenario.installed
            ([StdoutData "EPUBCheck v5.3.0"] ++ [Close (Some 0%Z)]))
         (VersionChecker.fresh_world Scenario.empty_disk 0)
  = Ok (Resolved "5.3.0")
  /\ spawns (exec (getEpubCheckVersion Scenario.no_jar [])
                  (exec (getEpubCheckVersion Scenario.installed
                           ([StdoutData "EPUBCheck v5.3.0"]
                            ++ [Close (Some 0%Z)]))
                        (VersionChecker.fresh_world Scenario.empty_disk 0)))
     = 1%nat.
Proof.
  destruct (getEpubCheckVersion_asks_once Scenario.installed
              [StdoutData "EPUBCheck v5.3.0"] (Some 0%Z)
              (VersionChecker.fresh_world Scenario.empty_disk 0)
              "/app/bin/epubcheck.jar" "5.3.0"
              eq_refl eq_refl eq_refl eq_refl) as (Hres & _ & _ & Hagain).
  split; [exact Hres|].
  unfold exec at 1. rewrite Hagain. reflexivity.
Defined.

End VersionMore.

(* ===================================================================== *)
(** ** The artifact path                                                 *)
(* ===================================================================== *)

Section ArtifactPath.
Import Js Sys Types Runner Reading Observing.

Lemma string_length_app (a b : string) :
  String.length (a ++ b) = String.length a + String.length b.
Proof. induction a as [|c a IH]; cbn; [reflexivity | now rewrite IH]. Qed.

Lemma string_app_inv_head (a b c : string) :
  (a ++ b = a ++ c)%string -> b = c.
Proof.
  induction a as [|x a IH]; cbn; [trivial|]. intros [= H]. now apply IH.
Qed.

Lemma string_app_inv_tail (s : string) :
  forall a b : string, (a ++ s = b ++ s)%string -> a = b.
Proof.
  induction a as [|x a IH]; intros [|y b] H; [reflexivity | | |].
  - apply (f_equal String.length) in H. cbn in H.
    rewrite string_length_app in H. lia.
  - apply (f_equal String.length) in H. cbn in H.
    rewrite string_length_app in H. lia.
  - cbn in H. injection H as -> H. f_equal. now apply IH.
Qed.

Lemma split_no_sep (s : string) :
  no_slash s = true -> split "/" s = [s].
Proof.
  induction s as [|c s IH]; [reflexivity|]. unfold no_slash. cbn.
  intro H. apply andb_prop in H as [Hc Hs].
  destruct (Ascii.eqb c "/"); [discriminate|]. now rewrite (IH Hs).
Qed.

Lemma no_slash_app (a b : string) :
  no_slash (a ++ b) = no_slash a && no_slash b.
Proof.
  unfold no_slash. induction a as [|c a IH]; cbn; [reflexivity|].
  now rewrite IH, andb_assoc.
Qed.

Lemma artifact_name_no_slash (uuid : string) :
  no_slash uuid = true -> no_slash (artifact_name uuid) = true.
Proof.
  intro H. unfold artifact_name. now rewrite !no_slash_app, H.
Qed.

Lemma ends_with_slash_app (a : string) (c : ascii) (b : string) :
  Path.ends_with_slash (a ++ String c b) = Path.ends_with_slash (String c b).
Proof.
  induction a as [|x a IH]; [reflexivity|].
  change (String x a ++ String c b)%string with (String x (a ++ String c b)).
  cbn [Path.ends_with_slash]. rewrite IH.
  destruct (a ++ String c b)%string eqn:E; [|reflexivity].
  destruct a; discriminate.
Qed.

(** A proper last segment goes through [normalizeString] untouched. *)
Lemma normalize_segments_last (allow : bool) (name : string)
    (segs : list string) :
  name <> ""%string -> name <> "."%string -> name <> ".."%string ->
  forall stack,
    Path.normalize_segments allow stack (segs ++ [name])
    = Path.normalize_segments allow stack segs ++ [name].
Proof.
  intros H0 H1 H2. apply String.eqb_neq in H0, H1, H2.
  induction segs as [|s segs IH]; intro stack; cbn [app Path.normalize_segments].
  - rewrite H0, H1, H2. reflexivity.
  - destruct ((s =? "") || (s =? "."))%string; [apply IH|].
    destruct (s =? "..")%string; [|apply IH].
    destruct stack as [|top below].
    + destruct allow; apply IH.
    + destruct (top =? "..")%string; apply IH.
Qed.

Lemma join_snoc_inj (sep : string) (l : list string) (a b : string) :
  array_join sep (l ++ [a]) = array_join sep (l ++ [b]) -> a = b.
Proof.
  unfold array_join. induction l as [|x l IH]; [trivial|].
  destruct l as [|y l].
  - cbn. intro H.
    now apply string_app_inv_head, string_app_inv_head in H.
  - change (String.concat sep ((x :: y :: l) ++ [a]))
      with (x ++ sep ++ String.concat sep ((y :: l) ++ [a]))%string.
    change (String.concat sep ((x :: y :: l) ++ [b]))
      with (x ++ sep ++ String.concat sep ((y :: l) ++ [b]))%string.
    intro H. apply string_app_inv_head, string_app_inv_head in H.
    now apply IH.
Qed.

Lemma join_snoc_suffix (sep : string) (l : list string) (a : string) :
  exists pre, array_join sep (l ++ [a]) = (pre ++ a)%string.
Proof.
  induction l as [|x l (pre & IH)]; [now exists ""%string|].
  destruct l as [|y l].
  - exists (x ++ sep)%string. cbn. now rewrite string_app_assoc.
  - change ((x :: y :: l) ++ [a]) with (x :: y :: (l ++ [a])).
    rewrite join_cons. change (y :: l ++ [a]) with ((y :: l) ++ [a]).
    rewrite IH. exists (x ++ sep ++ pre)%string.
    now rewrite !string_app_assoc.
Qed.

Lemma join_snoc_nonempty (sep : string) (l : list string) (a : string) :
  a <> ""%string -> array_join sep (l ++ [a]) <> ""%string.
Proof.
  intros Ha H. destruct (join_snoc_suffix sep l a) as (pre & E).
  rewrite E in H. apply (f_equal String.length) in H.
  rewrite string_length_app in H. cbn in H.
  destruct a; [now apply Ha | cbn in H; lia].
Qed.

Lemma ends_with_slash_name (pre uuid : string) :
  Path.ends_with_slash (pre ++ artifact_name uuid) = false.
Proof.
  unfold artifact_name.
  change ("epubcheck-" ++ uuid ++ ".json")%string
    with ("epubcheck-" ++ (uuid ++ String "." "json"))%string.
  rewrite <- !string_app_assoc.
  now rewrite (ends_with_slash_app _ "." "json").
Qed.

(** Joining a directory and a proper file name: a part that depends on the
    directory only, then the joined segments ending in the file name. *)
Lemma join_dir_name (dir name : string) :
  no_slash name = true ->
  name <> ""%string -> name <> "."%string -> name <> ".."%string ->
  Path.starts_with_slash name = false ->
  (forall pre, Path.ends_with_slash (pre ++ name) = false) ->
  Path.join [dir; name]
  = ((if Path.starts_with_slash dir then "/" else "")
     ++ array_join "/"
          ((if dir =? "" then []
            else Path.normalize_segments
                   (negb (Path.starts_with_slash dir)) [] (split "/" dir))
           ++ [name]))%string.
Proof.
  intros Hns H0 H1 H2 Hstart Hend.
  pose proof H0 as Hn. apply String.eqb_neq in Hn.
  unfold Path.join. cbn [filter]. rewrite Hn. cbn [negb].
  destruct dir as [|d0 dir].
  - cbn [String.eqb negb Path.starts_with_slash app].
    change (array_join "/" [name]) with name.
    unfold Path.normalize. rewrite Hn, Hstart. cbn [negb].
    rewrite (split_no_sep _ Hns).
    rewrite (normalize_segments_last true name [] H0 H1 H2).
    cbn [Path.normalize_segments rev app].
    change (array_join "/" [name]) with name. rewrite Hn.
    pose proof (Hend ""%string) as He. cbn [append] in He. rewrite He.
    cbn [append]. apply string_app_empty.
  - set (dr := String d0 dir).
    assert (Hd : (dr =? "")%string = false) by reflexivity.
    rewrite Hd. cbn [negb].
    change (array_join "/" [dr; name]) with (dr ++ String "/" name)%string.
    unfold Path.normalize.
    assert (Hp : ((dr ++ String "/" name) =? "")%string = false)
      by reflexivity.
    rewrite Hp.
    change (Path.starts_with_slash (dr ++ String "/" name))
      with (Path.starts_with_slash dr).
    rewrite split_app_sep, (split_no_sep _ Hns).
    rewrite (normalize_segments_last _ name _ H0 H1 H2).
    set (dirs := Path.normalize_segments _ [] (split "/" dr)).
    pose proof (join_snoc_nonempty "/" dirs name H0) as Hb.
    apply String.eqb_neq in Hb. rewrite Hb.
    assert (He : Path.ends_with_slash (dr ++ String "/" name) = false).
    { transitivity (Path.ends_with_slash ((dr ++ "/") ++ name));
        [now rewrite string_app_assoc | apply Hend]. }
    rewrite He. now rewrite string_app_empty.
Qed.

(** X13. Two runs never share an artifact path unless they share the
    identifier: for identifiers without [/], as [randomUUID] gives them,
    and whatever the scratch directory is, equal artifact paths mean equal
    identifiers. *)
Theorem artifact_path_injective :
  forall (env : Env) (uuid1 uuid2 : string),
    no_slash uuid1 = true ->
    no_slash uuid2 = true ->
    artifact_path env uuid1 = artifact_path env uuid2 ->
    uuid1 = uuid2.
Proof.
  intros env u1 u2 H1 H2 E. unfold artifact_path in E.
  fold (artifact_name u1) in E. fold (artifact_name u2) in E.
  rewrite !join_dir_name in E;
    try discriminate; try reflexivity;
    try (now apply artifact_name_no_slash);
    try (intro pre; apply ends_with_slash_name).
  apply string_app_inv_head, join_snoc_inj in E.
  unfold artifact_name in E. apply string_app_inv_head in E.
  now apply string_app_inv_tail in E.
Qed.

Lemma artifact_path_injective_witness :
  artifact_path Scenario.installed "123e4567-e89b-12d3-a456-426614174000"
  <> artifact_path Scenario.installed "123e4567-e89b-12d3-a456-426614174001".
Proof.
  intro E.
  apply (artifact_path_injective Scenario.installed
           "123e4567-e89b-12d3-a456-426614174000"
           "123e4567-e89b-12d3-a456-426614174001") in E;
    [discriminate | reflexivity | reflexivity].
Defined.

End ArtifactPath.

(* ===================================================================== *)
(** ** The tools of the server                                           *)
(* ===================================================================== *)

Section Grouping.
Import Js Sys Types Runner Reading Observing Server.

Lemma map_has_In {V : Type} (k : string) (m : JsMap V) :
  map_has k m = true <-> In k (map fst m).
Proof.
  induction m as [|[k' v] m IH]; cbn; [split; [discriminate | intros []]|].
  rewrite orb_true_iff, IH, String.eqb_eq. tauto.
Qed.

Lemma map_push_keys {V : Type} (k : string) (x : V) (m : JsMap (list V)) :
  map fst (map_push k x m) = map fst m.
Proof.
  induction m as [|[k' xs] m IH]; cbn; [reflexivity|].
  destruct (k' =? k); cbn; [reflexivity | now rewrite IH].
Qed.

Lemma map_push_In {V : Type} (k : string) (x : V) (m : JsMap (list V))
    (k' : string) (xs : list V) :
  NoDup (map fst m) ->
  In (k', xs) (map_push k x m) ->
  (k' = k /\ exists xs0, xs = xs0 ++ [x] /\ In (k, xs0) m)
  \/ (k' <> k /\ In (k', xs) m).
Proof.
  induction m as [|[k0 xs0] m IH]; cbn; [intros _ []|].
  intros Hnd Hin. inversion Hnd as [|? ? Hnotin Hnd']; subst.
  destruct (String.eqb_spec k0 k) as [-> | Hne].
  - destruct Hin as [[= <- <-] | Hin].
    + left. split; [reflexivity|]. exists xs0. split; [reflexivity | now left].
    + right. split; [|now right]. intros ->. apply Hnotin.
      apply in_map_iff. now exists (k, xs).
  - destruct Hin as [[= <- <-] | Hin].
    + right. split; [assumption | now left].
    + destruct (IH Hnd' Hin) as [(-> & xs1 & -> & H1) | (Hk & H1)].
      * left. split; [reflexivity|]. exists xs1. split; [reflexivity | now right].
      * right. split; [assumption | now right].
Qed.

Lemma of_category_snoc (k : string) (seen : list ErrorCodeInfo)
    (c : ErrorCodeInfo) :
  of_category k (seen ++ [c])
  = of_category k seen ++ (if category c =? k then [c] else []).
Proof. unfold of_category. rewrite filter_app. reflexivity. Qed.

Lemma of_category_unseen (k : string) (seen : list ErrorCodeInfo) :
  (forall c, In c seen -> category c <> k) -> of_category k seen = [].
Proof.
  unfold of_category. induction seen as [|c seen IH]; intro H; [reflexivity|].
  cbn. destruct (String.eqb_spec (category c) k) as [E | _].
  - exfalso. exact (H c (or_introl eq_refl) E).
  - apply IH. intros c' Hc'. apply H. now right.
Qed.

Lemma group_step_grouped (seen : list ErrorCodeInfo)
    (m : JsMap (list ErrorCodeInfo)) (c : ErrorCodeInfo) :
  grouped seen m -> grouped (seen ++ [c]) (group_step m c).
Proof.
  intros (Hnd & Hgroups & Hkeys). unfold group_step. cbn zeta.
  set (m' := if negb (map_has (category c) m)
             then map_set_new (category c) [] m else m).
  assert (Hnd' : NoDup (map fst m')).
  { unfold m'. destruct (map_has (category c) m) eqn:Has; [assumption|].
    cbn [negb]. unfold map_set_new. rewrite map_app. cbn.
    apply NoDup_app;
      [assumption | apply NoDup_cons; [intros [] | constructor] |].
    intros k Hk [<- | []]. apply map_has_In in Hk. congruence. }
  assert (Hgroups' : forall k cs, In (k, cs) m' -> cs = of_category k seen).
  { unfold m'. destruct (map_has (category c) m) eqn:Has; [assumption|].
    cbn [negb]. unfold map_set_new. intros k cs Hin.
    apply in_app_or in Hin as [Hin | [[= <- <-] | []]]; [now apply Hgroups|].
    symmetry. apply of_category_unseen. intros c' Hc' E.
    apply Hkeys in Hc'. rewrite E in Hc'. apply map_has_In in Hc'.
    congruence. }
  assert (Hkey : In (category c) (map fst m')).
  { unfold m'. destruct (map_has (category c) m) eqn:Has.
    - now apply map_has_In.
    - cbn [negb]. unfold map_set_new. rewrite map_app. apply in_or_app.
      right. now left. }
  assert (Hkeys' : forall c', In c' seen -> In (category c') (map fst m')).
  { unfold m'. destruct (map_has (category c) m); [assumption|].
    cbn [negb]. unfold map_set_new. intros c' Hc'. rewrite map_app.
    apply in_or_app. left. now apply Hkeys. }
  split; [now rewrite map_push_keys|]. split.
  - intros k cs Hin. rewrite of_category_snoc.
    destruct (map_push_In _ _ _ _ _ Hnd' Hin)
      as [(-> & cs0 & -> & H0) | (Hne & H0)].
    + rewrite String.eqb_refl. f_equal. now apply Hgroups'.
    + apply not_eq_sym in Hne. apply String.eqb_neq in Hne. rewrite Hne.
      rewrite app_nil_r. now apply Hgroups'.
  - intros c' Hc'. rewrite map_push_keys.
    apply in_app_or in Hc' as [Hc' | [<- | []]]; auto.
Qed.

Lemma fold_group_grouped (codes : list ErrorCodeInfo) :
  forall seen m,
    grouped seen m -> grouped (seen ++ codes) (fold_left group_step codes m).
Proof.
  induction codes as [|c codes IH]; intros seen m G; cbn [fold_left].
  - now rewrite app_nil_r.
  - change (c :: codes) with ([c] ++ codes). rewrite app_assoc.
    apply IH. now apply group_step_grouped.
Qed.

(** X14. The grouping loop of [handleListChecks] sorts the codes into
    their categories and loses none: no category is listed twice, the codes
    under a category are exactly the codes of that category in their
    original order, no group is empty, and the category of every code is
    listed. *)
Theorem group_by_category_partitions :
  forall codes : list ErrorCodeInfo,
    NoDup (map fst (group_by_category codes))
    /\ (forall k cs,
           In (k, cs) (group_by_category codes) ->
           cs = of_category k codes /\ cs <> [])
    /\ (forall c,
           In c codes ->
           In (category c, of_category (category c) codes)
              (group_by_category codes)).
Proof.
  intro codes.
  assert (G : grouped codes (group_by_category codes)).
  { apply (fold_group_grouped codes [] []).
    split; [constructor|]. split; [intros ? ? [] | intros ? []]. }
  destruct G as (Hnd & Hgroups & Hkeys).
  assert (Hused : forall k, In k (map fst (group_by_category codes)) ->
                            exists c, In c codes /\ category c = k).
  { unfold group_by_category.
    assert (Gen : forall cs m k,
               In k (map fst (fold_left group_step cs m)) ->
               In k (map fst m) \/ exists c, In c cs /\ category c = k).
    { induction cs as [|c cs IH]; intros m k Hk; [now left|].
      cbn [fold_left] in Hk. destruct (IH _ _ Hk) as [H | (c' & Hc' & E)].
      - unfold group_step in H. cbn zeta in H. rewrite map_push_keys in H.
        destruct (map_has (category c) m); [now left|].
        cbn [negb] in H. unfold map_set_new in H. rewrite map_app in H.
        apply in_app_or in H as [H | [<- | []]]; [now left|].
        right. exists c. split; [now left | reflexivity].
      - right. exists c'. split; [now right | assumption]. }
    intros k Hk. destruct (Gen codes [] k Hk) as [[] | H]. exact H. }
  split; [assumption|]. split.
  - intros k cs Hin. split; [now apply Hgroups|].
    rewrite (Hgroups k cs Hin).
    destruct (Hused k) as (c & Hc & E).
    { apply in_map_iff. now exists (k, cs). }
    intro Hnil. assert (Hin' : In c (of_category k codes)).
    { unfold of_category. apply filter_In. split; [assumption|].
      now apply String.eqb_eq. }
    rewrite Hnil in Hin'. exact Hin'.
  - intros c Hc. specialize (Hkeys c Hc). apply in_map_iff in Hkeys
      as ([k cs] & Hk & Hin). cbn in Hk. subst k.
    now rewrite <- (Hgroups _ _ Hin).
Qed.

Lemma group_by_category_partitions_witness :
  In ("OPF"%string,
      of_category "OPF"
        [ {| code := "OPF-001"; category := "OPF"; ec_severity := "ERROR";
             description := "a"; ec_suggestion := None |};
          {| code := "RSC-005"; category := "RSC"; ec_severity := "ERROR";
             description := "b"; ec_suggestion := None |};
          {| code := "OPF-002"; category := "OPF"; ec_severity := "FATAL";
             description := "c"; ec_suggestion := None |} ])
     (group_by_category
        [ {| code := "OPF-001"; category := "OPF"; ec_severity := "ERROR";
             description := "a"; ec_suggestion := None |};
          {| code := "RSC-005"; category := "RSC"; ec_severity := "ERROR";
             description := "b"; ec_suggestion := None |};
          {| code := "OPF-002"; category := "OPF"; ec_severity := "FATAL";
             description := "c"; ec_suggestion := None |} ]).
Proof.
  apply (proj2 (proj2 (group_by_category_partitions _))
               {| code := "OPF-001"; category := "OPF"; ec_severity := "ERROR";
                  description := "a"; ec_suggestion := None |}).
  left. reflexivity.
Defined.

End Grouping.

Section Reports.
Import Js Sys Types Runner Reading Observing Server.

Lemma occurs_in_grow (q s t : string) :
  occurs_in q s -> occurs_in q (s ++ t)%string.
Proof.
  intros (b & a & ->). exists b, (a ++ t)%string.
  now rewrite !string_app_assoc.
Qed.

Lemma append_messages_flatten (group : list Message) :
  forall output,
    append_messages output group
    = (output ++ flatten (map formatMessage group))%string.
Proof.
  unfold append_messages.
  induction group as [|m group IH]; intro output; cbn [fold_left map flatten].
  - now rewrite string_app_empty.
  - rewrite IH. now rewrite string_app_assoc.
Qed.

Lemma occurs_in_flatten (q : string) (l : list string) :
  In q l -> occurs_in q (flatten l).
Proof.
  induction l as [|x l IH]; [intros []|]. intros [-> | Hin]; cbn [flatten].
  - apply occurs_in_head.
  - apply occurs_in_skip. now apply IH.
Qed.

(** A section only adds to the output, and what it adds shows every message
    of its group. *)
Lemma append_section_adds (output heading : string) (group : list Message) :
  exists added,
    append_section output heading group = (output ++ added)%string
    /\ forall m, In m group -> occurs_in (formatMessage m) added.
Proof.
  destruct group as [|m0 group].
  - exists ""%string. split; [cbn; now rewrite string_app_empty | intros m []].
  - exists (heading ++ nl ++ flatten (map formatMessage (m0 :: group)) ++ nl)%string.
    split.
    + unfold append_section. rewrite append_messages_flatten.
      now rewrite !string_app_assoc.
    + intros m Hin. do 2 apply occurs_in_skip. apply occurs_in_grow.
      apply occurs_in_flatten. now apply in_map.
Qed.

Lemma formatMessages_shows (messages : list Message) (m : Message) :
  In m messages -> occurs_in (formatMessage m) (formatMessages messages).
Proof.
  intro Hin. unfold formatMessages. cbn zeta.
  assert (Hsev : In m (filter (fun x => severity_eqb (severity x) (severity m))
                              messages)).
  { apply filter_In. split; [assumption|]. now destruct (severity m). }
  destruct (append_section_adds ("## Messages" ++ nl ++ nl) "### Fatal Errors"
              (filter (fun x => severity_eqb (severity x) FATAL) messages))
    as (t1 & E1 & H1).
  rewrite E1.
  destruct (append_section_adds (("## Messages" ++ nl ++ nl) ++ t1)
              "### Errors"
              (filter (fun x => severity_eqb (severity x) ERROR) messages))
    as (t2 & E2 & H2).
  rewrite E2.
  destruct (append_section_adds ((("## Messages" ++ nl ++ nl) ++ t1) ++ t2)
              "### Warnings"
              (filter (fun x => severity_eqb (severity x) WARNING) messages))
    as (t3 & E3 & H3).
  rewrite E3.
  destruct (append_section_adds
              (((("## Messages" ++ nl ++ nl) ++ t1) ++ t2) ++ t3) "### Info"
              (filter (fun x => severity_eqb (severity x) INFO) messages))
    as (t4 & E4 & H4).
  rewrite E4.
  destruct (append_section_adds
              ((((("## Messages" ++ nl ++ nl) ++ t1) ++ t2) ++ t3) ++ t4)
              "### Usage Suggestions"
              (filter (fun x => severity_eqb (severity x) USAGE) messages))
    as (t5 & E5 & H5).
  rewrite E5.
  destruct (severity m).
  - do 4 apply occurs_in_grow. apply occurs_in_skip. now apply H1.
  - do 3 apply occurs_in_grow. apply occurs_in_skip. now apply H2.
  - do 2 apply occurs_in_grow. apply occurs_in_skip. now apply H3.
  - apply occurs_in_grow. apply occurs_in_skip. now apply H4.
  - apply occurs_in_skip. now apply H5.
Qed.

(** X15. Every message is shown: the rendering of each message of the
    list occurs in what [formatMessages] returns, whatever its severity,
    and the rendering of each message of a document occurs in what
    [formatValidationResult] returns. *)
Theorem every_message_is_shown :
  (forall (messages : list Message) (m : Message),
      In m messages ->
      occurs_in (formatMessage m) (formatMessages messages))
  /\ (forall (result : EpubCheckResult) (m : Message),
         In m (messages result) ->
         occurs_in (formatMessage m) (formatValidationResult result)).
Proof.
  split; [exact formatMessages_shows|].
  intros result m Hin. unfold formatValidationResult. cbn zeta.
  destruct (messages result) as [|m0 ms] eqn:E; [destruct Hin|].
  apply occurs_in_skip. now apply formatMessages_shows.
Qed.

Lemma every_message_is_shown_witness :
  occurs_in ("- **RSC-005**: Error while parsing file" ++ nl
             ++ "  - Location: OEBPS/ch1.xhtml:12:7" ++ nl)
            (formatValidationResult Scenario.a_report).
Proof.
  apply (proj2 every_message_is_shown Scenario.a_report
           {| ID := "RSC-005"; severity := ERROR;
              message := "Error while parsing file";
              additionalLocations := 0;
              locations := [ {| loc_path := "OEBPS/ch1.xhtml"; line := 12;
                                column := 7; context := None |} ];
              suggestion := None |}).
  left. reflexivity.
Defined.




End Reports.

Section ToolCalls.
Import Js Sys Types Runner Reading Observing Server.

Variable explainErrorCode : string -> option ErrorCodeInfo.
Variable getAllErrorCodes : list ErrorCodeInfo.

Lemma runEpubCheck_closed (env : Env) (uuid : string)
    (options : ValidateOptions) (artifact : File EpubCheckResult)
    (output : list ChildEvent) (code : option Z) (w : World) (jar : string) :
  getJarPath env = inr jar ->
  forallb is_data output = true ->
  exists w',
    runEpubCheck env uuid options artifact (output ++ [Close code]) w
    = (Ok (settled artifact (collected_stderr output) code), w').
Proof.
  intros Hjar Hdata. unfold runEpubCheck. rewrite Hjar.
  unfold bind at 1. unfold emit, modify.
  unfold bind at 1. rewrite deliver_app. unfold bind at 1.
  rewrite (run_deliver_data _ _ _ _ _ Hdata).
  cbn [deliver stderr run_promise append].
  unfold bind at 1. cbn [run_handler].
  destruct artifact as [|e|[e|doc]]; eexists; reflexivity.
Qed.

Lemma guarded_run (env : Env) (a : Answer) (options : ValidateOptions)
    (format : EpubCheckResult -> string) (w : World) :
  forall p w',
    runEpubCheck env (uuid a) options (artifact a) (events a) w = (Ok p, w') ->
    guarded (run_and_format env a options format) w
    = (Ok (outcome_of format p), w').
Proof.
  intros p w' E. unfold guarded, run_and_format, bind. rewrite E.
  destruct p; reflexivity.
Qed.

(** A tool that runs the engine ends as the run of the engine ends. *)
Lemma call_tool_engine (env : Env) (a : Answer) (name : string)
    (args : ToolArgs) (options : ValidateOptions)
    (format : EpubCheckResult -> string) (w : World) :
  engine_request name args = Some (options, format) ->
  call_tool explainErrorCode getAllErrorCodes env a name args w
  = guarded (run_and_format env a options format) w.
Proof.
  unfold engine_request, call_tool.
  repeat (destruct (name =? _)%string;
          [intros [= <- <-]; reflexivity|]).
  discriminate.
Qed.

(** X17. Findings are not failures. For each of the seven tools that run
    the engine, when the JAR is found and the child closes after its output:
    a document at the artifact path is returned rendered, not marked as an
    error, whatever the exit code; a missing artifact is returned as an
    error result whose text is ["Error: "] and the message of the run. And
    when no JAR is found the call returns the error of [getJarPath] as an
    error result and leaves the world as it is. *)
Theorem engine_tools_return_findings :
  forall (env : Env) (a : Answer) (name : string) (args : ToolArgs)
         (options : ValidateOptions) (format : EpubCheckResult -> string)
         (w : World),
    engine_request name args = Some (options, format) ->
    (forall jar output code document,
        getJarPath env = inr jar ->
        events a = output ++ [Close code] ->
        forallb is_data output = true ->
        artifact a = Readable (Json document) ->
        result (call_tool explainErrorCode getAllErrorCodes env a name args) w
        = Ok (CallReturned {| text := format document; isError := false |}))
    /\ (forall jar output code,
           getJarPath env = inr jar ->
           events a = output ++ [Close code] ->
           forallb is_data output = true ->
           artifact a = Missing ->
           result (call_tool explainErrorCode getAllErrorCodes env a name args)
                  w
           = Ok (CallReturned
                   {| text := ("Error: "
                               ++ no_output_message (collected_stderr output)
                                    code)%string;
                      isError := true |}))
    /\ (forall e,
           getJarPath env = inl e ->
           call_tool explainErrorCode getAllErrorCodes env a name args w
           = (Ok (CallReturned {| text := ("Error: " ++ Js.message e)%string;
                                  isError := true |}), w)).
Proof.
  intros env a name args options format w Hreq.
  pose proof (call_tool_engine env a name args options format w Hreq) as Hcall.
  split; [|split].
  - intros jar output code document Hjar Hev Hdata Hart.
    destruct (runEpubCheck_closed env (uuid a) options (artifact a) output
                code w jar Hjar Hdata) as (w' & E).
    rewrite <- Hev in E. unfold result. rewrite Hcall.
    rewrite (guarded_run env a options format w _ _ E). now rewrite Hart.
  - intros jar output code Hjar Hev Hdata Hart.
    destruct (runEpubCheck_closed env (uuid a) options (artifact a) output
                code w jar Hjar Hdata) as (w' & E).
    rewrite <- Hev in E. unfold result. rewrite Hcall.
    rewrite (guarded_run env a options format w _ _ E). now rewrite Hart.
  - intros e Hjar. rewrite Hcall.
    apply (guarded_run env a options format w (Rejected e) w).
    unfold runEpubCheck. now rewrite Hjar.
Qed.



End ToolCalls.

Section ToolCallWitnesses.
Import Js Sys Types Runner Reading Observing Server.

Lemma engine_tools_return_findings_witness :
  result (call_tool no_tools_table [] Scenario.installed closed_with_report
            "validate" validate_moby)
         (VersionChecker.fresh_world Scenario.empty_disk 0)
  = Ok (CallReturned
          {| text := formatValidationResult Scenario.a_report;
             isError := false |}).
Proof.
  apply (proj1 (engine_tools_return_findings no_tools_table []
                  Scenario.installed closed_with_report "validate"
                  validate_moby (validate_options validate_moby)
                  formatValidationResult
                  (VersionChecker.fresh_world Scenario.empty_disk 0) eq_refl)
               "/app/bin/epubcheck.jar" [StderrData "ERROR(RSC-005)"]
               (Some 1%Z) Scenario.a_report); reflexivity.
Defined.


End ToolCallWitnesses.

Section MessageLines.
Import Js Sys Types Runner Reading Observing Server.

(** X20. Of the locations of a message only the first is shown: the
    rendering of a message is that of the message with its first location
    alone; without any location the count of additional locations is not
    shown, whatever it is; and the column of the first location is not shown
    when its line is not positive. *)
Theorem formatMessage_first_location_only :
  forall m : Message,
    (forall l rest,
        locations m = l :: rest ->
        formatMessage m = formatMessage (with_locations [l] m))
    /\ (locations m = [] ->
        forall n, formatMessage (with_additional n m) = formatMessage m)
    /\ (forall l rest c,
           locations m = l :: rest ->
           (line l <= 0)%Z ->
           formatMessage (with_locations (with_column c l :: rest) m)
           = formatMessage m).
Proof.
  intros [i sv msg n ls sg]. cbn [locations]. split; [|split].
  - intros l rest ->. reflexivity.
  - intros -> n'. reflexivity.
  - intros l rest c -> Hline. unfold formatMessage, with_locations, with_column.
    cbn [locations ID Types.message additionalLocations suggestion loc_path
         line column].
    destruct (line l >? 0)%Z eqn:G; [apply Z.gtb_lt in G; lia | reflexivity].
Qed.

Lemma formatMessage_first_location_only_witness :
  formatMessage
    {| ID := "OPF-003"; severity := WARNING; message := "Item not in manifest";
       additionalLocations := 2;
       locations := [ {| loc_path := "book.epub"; line := 0; column := 9;
                         context := None |};
                      {| loc_path := "toc.ncx"; line := 4; column := 2;
                         context := None |} ];
       suggestion := None |}
  = formatMessage
      (with_locations
         [ {| loc_path := "book.epub"; line := 0; column := 9;
              context := None |} ]
         {| ID := "OPF-003"; severity := WARNING;
            message := "Item not in manifest";
            additionalLocations := 2;
            locations := [ {| loc_path := "book.epub"; line := 0; column := 9;
                              context := None |};
                           {| loc_path := "toc.ncx"; line := 4; column := 2;
                              context := None |} ];
            suggestion := None |}).
Proof.
  exact (proj1 (formatMessage_first_location_only
                  {| ID := "OPF-003"; severity := WARNING;
                     message := "Item not in manifest";
                     additionalLocations := 2;
                     locations :=
                       [ {| loc_path := "book.epub"; line := 0; column := 9;
                            context := None |};
                         {| loc_path := "toc.ncx"; line := 4; column := 2;
                            context := None |} ];
                     suggestion := None |})
               {| loc_path := "book.epub"; line := 0; column := 9;
                  context := None |}
               [ {| loc_path := "toc.ncx"; line := 4; column := 2;
                    context := None |} ]
               eq_refl).
Defined.

End MessageLines.

Section ListChecks.
Import Js Sys Types Runner Reading Observing Server.






End ListChecks.
